(** * BVA decision synchronisation: a shallow embedding of
      [lib/bva-api/client.ts], [lib/bva-api/parser.ts], [lib/bva-api/sync.ts],
      of the two generation methods of [lib/llm/openrouter.ts]
      and of the [decisions] / [sync_metadata] tables of [lib/db/schema.ts].

    The TypeScript code is asynchronous but strictly sequential (every
    promise is awaited before the next statement), so a call is modelled as
    a function in a state-and-exception monad over one record [St] that
    holds the two tables, the run's locals and a ghost trace of the calls
    made to the outside world (HTTP requests, timer delays, model calls,
    table reads and writes).

    What the embedding takes for granted:
    - strings are sequences of code units below 256;
    - [randomUUID] never returns the same value twice;
    - the database is reachable and every value handed to it is one the
      driver can bind: a statement fails only on a constraint of the schema
      ([NOT NULL], primary key, [UNIQUE]);
    - the tables hold the values as the code hands them over: a date keeps
      its milliseconds, of which a column in mode [timestamp] stores the
      whole seconds ([stored_seconds]);
    - a response body is cast to its TypeScript type unchecked; a search
      body has all the members of [SearchResult], and of the members of a
      decision detail, [paragraphs] and [raw_text] may be missing, the
      others are present;
    - the engine prints a built-in method [m] as
      [function m() { [native code] }];
    - [maxDecisions] is an integer or [NaN];
    - the page loop is bounded by a fuel, one unit per page request. *)

From Stdlib Require Import ZArith List String Ascii DecimalString DecimalNat Lia Bool.
From Stdlib Require Import QArith.
From stdpp Require Import base option list strings gmap.

Local Open Scope Z_scope.
Local Open Scope nat_scope.

(** ** JavaScript strings

    A string is a sequence of code units; the embedding keeps the code units
    below 256 (Latin-1), one [ascii] each. *)
Module JsString.

(** White space and line terminators removed by [String.prototype.trim],
    among the code units below 256: TAB, LF, VT, FF, CR, SP and NBSP. *)
Definition is_whitespace (c : ascii) : bool :=
  let n := nat_of_ascii c in
  ((9 <=? n) && (n <=? 13)) || (n =? 32) || (n =? 160).

Fixpoint trimStart (s : string) : string :=
  match s with
  | EmptyString => EmptyString
  | String c r => if is_whitespace c then trimStart r else s
  end.

(** [trimEnd] keeps a character when it is not white space or when something
    that is kept follows it. *)
Fixpoint trimEnd (s : string) : string :=
  match s with
  | EmptyString => EmptyString
  | String c r =>
      match trimEnd r with
      | EmptyString => if is_whitespace c then EmptyString else String c EmptyString
      | r' => String c r'
      end
  end.

Definition trim (s : string) : string := trimEnd (trimStart s).

(** [toLowerCase] on code units below 256: A-Z and the upper-case Latin-1
    letters (all of 192..222 but the multiplication sign, 215). *)
Definition lower_char (c : ascii) : ascii :=
  let n := nat_of_ascii c in
  if ((65 <=? n) && (n <=? 90)) || ((192 <=? n) && (n <=? 222) && negb (n =? 215))
  then ascii_of_nat (n + 32) else c.

Fixpoint toLowerCase (s : string) : string :=
  match s with
  | EmptyString => EmptyString
  | String c r => String (lower_char c) (toLowerCase r)
  end.

Fixpoint startsWith (p s : string) : bool :=
  match p, s with
  | EmptyString, _ => true
  | String a p', String b s' => if Ascii.eqb a b then startsWith p' s' else false
  | String _ _, EmptyString => false
  end.

(** [s.includes(p)] *)
Fixpoint includes (s p : string) : bool :=
  startsWith p s ||
  match s with
  | EmptyString => false
  | String _ r => includes r p
  end.

(** [s.slice(0, n)] for a non-negative [n]. *)
Fixpoint slice0 (n : nat) (s : string) : string :=
  match n, s with
  | S k, String c r => String c (slice0 k r)
  | _, _ => EmptyString
  end.

Global Arguments slice0 : simpl never.

(** [xs.join(sep)] on an array of strings. *)
Fixpoint join (sep : string) (xs : list string) : string :=
  match xs with
  | [] => EmptyString
  | [x] => x
  | x :: rest => x +:+ sep +:+ join sep rest
  end.

(** [n.toString()] for a non-negative integer. *)
Definition of_nat (n : nat) : string := NilEmpty.string_of_uint (Nat.to_uint n).
Global Arguments of_nat : simpl never.

Definition LF : string := String (ascii_of_nat 10) EmptyString.

End JsString.

(** ** [encodeURIComponent]

    On code units below 256: an unreserved character (a letter, a digit or
    one of [- _ . ! ~ * ' ( )]) stands for itself; any other is replaced by
    the percent-escapes of its UTF-8 bytes, one byte below 128 and two from
    128 on, in upper-case hexadecimal. *)
Module JsUri.

Definition unreserved (c : ascii) : bool :=
  let n := nat_of_ascii c in
  ((65 <=? n) && (n <=? 90)) || ((97 <=? n) && (n <=? 122)) || ((48 <=? n) && (n <=? 57))
  || List.existsb (Nat.eqb n) [45; 95; 46; 33; 126; 42; 39; 40; 41].

Definition hex_digit (d : nat) : ascii :=
  ascii_of_nat (if d <? 10 then 48 + d else 55 + d).

Definition percent : ascii := ascii_of_nat 37.

Definition escape (byte : nat) : string :=
  String percent (String (hex_digit (byte / 16)) (String (hex_digit (byte mod 16)) EmptyString)).

Definition encode_unit (c : ascii) : string :=
  let n := nat_of_ascii c in
  if unreserved c then String c EmptyString
  else if n <? 128 then escape n
  else escape (192 + n / 64) +:+ escape (128 + n mod 64).

Fixpoint encodeURIComponent (s : string) : string :=
  match s with
  | EmptyString => EmptyString
  | String c r => encode_unit c +:+ encodeURIComponent r
  end.

End JsUri.

(** ** JavaScript values that flow through the pipeline *)

(** A value produced by [JSON.parse]. *)
#[warnings="-register-all"]
Inductive JValue : Type :=
| JNull
| JBool (b : bool)
| JNum (q : Q)
| JStr (s : string)
| JArr (items : list JValue)
| JObj (fields : list (string * JValue)).

(** A JavaScript value as the classifier handles it: [undefined] or a JSON
    value. *)
Inductive JsVal : Type :=
| Undefined
| Val (v : JValue).

(** Truthiness, as [||] and [if] test it. *)
Definition truthy (v : JsVal) : bool :=
  match v with
  | Undefined => false
  | Val JNull => false
  | Val (JBool b) => b
  | Val (JNum q) => negb (Qnum q =? 0)%Z
  | Val (JStr s) => negb (String.eqb s "")
  | Val (JArr _) => true
  | Val (JObj _) => true
  end.

(** [a || b] *)
Definition js_or (a b : JsVal) : JsVal := if truthy a then a else b.

Fixpoint assoc (k : string) (fields : list (string * JValue)) : option JValue :=
  match fields with
  | [] => None
  | (k', v) :: rest => if String.eqb k k' then Some v else assoc k rest
  end.

(** A thrown value: an instance of [BVAApiError], an instance of another
    [Error] class ([TypeError], [SyntaxError], [OpenRouterError], a driver
    error), or a value that is not an [Error]. *)
Inductive Exn : Type :=
| BVAApiError (message : string) (statusCode : Z)
| JsError (message : string)
| NonError.

(** [error instanceof Error ? error.message : 'Unknown error'] *)
Definition message_or_unknown (e : Exn) : string :=
  match e with
  | BVAApiError m _ => m
  | JsError m => m
  | NonError => "Unknown error"
  end.

(** Property read [parsed.key] on a value returned by [JSON.parse]: a
    [TypeError] on [null], the own property of an object, [undefined] on
    anything else (the keys read here, [outcome] and [confidence], exist on no
    prototype). *)
Definition get_prop (v : JValue) (key : string) : Exn + JsVal :=
  match v with
  | JNull => inl (JsError ("Cannot read properties of null (reading '" +:+ key +:+ "')"))
  | JObj fields => inr (match assoc key fields with Some x => Val x | None => Undefined end)
  | _ => inr Undefined
  end.

(** [new Date(...)]: a reading of the clock (milliseconds since the epoch) or
    the date denoted by a string of the upstream; the latter is kept
    symbolic, as the pipeline only stores it. *)
Inductive JsDate : Type :=
| DateAt (ms : Z)
| DateOf (iso : string).

(** ** [client.ts]: the data of the decision-search service *)

Inductive DecisionType : Type := AMA | legacy.

Record BVADecisionSummary : Type := mkSummary {
  id : string;
  citation_number : string;
  date : string;
  type : DecisionType;
  docket_numbers : list string;
  url : string
}.

Record Paragraph : Type := mkParagraph {
  section : option string;
  text : string;
  order : Z
}.

(** [BVADecisionDetail extends BVADecisionSummary]. The client casts the
    response body to this type without checking it
    ([data as BVADecisionDetail]); the two members whose absence makes a later
    stage throw are optional here, [None] standing for a body that lacks
    them. *)
Record BVADecisionDetail : Type := mkDetail {
  summary :> BVADecisionSummary;
  paragraphs : option (list Paragraph);
  raw_text : option string;
  filename : string;
  created_at : string;
  updated_at : string
}.

Module SearchResult.
Record t : Type := mk {
  offset : nat;
  limit : nat;
  has_more : bool;
  count : nat;
  decisions : list BVADecisionSummary
}.
End SearchResult.

Inductive DecisionTypeFilter : Type := OnlyAMA | OnlyLegacy | AllTypes.
Inductive SortOrder : Type := DateDesc | DateAsc.

Module SearchParams.
Record t : Type := mk {
  query : string;
  decision_type : option DecisionTypeFilter;
  start_year : option nat;
  end_year : option nat;
  sort : option SortOrder;
  offset : option nat;
  limit : option nat
}.
End SearchParams.

(** ** The outside world *)

(** What [fetch] resolves to: a status line and what [response.json()] gives
    ([inl m]: it rejects, with a [SyntaxError] of message [m], on a body that
    is not JSON). *)
Record Response (A : Type) : Type := mkResponse {
  status : Z;
  statusText : string;
  json : string + A
}.
Arguments mkResponse {A} _ _ _.
Arguments status {A} _.
Arguments statusText {A} _.
Arguments json {A} _.

(** [response.ok] *)
Definition ok {A} (r : Response A) : bool :=
  ((200 <=? status r) && (status r <=? 299))%Z.

(** [fetch] rejects, with a [TypeError] of message [m], when the service
    cannot be reached. *)
Inductive FetchOutcome (A : Type) : Type :=
| Rejected (m : string)
| Resolved (r : Response A).
Arguments Rejected {A} _.
Arguments Resolved {A} _.

(** The prompt of [extractOutcome] is a fixed template around three
    interpolated values, which stand for it here. *)
Record Prompt : Type := mkPrompt {
  prompt_citation : string;
  prompt_date : string;
  prompt_excerpt : string
}.

Inductive ResponseFormat : Type := FormatText | FormatJsonObject.

Record GenerateOptions : Type := mkGenerateOptions {
  prompt : Prompt;
  temperature : Q;
  responseFormat : ResponseFormat
}.

(** Everything the pipeline calls and does not define: the two endpoints of
    the search service (the search endpoint receives the query string as the
    list of pairs appended to [URLSearchParams]); the chat-completion call
    behind [flashClient] ([inl m]: it throws an error of message [m];
    [inr c]: the content of the first choice, if any); [JSON.parse]
    ([inl m]: a [SyntaxError] of message [m]); and the clock, whose [n]-th
    reading is [clock n]. *)
Record Env : Type := mkEnv {
  search_endpoint : list (string * string) -> FetchOutcome SearchResult.t;
  decision_endpoint : string -> FetchOutcome BVADecisionDetail;
  chat_completions_create : GenerateOptions -> string + option string;
  JSON_parse : string -> string + JValue;
  clock : nat -> Z
}.

(** ** [schema.ts]: the two tables the pipeline writes *)

(** A value of [randomUUID()], named by its rank among the values drawn:
    the generator is taken never to repeat itself. *)
Inductive UUID : Type := uuid (n : nat).

Module Decision.
(** A row of [decisions]. [outcome] and [outcomeConfidence] hold whatever
    the classifier returned. *)
Record t : Type := mk {
  id : UUID;
  citationNumber : string;
  bvaApiId : string;
  decisionDate : JsDate;
  decisionType : DecisionType;
  docketNumbers : list string;
  sourceUrl : string;
  filename : string;
  outcome : JsVal;
  outcomeDetails : JsVal;
  outcomeConfidence : JsVal;
  rawText : option string;
  paragraphs : list Paragraph;
  sections : gmap string string;
  extractedData : JsVal;
  issues : JsVal;
  boardMemberName : JsVal;
  veteranName : JsVal;
  syncedAt : JsDate;
  lastUpdated : JsDate;
  indexed : bool;
  embeddingGenerated : bool
}.
End Decision.

Inductive SyncStatus : Type := completed | completed_with_errors.

Module SyncMetadata.
Record t : Type := mk {
  id : string;
  lastSyncDate : JsDate;
  totalDecisions : nat;
  lastSyncStatus : SyncStatus;
  lastSyncError : option string
}.
End SyncMetadata.

(** ** [sync.ts]: the run's bookkeeping *)

Record SyncError : Type := mkSyncError {
  decisionId : string;
  citationNumber : string;
  error : string
}.

Record SyncResult : Type := mkSyncResult {
  total : nat;
  synced : nat;
  skipped : nat;
  errors : list SyncError;
  startTime : Z;
  endTime : option Z;
  duration : option Z
}.

(** A JavaScript number used as a ceiling: an integer or [NaN]. *)
Inductive JsNum : Type := JsInt (z : Z) | JsNaN.

Record SyncOptions : Type := mkSyncOptions {
  opt_query : option string;
  startYear : option nat;
  endYear : option nat;
  decisionType : option DecisionTypeFilter;
  maxDecisions : option JsNum;
  skipExisting : option bool;
  extractOutcomes : option bool
}.

(** ** State, trace and the monad *)

(** One call to the outside world, in the order made. *)
Inductive Event : Type :=
| EvSearch (qs : list (string * string))
| EvGetDecision (citation : string)
| EvDelay (ms : nat)
| EvFindFirst (citation : string)
| EvGenerate (opts : GenerateOptions)
| EvUpsertDecision (citation : string)
| EvUpsertMetadata (key : string).

Record St : Type := mkSt {
  decisions_tbl : list Decision.t;
  sync_metadata_tbl : list SyncMetadata.t;
  ticks : nat;
  uuids : nat;
  trace : list Event;
  result : SyncResult;
  decisionsProcessed : nat
}.

(** How a call ends: it returns, it throws, or the model's page loop has used
    up its fuel. *)
Inductive Outcome (A : Type) : Type :=
| Ok (a : A)
| Throw (e : Exn)
| OutOfFuel.
Arguments Ok {A} _.
Arguments Throw {A} _.
Arguments OutOfFuel {A}.

Definition M (A : Type) : Type := St -> Outcome A * St.

Definition ret {A} (a : A) : M A := fun s => (Ok a, s).

Definition bind {A B} (m : M A) (k : A -> M B) : M B :=
  fun s =>
    match m s with
    | (Ok a, s') => k a s'
    | (Throw e, s') => (Throw e, s')
    | (OutOfFuel, s') => (OutOfFuel, s')
    end.

Definition throw {A} (e : Exn) : M A := fun s => (Throw e, s).

(** [try { m } catch (error) { h error }] *)
Definition try_catch {A} (m : M A) (h : Exn -> M A) : M A :=
  fun s =>
    match m s with
    | (Throw e, s') => h e s'
    | r => r
    end.

Definition get : M St := fun s => (Ok s, s).
Definition modify (f : St -> St) : M unit := fun s => (Ok tt, f s).

Notation "x <- m ;; k" := (bind m (fun x => k))
  (at level 100, m at next level, right associativity).
Notation "m ;;; k" := (bind m (fun _ => k))
  (at level 100, right associativity).

(** *** State primitives *)

Definition set_decisions_tbl (v : list Decision.t) (s : St) : St :=
  mkSt v (sync_metadata_tbl s) (ticks s) (uuids s) (trace s) (result s)
    (decisionsProcessed s).
Definition set_sync_metadata_tbl (v : list SyncMetadata.t) (s : St) : St :=
  mkSt (decisions_tbl s) v (ticks s) (uuids s) (trace s) (result s)
    (decisionsProcessed s).
Definition set_ticks (v : nat) (s : St) : St :=
  mkSt (decisions_tbl s) (sync_metadata_tbl s) v (uuids s) (trace s) (result s)
    (decisionsProcessed s).
Definition set_uuids (v : nat) (s : St) : St :=
  mkSt (decisions_tbl s) (sync_metadata_tbl s) (ticks s) v (trace s) (result s)
    (decisionsProcessed s).
Definition set_trace (v : list Event) (s : St) : St :=
  mkSt (decisions_tbl s) (sync_metadata_tbl s) (ticks s) (uuids s) v (result s) (decisionsProcessed s).
Definition set_result (v : SyncResult) (s : St) : St :=
  mkSt (decisions_tbl s) (sync_metadata_tbl s) (ticks s) (uuids s) (trace s) v (decisionsProcessed s).
Definition set_decisionsProcessed (v : nat) (s : St) : St :=
  mkSt (decisions_tbl s) (sync_metadata_tbl s) (ticks s) (uuids s) (trace s) (result s) v.

Definition emit (ev : Event) : M unit :=
  modify (fun s => set_trace (trace s ++ [ev]) s).

(** [new Date()].getTime(): the next reading of the clock. *)
Definition now (env : Env) : M Z :=
  fun s => (Ok (clock env (ticks s)), set_ticks (S (ticks s)) s).

Definition randomUUID : M UUID :=
  fun s => (Ok (uuid (uuids s)), set_uuids (S (uuids s)) s).

(** [await new Promise(resolve => setTimeout(resolve, ms))] *)
Definition delay (ms : nat) : M unit := emit (EvDelay ms).

(** [await fetch(url)], then the request is on the trace. *)
Definition fetch {A} (ev : Event) (o : FetchOutcome A) : M (Response A) :=
  emit ev ;;;
  match o with
  | Rejected m => throw (JsError m)
  | Resolved r => ret r
  end.

(** [await response.json()] *)
Definition response_json {A} (r : Response A) : M A :=
  match json r with
  | inl m => throw (JsError m)
  | inr data => ret data
  end.

(** ** [client.ts]: [BVAApiClient] *)

Definition render_filter (d : DecisionTypeFilter) : string :=
  match d with OnlyAMA => "AMA" | OnlyLegacy => "legacy" | AllTypes => "all" end.

Definition render_sort (o : SortOrder) : string :=
  match o with DateDesc => "date.desc" | DateAsc => "date.asc" end.

(** [if (x) queryParams.append(key, x.toString())] for a number: 0 is falsy. *)
Definition append_if_truthy (key : string) (x : option nat) : list (string * string) :=
  match x with
  | Some (S n) => [(key, JsString.of_nat (S n))]
  | _ => []
  end.

(** The pairs [searchDecisions] appends to [queryParams], in order. *)
Definition queryParams (params : SearchParams.t) : list (string * string) :=
  [("query", SearchParams.query params)]
  ++ match SearchParams.decision_type params with
     | Some d => [("decision_type", render_filter d)]
     | None => []
     end
  ++ append_if_truthy "start_year" (SearchParams.start_year params)
  ++ append_if_truthy "end_year" (SearchParams.end_year params)
  ++ match SearchParams.sort params with
     | Some o => [("sort", render_sort o)]
     | None => []
     end
  ++ match SearchParams.offset params with
     | Some o => [("offset", JsString.of_nat o)]
     | None => []
     end
  ++ append_if_truthy "limit" (SearchParams.limit params).

(** The [catch] of both request methods: a [BVAApiError] passes, anything
    else becomes a [BVAApiError] of status 0. *)
Definition rethrow_as_network_error {A} (error : Exn) : M A :=
  match error with
  | BVAApiError _ _ => throw error
  | _ => throw (BVAApiError ("Network error: " +:+ message_or_unknown error) 0)
  end.

Definition searchDecisions (env : Env) (params : SearchParams.t) : M SearchResult.t :=
  let qs := queryParams params in
  try_catch
    (response <- fetch (EvSearch qs) (search_endpoint env qs) ;;
     if negb (ok response)
     then throw (BVAApiError ("API error: " +:+ statusText response) (status response))
     else response_json response)
    rethrow_as_network_error.

Definition getDecision (env : Env) (citationNumber : string) : M BVADecisionDetail :=
  try_catch
    (response <- fetch (EvGetDecision citationNumber) (decision_endpoint env citationNumber) ;;
     if negb (ok response)
     then
       if (status response =? 404)%Z
       then throw (BVAApiError ("Decision not found: " +:+ citationNumber) 404)
       else throw (BVAApiError ("API error: " +:+ statusText response) (status response))
     else response_json response)
    rethrow_as_network_error.

(** The address [getDecision] requests. *)
Definition decision_url (baseUrl citationNumber : string) : string :=
  baseUrl +:+ "/api/v1/decisions/" +:+ JsUri.encodeURIComponent citationNumber.

(** *** [fetchAllDecisions], the batch generator

    The generator is resumed by its consumer, one [next()] at a time. Between
    two calls it is not started ([GenStart]: [offset = 0], [hasMore = true]),
    suspended at its [yield] with the locals [offset] and [result.has_more]
    ([GenSuspended]), or finished. *)
Inductive GenState : Type :=
| GenStart
| GenSuspended (offset : nat) (has_more : bool)
| GenDone.

Definition page_limit : nat := 100.

Definition with_page (params : SearchParams.t) (offset : nat) : SearchParams.t :=
  SearchParams.mk (SearchParams.query params) (SearchParams.decision_type params)
    (SearchParams.start_year params) (SearchParams.end_year params)
    (SearchParams.sort params) (Some offset) (Some page_limit).

(** The body of [while (hasMore)] entered at [offset], up to the next [yield]
    or to the end of the loop; every request uses one unit of fuel. *)
Fixpoint fetchAllDecisions_loop (fuel : nat) (env : Env) (params : SearchParams.t)
    (offset : nat) : M (option (list BVADecisionSummary) * GenState) :=
  match fuel with
  | 0 => fun s => (OutOfFuel, s)
  | S fuel' =>
      result <- searchDecisions env (with_page params offset) ;;
      match SearchResult.decisions result with
      | _ :: _ =>
          ret (Some (SearchResult.decisions result),
               GenSuspended offset (SearchResult.has_more result))
      | [] =>
          if SearchResult.has_more result
          then delay 500 ;;; fetchAllDecisions_loop fuel' env params (offset + page_limit)
          else ret (None, GenDone)
      end
  end.

(** [next()]: the batch yielded, if any, and the state the generator is left
    in. Resuming after a [yield] runs the rest of the loop body first. *)
Definition fetchAllDecisions_next (fuel : nat) (env : Env) (params : SearchParams.t)
    (g : GenState) : M (option (list BVADecisionSummary) * GenState) :=
  match g with
  | GenStart => fetchAllDecisions_loop fuel env params 0
  | GenSuspended offset hasMore =>
      if hasMore
      then delay 500 ;;; fetchAllDecisions_loop fuel env params (offset + page_limit)
      else ret (None, GenDone)
  | GenDone => ret (None, GenDone)
  end.

(** [healthCheck]: no exception leaves it. *)
Definition healthCheck (probe : FetchOutcome unit) : bool :=
  match probe with
  | Rejected _ => false
  | Resolved r => ok r
  end.

(** ** [openrouter.ts]: [OpenRouterClient.generate] *)

(** Any failure of the completion call is rethrown as an [OpenRouterError];
    a missing content reads as the empty string. *)
Definition generate (env : Env) (options : GenerateOptions) : M string :=
  emit (EvGenerate options) ;;;
  match chat_completions_create env options with
  | inl m => throw (JsError ("Generation failed: " +:+ m))
  | inr content => ret (default "" content)
  end.

(** *** [generateStream]

    The completion stream as its consumer sees it: chunks, each with the
    content of its first choice's delta if it has one, until the stream ends
    or throws. *)
Inductive ChunkStream : Type :=
| StreamEnd
| StreamThrows (error : Exn)
| StreamChunk (content : option string) (rest : ChunkStream).

(** [error instanceof Error ? error.message : 'Unknown error'], wrapped in
    an [OpenRouterError]. *)
Definition streaming_failed (error : Exn) : Exn :=
  JsError ("Streaming failed: " +:+ message_or_unknown error).

(** The body of [for await (const chunk of stream)]: the pieces yielded, in
    order, and the error thrown, if any. *)
Fixpoint for_await_chunks (stream : ChunkStream) : list string * option Exn :=
  match stream with
  | StreamEnd => ([], None)
  | StreamThrows error => ([], Some (streaming_failed error))
  | StreamChunk delta rest =>
      let content := default "" delta in
      let (pieces, thrown) := for_await_chunks rest in
      (if String.eqb content "" then pieces else content :: pieces, thrown)
  end.

(** [generateStream], given what the completion call does: it throws or
    returns a stream. *)
Definition generateStream (create : Exn + ChunkStream) : list string * option Exn :=
  match create with
  | inl error => ([], Some (streaming_failed error))
  | inr stream => for_await_chunks stream
  end.

(** ** [parser.ts] *)

(** [para.section || 'content'] *)
Definition sectionName (para : Paragraph) : string :=
  match section para with
  | Some s => if String.eqb s "" then "content" else s
  | None => "content"
  end.

(** [sections] is a plain object, so a key that it does not own may still
    read as a member of [Object.prototype]: the accessor [__proto__], or one
    of eleven methods. A method is truthy and, added to a string, gives the
    text of its source as the engine prints it. *)
Definition prototype_methods : list string :=
  ["constructor"; "__defineGetter__"; "__defineSetter__"; "hasOwnProperty";
   "__lookupGetter__"; "__lookupSetter__"; "isPrototypeOf"; "propertyIsEnumerable";
   "toString"; "valueOf"; "toLocaleString"].

Definition native_source (name : string) : string :=
  "function " +:+ name +:+ "() { [native code] }".

(** The text of [sections[k]] for a key [k] that [sections] does not own
    and inherits ([constructor] is the function [Object]). *)
Definition inherited (k : string) : option string :=
  if String.eqb k "constructor" then Some (native_source "Object")
  else if List.existsb (String.eqb k) prototype_methods then Some (native_source k)
  else None.

(** One round of the grouping loop. [sections[sectionName]] is set to the
    empty string when it is falsy - missing and not inherited, or empty - and
    then grows by the paragraph's text and a blank line; under an inherited
    method the text of the method comes first. Under [__proto__] nothing is
    stored: the key reads as [Object.prototype], which is truthy, and the
    assignment of a string to it is ignored. *)
Definition add_paragraph (sections : gmap string string) (para : Paragraph)
    : gmap string string :=
  if String.eqb (sectionName para) "__proto__" then sections
  else
    let current := match sections !! sectionName para with
                   | Some own => own
                   | None => default "" (inherited (sectionName para))
                   end in
    <[sectionName para := current +:+ (text para +:+ JsString.LF +:+ JsString.LF)]> sections.

Definition group_sections (paras : list Paragraph) : gmap string string :=
  JsString.trim <$> fold_left add_paragraph paras ∅.

(** The record built by [parseBVADecision] from the paragraphs, a fresh
    identifier and the time of the call; the three members it leaves out
    ([outcome], [outcomeDetails], [outcomeConfidence]) read as [undefined]. *)
Definition parsed_row (apiDecision : BVADecisionDetail) (paras : list Paragraph)
    (fresh : UUID) (syncedAt : Z) : Decision.t :=
  Decision.mk fresh (citation_number apiDecision) (id apiDecision)
    (DateOf (date apiDecision)) (type apiDecision) (docket_numbers apiDecision)
    (url apiDecision) (filename apiDecision)
    Undefined Undefined Undefined
    (raw_text apiDecision) paras (group_sections paras)
    (Val JNull) (Val JNull) (Val JNull) (Val JNull)
    (DateAt syncedAt) (DateOf (updated_at apiDecision))
    false false.

Definition parseBVADecision (env : Env) (apiDecision : BVADecisionDetail)
    : M Decision.t :=
  match paragraphs apiDecision with
  | None => throw (JsError "apiDecision.paragraphs is not iterable")
  | Some paras =>
      fresh <- randomUUID ;;
      syncedAt <- now env ;;
      ret (parsed_row apiDecision paras fresh syncedAt)
  end.

Definition normalizeSectionName (sectionName : string) : string :=
  let name := JsString.trim (JsString.toLowerCase sectionName) in
  if JsString.includes name "introduction" || JsString.includes name "intro"
  then "introduction"
  else if JsString.includes name "finding" || JsString.includes name "fact"
  then "findings_of_fact"
  else if JsString.includes name "analysis" || JsString.includes name "discussion"
  then "analysis"
  else if JsString.includes name "reason" && JsString.includes name "base"
  then "reasons_and_bases"
  else if JsString.includes name "conclusion" || JsString.includes name "order"
  then "conclusion"
  else if JsString.includes name "evidence"
  then "evidence"
  else if JsString.includes name "procedural"
  then "procedural_history"
  else sectionName.

Definition prioritySections : list string :=
  ["findings_of_fact"; "reasons_and_bases"; "analysis"; "conclusion"].

(** [extractKeySections]: the priority sections present (and not empty) in
    the mapping, or the whole mapping when there is none. *)
Definition extractKeySections (sections : gmap string string) : gmap string string :=
  let keySections :=
    fold_left
      (fun acc section =>
         match sections !! section with
         | Some v => if String.eqb v "" then acc else <[section := v]> acc
         | None => acc
         end)
      prioritySections (∅ : gmap string string) in
  if Nat.eqb (size keySections) 0 then sections else keySections.

(** [identifySectionTypes]: the labels of the paragraphs that carry one,
    each once, in the order in which the [Set] first received them. *)
Definition identifySectionTypes (paragraphs : list Paragraph) : list string :=
  fold_left
    (fun sections para =>
       match section para with
       | Some s =>
           if String.eqb s "" then sections
           else if List.existsb (String.eqb s) sections then sections
           else sections ++ [s]
       | None => sections
       end)
    paragraphs [].

(** ** [sync.ts]: [BVASyncService] *)

Definition set_total (v : nat) (r : SyncResult) : SyncResult :=
  mkSyncResult v (synced r) (skipped r) (errors r) (startTime r) (endTime r) (duration r).
Definition set_synced (v : nat) (r : SyncResult) : SyncResult :=
  mkSyncResult (total r) v (skipped r) (errors r) (startTime r) (endTime r) (duration r).
Definition set_skipped (v : nat) (r : SyncResult) : SyncResult :=
  mkSyncResult (total r) (synced r) v (errors r) (startTime r) (endTime r) (duration r).
Definition set_errors (v : list SyncError) (r : SyncResult) : SyncResult :=
  mkSyncResult (total r) (synced r) (skipped r) v (startTime r) (endTime r) (duration r).
Definition set_end (e : Z) (r : SyncResult) : SyncResult :=
  mkSyncResult (total r) (synced r) (skipped r) (errors r) (startTime r)
    (Some e) (Some (e - startTime r)%Z).

(** [result.x = ...] *)
Definition update_result (f : SyncResult -> SyncResult) : M unit :=
  modify (fun s => set_result (f (result s)) s).

(** *** The store *)

Definition same_citation (c : string) (row : Decision.t) : bool :=
  String.eqb (Decision.citationNumber row) c.

Definition uuid_eqb (a b : UUID) : bool :=
  match a, b with uuid m, uuid n => Nat.eqb m n end.

(** [db.query.decisions.findFirst({ where: eq(decisions.citationNumber, c) })] *)
Definition findFirst (c : string) : M (option Decision.t) :=
  emit (EvFindFirst c) ;;;
  s <- get ;;
  ret (List.find (same_citation c) (decisions_tbl s)).

(** A column under [DO UPDATE SET]: the statement names the members of
    [set] that are not [undefined], so a column whose member is [undefined]
    keeps what it held. *)
Definition set_column (handed held : JsVal) : JsVal :=
  match handed with
  | Undefined => held
  | Val _ => handed
  end.

(** The row left by [DO UPDATE SET]: every column of [set], that is all of
    [values] with the new [lastUpdated]; [outcome_details], which [set] does
    not name, stays, and so does an outcome or a confidence whose member is
    [undefined]. *)
Definition updated_row (old values : Decision.t) (lastUpdated : JsDate) : Decision.t :=
  Decision.mk (Decision.id values) (Decision.citationNumber values)
    (Decision.bvaApiId values) (Decision.decisionDate values)
    (Decision.decisionType values) (Decision.docketNumbers values)
    (Decision.sourceUrl values) (Decision.filename values)
    (set_column (Decision.outcome values) (Decision.outcome old))
    (Decision.outcomeDetails old)
    (set_column (Decision.outcomeConfidence values) (Decision.outcomeConfidence old))
    (Decision.rawText values)
    (Decision.paragraphs values) (Decision.sections values)
    (Decision.extractedData values) (Decision.issues values)
    (Decision.boardMemberName values) (Decision.veteranName values)
    (Decision.syncedAt values) lastUpdated
    (Decision.indexed values) (Decision.embeddingGenerated values).

(** [db.insert(decisions).values(values).onConflictDoUpdate({ target:
    decisions.citationNumber, set: {...values, lastUpdated} })] on a table
    with [raw_text NOT NULL], primary key [id] and unique [citation_number]
    and [bva_api_id]. The statement fails, and changes nothing, when
    [raw_text] is missing or when [id] or [bva_api_id] is held by a row of
    another citation number... *)
Definition other_rows (c : string) (tbl : list Decision.t) : list Decision.t :=
  List.filter (fun row => negb (same_citation c row)) tbl.

Definition constraint_failure (values : Decision.t) (tbl : list Decision.t)
    : option string :=
  let others := other_rows (Decision.citationNumber values) tbl in
  match Decision.rawText values with
  | None => Some "NOT NULL constraint failed: decisions.raw_text"
  | Some _ =>
      if List.existsb (fun row => uuid_eqb (Decision.id row) (Decision.id values)) others
      then Some "UNIQUE constraint failed: decisions.id"
      else if List.existsb
                (fun row => String.eqb (Decision.bvaApiId row) (Decision.bvaApiId values))
                others
      then Some "UNIQUE constraint failed: decisions.bva_api_id"
      else None
  end.

(** ... else it overwrites the row of that citation number, or adds a row
    when there is none. *)
Definition upserted (values : Decision.t) (lastUpdated : JsDate) (tbl : list Decision.t)
    : list Decision.t :=
  let c := Decision.citationNumber values in
  if List.existsb (same_citation c) tbl
  then List.map (fun row => if same_citation c row
                            then updated_row row values lastUpdated
                            else row) tbl
  else tbl ++ [values].

Definition upsert_decision (values : Decision.t) (lastUpdated : JsDate) : M unit :=
  emit (EvUpsertDecision (Decision.citationNumber values)) ;;;
  s <- get ;;
  match constraint_failure values (decisions_tbl s) with
  | Some m => throw (JsError m)
  | None => modify (set_decisions_tbl (upserted values lastUpdated (decisions_tbl s)))
  end.

Definition same_key (k : string) (row : SyncMetadata.t) : bool :=
  String.eqb (SyncMetadata.id row) k.

(** [db.insert(syncMetadata).values(values).onConflictDoUpdate({ target:
    syncMetadata.id, set })]: [set] carries every column but [id]. *)
Definition upsert_metadata (values set : SyncMetadata.t) : M unit :=
  emit (EvUpsertMetadata (SyncMetadata.id values)) ;;;
  modify (fun s =>
    let tbl := sync_metadata_tbl s in
    let k := SyncMetadata.id values in
    set_sync_metadata_tbl
      (if List.existsb (same_key k) tbl
       then List.map (fun row => if same_key k row
                                 then SyncMetadata.mk (SyncMetadata.id row)
                                        (SyncMetadata.lastSyncDate set)
                                        (SyncMetadata.totalDecisions set)
                                        (SyncMetadata.lastSyncStatus set)
                                        (SyncMetadata.lastSyncError set)
                                 else row) tbl
       else tbl ++ [values]) s).

(** *** [extractOutcome] *)

Definition lift {A} (r : Exn + A) : M A :=
  match r with
  | inl e => throw e
  | inr a => ret a
  end.

Definition JSON_parse_M (env : Env) (text : string) : M JValue :=
  match JSON_parse env text with
  | inl m => throw (JsError m)
  | inr v => ret v
  end.

Definition unknown_outcome : JsVal * JsVal := (Val (JStr "Unknown"), Val (JNum 0)).

(** The request sent to the model for a decision whose excerpt is
    [textExcerpt]. *)
Definition classify_request (decision : BVADecisionDetail) (textExcerpt : string)
    : GenerateOptions :=
  mkGenerateOptions (mkPrompt (citation_number decision) (date decision) textExcerpt)
    (1 # 10) FormatJsonObject.

(** Returns the pair [{outcome, confidence}]. The excerpt is taken before
    the [try] block. *)
Definition extractOutcome (env : Env) (decision : BVADecisionDetail) : M (JsVal * JsVal) :=
  textExcerpt <- match raw_text decision with
                 | Some t => ret (JsString.slice0 4000 t)
                 | None => throw (JsError "Cannot read properties of undefined (reading 'slice')")
                 end ;;
  try_catch
    (response <- generate env (classify_request decision textExcerpt) ;;
     parsed <- JSON_parse_M env response ;;
     outcome <- lift (get_prop parsed "outcome") ;;
     confidence <- lift (get_prop parsed "confidence") ;;
     ret (outcome, js_or confidence (Val (JNum (1 # 2)))))
    (fun _ => ret unknown_outcome).

(** *** [updateSyncMetadata] *)

(** [result.endTime || new Date()] *)
Definition endTime_or_now (env : Env) (result : SyncResult) : M JsDate :=
  match endTime result with
  | Some e => ret (DateAt e)
  | None => t <- now env ;; ret (DateAt t)
  end.

Definition sync_status (result : SyncResult) : SyncStatus :=
  if 0 <? length (errors result) then completed_with_errors else completed.

Definition errorSummary (result : SyncResult) : option string :=
  if 0 <? length (errors result)
  then Some (JsString.of_nat (length (errors result)) +:+ " errors: "
             +:+ JsString.join ", " (List.map citationNumber (firstn 3 (errors result))))
  else None.

Definition updateSyncMetadata (env : Env) (result : SyncResult) : M unit :=
  let status := sync_status result in
  let summary := errorSummary result in
  d1 <- endTime_or_now env result ;;
  d2 <- endTime_or_now env result ;;
  upsert_metadata
    (SyncMetadata.mk "latest" d1 (synced result) status summary)
    (SyncMetadata.mk "latest" d2 (synced result) status summary).

(** *** [syncDecisions] *)

(** [options.maxDecisions || 100] *)
Definition effective_maxDecisions (options : SyncOptions) : Z :=
  match maxDecisions options with
  | Some (JsInt z) => if (z =? 0)%Z then 100%Z else z
  | Some JsNaN => 100%Z
  | None => 100%Z
  end.

(** [options.query || 'veteran'] *)
Definition effective_query (options : SyncOptions) : string :=
  match opt_query options with
  | Some q => if String.eqb q "" then "veteran" else q
  | None => "veteran"
  end.

(** [decisionsProcessed >= maxDecisions] *)
Definition limit_reached (maxDecisions : Z) (s : St) : bool :=
  (maxDecisions <=? Z.of_nat (decisionsProcessed s))%Z.

(** [{...parsed, outcome, outcomeConfidence}] *)
Definition with_outcome (parsed : Decision.t) (outcome outcomeConfidence : JsVal)
    : Decision.t :=
  Decision.mk (Decision.id parsed) (Decision.citationNumber parsed)
    (Decision.bvaApiId parsed) (Decision.decisionDate parsed)
    (Decision.decisionType parsed) (Decision.docketNumbers parsed)
    (Decision.sourceUrl parsed) (Decision.filename parsed)
    outcome (Decision.outcomeDetails parsed) outcomeConfidence
    (Decision.rawText parsed) (Decision.paragraphs parsed)
    (Decision.sections parsed) (Decision.extractedData parsed)
    (Decision.issues parsed) (Decision.boardMemberName parsed)
    (Decision.veteranName parsed) (Decision.syncedAt parsed)
    (Decision.lastUpdated parsed) (Decision.indexed parsed)
    (Decision.embeddingGenerated parsed).

(** How the [try] block of one item ends: at its [continue], or at its last
    statement. *)
Inductive Completion : Type := Continue | Normal.

(** The [try] block of one item. *)
Definition sync_one (env : Env) (options : SyncOptions) (summary : BVADecisionSummary)
    : M Completion :=
  existing <- (if default false (skipExisting options)
               then findFirst (citation_number summary)
               else ret None) ;;
  match existing with
  | Some _ =>
      update_result (fun r => set_skipped (S (skipped r)) r) ;;;
      ret Continue
  | None =>
      detail <- getDecision env (citation_number summary) ;;
      parsed <- parseBVADecision env detail ;;
      oc <- (if default true (extractOutcomes options)
             then extractOutcome env detail
             else ret (Val JNull, Val JNull)) ;;
      lastUpdated <- now env ;;
      let values := with_outcome parsed (fst oc) (snd oc) in
      upsert_decision values (DateAt lastUpdated) ;;;
      update_result (fun r => set_synced (S (synced r)) r) ;;;
      modify (fun s => set_decisionsProcessed (S (decisionsProcessed s)) s) ;;;
      ret Normal
  end.

(** The entry pushed by the [catch] of one item. *)
Definition sync_error (summary : BVADecisionSummary) (error : Exn) : SyncError :=
  mkSyncError (id summary) (citation_number summary) (message_or_unknown error).

(** One round of [for (const summary of batch)], past the ceiling check. *)
Definition process_summary (env : Env) (options : SyncOptions)
    (summary : BVADecisionSummary) : M unit :=
  update_result (fun r => set_total (S (total r)) r) ;;;
  c <- try_catch
         (sync_one env options summary)
         (fun error =>
            update_result (fun r => set_errors (errors r ++ [sync_error summary error]) r) ;;;
            ret Normal) ;;
  match c with
  | Continue => ret tt
  | Normal => delay 100
  end.

(** [for (const summary of batch)], with its [break] at the ceiling. *)
Fixpoint for_summaries (env : Env) (options : SyncOptions) (maxDecisions : Z)
    (batch : list BVADecisionSummary) : M unit :=
  match batch with
  | [] => ret tt
  | summary :: rest =>
      s <- get ;;
      if limit_reached maxDecisions s
      then ret tt
      else process_summary env options summary ;;;
           for_summaries env options maxDecisions rest
  end.

(** [for await (const batch of fetchAllDecisions(...))], with its [break]
    after a batch that reached the ceiling. *)
Fixpoint for_await_batches (fuel : nat) (env : Env) (options : SyncOptions)
    (maxDecisions : Z) (params : SearchParams.t) (g : GenState) : M unit :=
  match fuel with
  | 0 => fun s => (OutOfFuel, s)
  | S fuel' =>
      step <- fetchAllDecisions_next fuel env params g ;;
      match step with
      | (None, _) => ret tt
      | (Some batch, g') =>
          for_summaries env options maxDecisions batch ;;;
          s <- get ;;
          if limit_reached maxDecisions s
          then ret tt
          else for_await_batches fuel' env options maxDecisions params g'
      end
  end.

Definition search_params (options : SyncOptions) : SearchParams.t :=
  SearchParams.mk (effective_query options)
    (Some (default AllTypes (decisionType options)))
    (startYear options) (endYear options) (Some DateDesc) None None.

Definition finish (env : Env) : M unit :=
  t <- now env ;;
  update_result (set_end t).

Definition syncDecisions (fuel : nat) (env : Env) (options : SyncOptions) : M SyncResult :=
  startTime <- now env ;;
  modify (fun s => set_decisionsProcessed 0
                     (set_result (mkSyncResult 0 0 0 [] startTime None None) s)) ;;;
  try_catch
    (for_await_batches fuel env options (effective_maxDecisions options)
       (search_params options) GenStart ;;;
     s <- get ;;
     updateSyncMetadata env (result s) ;;;
     finish env ;;;
     s' <- get ;;
     ret (result s'))
    (fun error => finish env ;;; throw error).

(** ** A simulated upstream

    The search service of the testable properties: it holds a fixed list of
    matches and serves the page that [offset] and [limit] ask for (defaults 0
    and 20), with [has_more] set while matches remain past the page. *)

Definition parse_nat (s : string) : option nat :=
  option_map Nat.of_uint (NilEmpty.uint_of_string s).

Fixpoint lookup_param (key : string) (qs : list (string * string)) : option string :=
  match qs with
  | [] => None
  | (k, v) :: rest => if String.eqb k key then Some v else lookup_param key rest
  end.

Definition param_nat (key : string) (dflt : nat) (qs : list (string * string)) : nat :=
  match lookup_param key qs with
  | Some v => default dflt (parse_nat v)
  | None => dflt
  end.

Definition simulated_page (matches : list BVADecisionSummary) (offset limit : nat)
    : SearchResult.t :=
  SearchResult.mk offset limit (offset + limit <? length matches) (length matches)
    (firstn limit (skipn offset matches)).

Definition simulated_search (matches : list BVADecisionSummary)
    (qs : list (string * string)) : FetchOutcome SearchResult.t :=
  Resolved (mkResponse 200%Z "OK"
              (inr (simulated_page matches (param_nat "offset" 0 qs)
                      (param_nat "limit" 20 qs)))).

Definition simulated (matches : list BVADecisionSummary)
    (decision_endpoint : string -> FetchOutcome BVADecisionDetail)
    (chat : GenerateOptions -> string + option string)
    (parse : string -> string + JValue) (clock : nat -> Z) : Env :=
  mkEnv (simulated_search matches) decision_endpoint chat parse clock.

(** ** Vocabulary of the statements *)

(** [for await (const batch of fetchAllDecisions(params)) batches.push(batch)]:
    the consumer that runs the generator to its end. *)
Fixpoint collect_batches (fuel : nat) (env : Env) (params : SearchParams.t) (g : GenState)
    : M (list (list BVADecisionSummary)) :=
  match fuel with
  | 0 => fun s => (OutOfFuel, s)
  | S fuel' =>
      step <- fetchAllDecisions_next fuel env params g ;;
      match step with
      | (None, _) => ret []
      | (Some batch, g') =>
          rest <- collect_batches fuel' env params g' ;;
          ret (batch :: rest)
      end
  end.

(** The number of pages of [n] matches, the [k]-th page of a list of
    matches, and its pages in order. *)
Definition page_count (n : nat) : nat := (n + 99) / 100.

Definition page (matches : list BVADecisionSummary) (k : nat) : list BVADecisionSummary :=
  firstn 100 (skipn (100 * k) matches).

Definition pages (matches : list BVADecisionSummary) : list (list BVADecisionSummary) :=
  List.map (page matches) (seq 0 (page_count (length matches))).

(** The request for the [k]-th page. *)
Definition page_request (params : SearchParams.t) (k : nat) : Event :=
  EvSearch (queryParams (with_page params (100 * k))).

(** The calls of a full iteration over [n] matches: the request at offset
    0, then, for every further page, the 500 ms delay and the request 100
    further. *)
Definition pagination_trace (params : SearchParams.t) (n : nat) : list Event :=
  page_request params 0
  :: flat_map (fun k => [EvDelay 500; page_request params k]) (seq 1 (page_count n - 1)).


(** [{...options, maxDecisions: v}] *)
Definition set_maxDecisions (v : option JsNum) (o : SyncOptions) : SyncOptions :=
  mkSyncOptions (opt_query o) (startYear o) (endYear o) (decisionType o) v
    (skipExisting o) (extractOutcomes o).


(** The state once one more call to the outside world is on the trace. *)
Definition requested (ev : Event) (s : St) : St := set_trace (trace s ++ [ev]) s.

(** The texts of the paragraphs filed under the key [k], in paragraph order,
    and their concatenation, a blank line after each. *)
Definition bucket_texts (k : string) (paras : list Paragraph) : list string :=
  List.map text (List.filter (fun p => String.eqb (sectionName p) k) paras).

Definition blank_line_joined (texts : list string) : string :=
  fold_right (fun t acc => t +:+ (JsString.LF +:+ JsString.LF) +:+ acc) EmptyString texts.

(** The paragraph labels of the section-grouping example. *)
Definition findings_paragraphs : list Paragraph :=
  [mkParagraph (Some "Findings of Fact") "The Veteran served from 1968 to 1970." 0;
   mkParagraph (Some "findings and facts") "Tinnitus began in service." 1;
   mkParagraph (Some "Analysis") "The evidence is in equipoise." 2].

Definition findings_detail : BVADecisionDetail :=
  mkDetail (mkSummary "bva-23-0001" "23-0001" "2023-05-01" AMA [] "https://bva.test/23-0001")
    (Some findings_paragraphs) (Some "FINDINGS OF FACT ...") "23-0001.txt"
    "2023-05-02" "2023-05-03".

(** [s'] differs from [s] in the trace, the clock and the UUID generator at
    most: both tables and the run's bookkeeping are as in [s]. *)
Definition same_data (s s' : St) : Prop :=
  decisions_tbl s' = decisions_tbl s
  /\ sync_metadata_tbl s' = sync_metadata_tbl s
  /\ result s' = result s
  /\ decisionsProcessed s' = decisionsProcessed s.


(** The item is not skipped: [skipExisting] is off or the store has no row of
    its citation number. *)
Definition not_skipped (options : SyncOptions) (summary : BVADecisionSummary) (s : St)
    : bool :=
  negb (default false (skipExisting options)
        && List.existsb (same_citation (citation_number summary)) (decisions_tbl s)).

(** The store lookup of an item, when [skipExisting] asks for one. *)
Definition lookup_events (options : SyncOptions) (c : string) : list Event :=
  if default false (skipExisting options) then [EvFindFirst c] else [].

(** The model call of an item, when [extractOutcomes] is not off. *)
Definition classify_events (options : SyncOptions) (request : GenerateOptions)
    : list Event :=
  if default true (extractOutcomes options) then [EvGenerate request] else [].

(** The bookkeeping after an item that was skipped, failed or synced. *)
Definition result_skipped (r : SyncResult) : SyncResult :=
  set_skipped (S (skipped r)) (set_total (S (total r)) r).
Definition result_failed (entry : SyncError) (r : SyncResult) : SyncResult :=
  set_errors (errors r ++ [entry]) (set_total (S (total r)) r).
Definition result_synced (r : SyncResult) : SyncResult :=
  set_synced (S (synced r)) (set_total (S (total r)) r).

(** The request [extractOutcome] makes for a decision (an empty excerpt
    standing for a missing text, on which no request is made). *)
Definition request_for (detail : BVADecisionDetail) : GenerateOptions :=
  classify_request detail (JsString.slice0 4000 (default "" (raw_text detail))).

(** The calls of an item that reaches the store, up to its write. *)
Definition write_events (options : SyncOptions) (summary : BVADecisionSummary)
    (detail : BVADecisionDetail) : list Event :=
  lookup_events options (citation_number summary)
  ++ [EvGetDecision (citation_number summary)]
  ++ classify_events options (request_for detail)
  ++ [EvUpsertDecision (citation_number detail)].

(** The calls of an item that fails before it reaches the store. *)
Definition fetch_events (options : SyncOptions) (summary : BVADecisionSummary)
    : list Event :=
  lookup_events options (citation_number summary)
  ++ [EvGetDecision (citation_number summary)].

(** [result.total++] *)
Definition counted (s : St) : St :=
  set_result (set_total (S (total (result s))) (result s)) s.

(** The number of detail requests among some calls. *)
Definition detail_requests (evs : list Event) : nat :=
  length (List.filter (fun ev => match ev with EvGetDecision _ => true | _ => false end) evs).


(** The status row written for a run's bookkeeping at the date [d]. *)
Definition status_row (r : SyncResult) (d : Z) : SyncMetadata.t :=
  SyncMetadata.mk "latest" (DateAt d) (synced r) (sync_status r) (errorSummary r).

(** The status table after the write: the row of key [latest] is replaced
    where it stands, or added when there is none. *)
Definition status_written (r : SyncResult) (inserted updated : Z)
    (tbl : list SyncMetadata.t) : list SyncMetadata.t :=
  if List.existsb (same_key "latest") tbl
  then List.map (fun row => if same_key "latest" row then status_row r updated else row) tbl
  else tbl ++ [status_row r inserted].

(** The calls the batch generator makes: page requests and 500 ms delays. *)
Definition paging_event (ev : Event) : bool :=
  match ev with
  | EvSearch _ => true
  | EvDelay 500 => true
  | _ => false
  end.

(** [s'] is [s] with some calls of the generator added to the trace. *)
Definition paged (s s' : St) : Prop :=
  exists evs, s' = set_trace (trace s ++ evs) s /\ forallb paging_event evs = true.

(** The state in which [syncDecisions] enters its loops: the clock read
    once, a new [result] and [decisionsProcessed = 0]. *)
Definition started (env : Env) (s : St) : St :=
  set_decisionsProcessed 0
    (set_result (mkSyncResult 0 0 0 [] (clock env (ticks s)) None None)
       (set_ticks (S (ticks s)) s)).

(** The state once [finish] has set the run's end time. *)
Definition finished (env : Env) (s : St) : St :=
  set_result (set_end (clock env (ticks s)) (result s)) (set_ticks (S (ticks s)) s).

(** What the ceiling [m] keeps true of a run that started in [s0]: the
    synced count is the number of items counted against the ceiling and is at
    most [m]; and once it is [m], the last calls made are the write of the
    [m]-th item and its 100 ms delay. *)
Definition under_ceiling (m : Z) (s0 s : St) : Prop :=
  synced (result s) = decisionsProcessed s
  /\ (Z.of_nat (decisionsProcessed s) <= m)%Z
  /\ exists evs,
       trace s = trace s0 ++ evs
       /\ (Z.of_nat (decisionsProcessed s) = m ->
           exists pre c, evs = pre ++ [EvUpsertDecision c; EvDelay 100]).

(** *** Comparing stores across runs *)

(** A row without what a re-sync refreshes: the generated identifier and the
    two timestamps are blanked. *)
Definition stable (row : Decision.t) : Decision.t :=
  Decision.mk (uuid 0) (Decision.citationNumber row)
    (Decision.bvaApiId row) (Decision.decisionDate row)
    (Decision.decisionType row) (Decision.docketNumbers row)
    (Decision.sourceUrl row) (Decision.filename row)
    (Decision.outcome row) (Decision.outcomeDetails row)
    (Decision.outcomeConfidence row) (Decision.rawText row)
    (Decision.paragraphs row) (Decision.sections row)
    (Decision.extractedData row) (Decision.issues row)
    (Decision.boardMemberName row) (Decision.veteranName row)
    (DateAt 0) (DateAt 0)
    (Decision.indexed row) (Decision.embeddingGenerated row).


Definition overwritten (row w : Decision.t) : Decision.t :=
  stable (updated_row row w (DateAt 0)).

Definition write (w : Decision.t) (v : list Decision.t) : list Decision.t :=
  let c := Decision.citationNumber w in
  if List.existsb (same_citation c) v
  then List.map (fun row => if same_citation c row then overwritten row w else row) v
  else v ++ [stable w].



(** The detail the upstream serves for a citation number, if it serves
    one. *)
Definition served (env : Env) (c : string) : option BVADecisionDetail :=
  match decision_endpoint env c with
  | Resolved r =>
      if ok r then match json r with inr d => Some d | inl _ => None end else None
  | Rejected _ => None
  end.






(** *** Vocabulary of the further properties *)

(** A keyword without white space. *)
Fixpoint solid (p : string) : bool :=
  match p with
  | EmptyString => true
  | String a p' => negb (JsString.is_whitespace a) && solid p'
  end.

(** [sections[k]] when it is a non-empty string, as [if (sections[k])] tests
    it. *)
Definition present (sections : gmap string string) (k : string) : option string :=
  match sections !! k with
  | Some v => if String.eqb v "" then None else Some v
  | None => None
  end.

(** [k] is one of [prioritySections]. *)
Definition is_priority (k : string) : bool := List.existsb (String.eqb k) prioritySections.

(** What the upstream answers to the request for page [k] of a query, when
    it answers with a success and a JSON body. *)
Definition page_response (env : Env) (params : SearchParams.t) (k : nat)
    : option SearchResult.t :=
  match search_endpoint env (queryParams (with_page params (100 * k))) with
  | Resolved r => if ok r then match json r with inr res => Some res | inl _ => None end
                  else None
  | Rejected _ => None
  end.

(** The calls for [n] further pages from page [k] on: before each request,
    the 500 ms delay. *)
Definition further_requests (params : SearchParams.t) (k n : nat) : list Event :=
  flat_map (fun j => [EvDelay 500; page_request params j]) (seq k n).

(** The batches that are not empty. *)
Definition non_empty (batches : list (list BVADecisionSummary))
    : list (list BVADecisionSummary) :=
  List.filter (fun batch => match batch with [] => false | _ :: _ => true end) batches.

(** The number of calls of a kind among some calls, and the kinds of call an
    item can make. *)
Definition calls (kind : Event -> bool) (evs : list Event) : nat :=
  length (List.filter kind evs).

Definition is_lookup (ev : Event) : bool :=
  match ev with EvFindFirst _ => true | _ => false end.
Definition is_detail_request (ev : Event) : bool :=
  match ev with EvGetDecision _ => true | _ => false end.
Definition is_model_call (ev : Event) : bool :=
  match ev with EvGenerate _ => true | _ => false end.
Definition is_store_write (ev : Event) : bool :=
  match ev with EvUpsertDecision _ => true | _ => false end.
Definition is_item_delay (ev : Event) : bool :=
  match ev with EvDelay 100 => true | _ => false end.

(** What the calls of a run, [evs], have to do with its bookkeeping: every
    item counted in [total] is synced, skipped or failed; the items that are
    not skipped made one detail request each and were followed by one
    100 ms delay; the synced ones, and some of the failed, reached the
    store; no model call was made for an item that did not reach it, and
    none at all when [extractOutcomes] is off; a lookup was made for every
    item when [skipExisting] is on, and none when it is off. *)
Definition accounted (options : SyncOptions) (evs : list Event) (s : St) : Prop :=
  let r := result s in
  total r = synced r + skipped r + length (errors r)
  /\ synced r = decisionsProcessed s
  /\ calls is_detail_request evs = synced r + length (errors r)
  /\ calls is_item_delay evs = synced r + length (errors r)
  /\ synced r <= calls is_store_write evs <= synced r + length (errors r)
  /\ calls is_model_call evs
     = (if default true (extractOutcomes options) then calls is_store_write evs else 0)
  /\ calls is_lookup evs = (if default false (skipExisting options) then total r else 0).



(** The store holds a record of the citation number of [summary]. *)
Definition is_stored (s : St) (summary : BVADecisionSummary) : bool :=
  List.existsb (same_citation (citation_number summary)) (decisions_tbl s).

(** The first code unit encoded at the head of a string, and the rest. *)
Definition hex_value (c : ascii) : nat :=
  let n := nat_of_ascii c in
  if n <? 58 then n - 48 else n - 55.

Definition decode_head (s : string) : option (ascii * string) :=
  match s with
  | EmptyString => None
  | String c rest =>
      if Ascii.eqb c JsUri.percent
      then match rest with
           | String h1 (String h2 rest1) =>
               let b := 16 * hex_value h1 + hex_value h2 in
               if b <? 128 then Some (ascii_of_nat b, rest1)
               else match rest1 with
                    | String _ (String h3 (String h4 rest2)) =>
                        let b' := 16 * hex_value h3 + hex_value h4 in
                        Some (ascii_of_nat ((b - 192) * 64 + (b' - 128)), rest2)
                    | _ => None
                    end
           | _ => None
           end
      else Some (c, rest)
  end.

(** The characters of a string. *)
Fixpoint units (s : string) : list ascii :=
  match s with
  | EmptyString => []
  | String c r => c :: units r
  end.

(** The text of a stream: the contents of its chunks, up to its end or to
    the point where it throws. *)
Fixpoint stream_text (stream : ChunkStream) : string :=
  match stream with
  | StreamChunk delta rest => default "" delta +:+ stream_text rest
  | _ => EmptyString
  end.

(** The error with which a stream ends, if it ends with one. *)
Fixpoint stream_error (stream : ChunkStream) : option Exn :=
  match stream with
  | StreamEnd => None
  | StreamThrows error => Some error
  | StreamChunk _ rest => stream_error rest
  end.

(** The citation number with which an item starts, if the call is the first
    of an item: its lookup when [skipExisting] is on, its detail request
    otherwise. *)
Definition item_start (options : SyncOptions) (ev : Event) : option string :=
  match ev with
  | EvFindFirst c => if default false (skipExisting options) then Some c else None
  | EvGetDecision c => if default false (skipExisting options) then None else Some c
  | _ => None
  end.

(** The items started among some calls, in order. *)
Definition items_started (options : SyncOptions) (evs : list Event) : list string :=
  omap (item_start options) evs.

(** A path segment that a URL parser takes for the current or the parent
    directory and removes: one or two dots, each written as a dot or as its
    percent-escape in either case. *)
Definition is_dot_segment (segment : string) : bool :=
  List.existsb (String.eqb (JsString.toLowerCase segment))
    ["."; "%2e"; ".."; ".%2e"; "%2e."; "%2e%2e"].

(** The whole seconds of a time in milliseconds: what a column declared
    [integer(..., { mode: 'timestamp' })] keeps of a date. *)
Definition whole_seconds (ms : Z) : Z := (ms / 1000)%Z.

(** What the column [last_sync_date] keeps of the date handed to it: the
    tables of the model hold the values as the code hands them over, and
    a column in mode [timestamp] stores [Math.floor(date.getTime() / 1000)]. *)
Definition stored_seconds (d : JsDate) : option Z :=
  match d with
  | DateAt ms => Some (whole_seconds ms)
  | DateOf _ => None
  end.

(** A small world for the examples: an upstream of well-formed decisions,
    a model that answers with a JSON object, a clock that ticks once per
    reading. *)
Module Demo.

Definition summary_of (c : string) : BVADecisionSummary :=
  mkSummary ("bva-" +:+ c) c "2023-05-01" AMA ["19-12 345"] ("https://bva.test/" +:+ c).

Definition detail_of (c : string) : BVADecisionDetail :=
  mkDetail (summary_of c)
    (Some [mkParagraph (Some "Order") "Service connection is granted." 0;
           mkParagraph None "The appeal is allowed." 1])
    (Some "ORDER Service connection is granted.")
    (c +:+ ".txt") "2023-05-02" "2023-05-03".

Definition found (d : BVADecisionDetail) : FetchOutcome BVADecisionDetail :=
  Resolved (mkResponse 200%Z "OK" (inr d)).

Definition serve_all (c : string) : FetchOutcome BVADecisionDetail :=
  found (detail_of c).

Definition quoted (s : string) : string :=
String (ascii_of_nat 34) EmptyString +:+ s +:+ String (ascii_of_nat 34) EmptyString.

Definition granted_json : string :=
"{" +:+ quoted "outcome" +:+ ": " +:+ quoted "Granted" +:+ ", "
+:+ quoted "confidence" +:+ ": 0.9, "
+:+ quoted "reasoning" +:+ ": " +:+ quoted "The order grants service connection." +:+ "}".

Definition granted : JValue :=
  JObj [("outcome", JStr "Granted"); ("confidence", JNum (9 # 10));
        ("reasoning", JStr "The order grants service connection.")].

Definition chat_granted (_ : GenerateOptions) : string + option string :=
  inr (Some granted_json).

Definition parse_granted (text : string) : string + JValue :=
  if String.eqb text granted_json then inr granted
  else inl "Unexpected token in JSON".

Definition ticking (n : nat) : Z := (1700000000000 + Z.of_nat n)%Z.

Definition world (matches : list string) : Env :=
  simulated (List.map summary_of matches) serve_all chat_granted parse_granted ticking.

(** An upstream whose detail endpoint answers every request with the given
    outcome. *)
Definition world_answering (o : FetchOutcome BVADecisionDetail) : Env :=
simulated [summary_of "23-0001"] (fun _ => o) chat_granted parse_granted ticking.

(** A model that answers with the empty object, and one that answers in
    prose. *)
Definition chat_empty_object (_ : GenerateOptions) : string + option string :=
inr (Some "{}").

Definition parse_empty_object (text : string) : string + JValue :=
if String.eqb text "{}" then inr (JObj []) else inl "Unexpected token in JSON".

Definition world_empty_object : Env :=
simulated [summary_of "23-0001"] serve_all chat_empty_object parse_empty_object ticking.

Definition chat_prose (_ : GenerateOptions) : string + option string :=
inr (Some "The appeal was granted.").

Definition world_prose : Env :=
simulated [summary_of "23-0001"] serve_all chat_prose parse_granted ticking.

(** An upstream that answers the detail request of one citation number in
    its own way. *)
Definition serve (special : string) (o : FetchOutcome BVADecisionDetail) (c : string)
  : FetchOutcome BVADecisionDetail :=
if String.eqb c special then o else found (detail_of c).

Definition world_with (matches : list string)
  (endpoint : string -> FetchOutcome BVADecisionDetail) : Env :=
simulated (List.map summary_of matches) endpoint chat_granted parse_granted ticking.

(** Malformed bodies: no paragraphs, no text; and a decision that carries
    the external identifier of another one. *)
Definition no_paragraphs (c : string) : BVADecisionDetail :=
mkDetail (summary_of c) None (Some "ORDER Service connection is granted.")
  (c +:+ ".txt") "2023-05-02" "2023-05-03".

Definition no_text (c : string) : BVADecisionDetail :=
mkDetail (summary_of c) (Some [mkParagraph None "The appeal is allowed." 0]) None
  (c +:+ ".txt") "2023-05-02" "2023-05-03".

Definition with_id_of (other c : string) : BVADecisionDetail :=
mkDetail (mkSummary ("bva-" +:+ other) c "2023-05-01" AMA [] ("https://bva.test/" +:+ c))
  (Some [mkParagraph None "The appeal is allowed." 0])
  (Some "ORDER Service connection is granted.")
  (c +:+ ".txt") "2023-05-02" "2023-05-03".

Definition empty_result : SyncResult := mkSyncResult 0 0 0 [] 0%Z None None.

Definition fresh : St := mkSt [] [] 0 0 [] empty_result 0.

Definition no_options : SyncOptions :=
  mkSyncOptions None None None None None None None.

(** [n] matches, numbered from 0. *)
Definition many (n : nat) : list BVADecisionSummary :=
List.map (fun k => summary_of (JsString.of_nat k)) (seq 0 n).

Definition upstream_of (n : nat) : Env :=
simulated (many n) serve_all chat_granted parse_granted ticking.

Definition skipping : SyncOptions :=
mkSyncOptions None None None None None (Some true) None.

(** The state left by a first run that stored decision 23-0001. *)
Definition stored : St :=
Eval vm_compute in snd (syncDecisions 3 (world ["23-0001"]) no_options fresh).

(** The record parsed from the decision of the section-grouping example,
    and the state the parser leaves. *)
Definition parsed_findings : Decision.t :=
parsed_row findings_detail findings_paragraphs (uuid 0) (ticking 0).

Definition after_parse : St := mkSt [] [] 1 1 [] empty_result 0.

(** An upstream with an empty page in the middle: one match on page 0, none
    on page 1 and one on page 2, the last. *)
Definition gappy_page (k : nat) : SearchResult.t :=
match k with
| 0 => SearchResult.mk 0 100 true 2 [summary_of "23-0001"]
| 1 => SearchResult.mk 100 100 true 2 []
| 2 => SearchResult.mk 200 100 false 2 [summary_of "23-0002"]
| _ => SearchResult.mk (100 * k) 100 false 2 []
end.

Definition gappy : Env :=
mkEnv (fun qs => Resolved (mkResponse 200%Z "OK"
                             (inr (gappy_page (param_nat "offset" 0 qs / 100)))))
  serve_all chat_granted parse_granted ticking.

(** An upstream that reports more matches on every page. *)
Definition endless : Env :=
mkEnv (fun _ => Resolved (mkResponse 200%Z "OK"
                            (inr (SearchResult.mk 0 100 true 1 [summary_of "23-0001"]))))
  serve_all chat_granted parse_granted ticking.

Definition not_extracting : SyncOptions :=
mkSyncOptions None None None None None None (Some false).

(** A search service that cannot be reached. *)
Definition unreachable : Env :=
mkEnv (fun _ => Rejected "fetch failed") serve_all chat_granted parse_granted ticking.

(** A model that names an outcome and no confidence. *)
Definition outcome_only_json : string :=
"{" +:+ quoted "outcome" +:+ ": " +:+ quoted "Denied" +:+ "}".

Definition world_outcome_only : Env :=
simulated [summary_of "23-0001"] serve_all
  (fun _ => inr (Some outcome_only_json))
  (fun text => if String.eqb text outcome_only_json
               then inr (JObj [("outcome", JStr "Denied")])
               else inl "Unexpected token in JSON")
  ticking.

(** A decision with paragraphs under an ordinary label, under no label,
    under the name of a method of [Object.prototype] and under
    [__proto__]. *)
Definition odd_paragraphs : list Paragraph :=
[mkParagraph (Some "Order") "Service connection is granted." 0;
 mkParagraph None "The appeal is allowed." 1;
 mkParagraph (Some "constructor") "T" 2;
 mkParagraph (Some "__proto__") "U" 3;
 mkParagraph (Some "Order") "The claim is allowed." 4].

Definition odd_labels : BVADecisionDetail :=
mkDetail (summary_of "23-0009") (Some odd_paragraphs)
  (Some "ORDER Service connection is granted.") "23-0009.txt" "2023-05-02" "2023-05-03".

Definition parsed_odd_labels : Decision.t :=
parsed_row odd_labels odd_paragraphs (uuid 0) (ticking 0).

(** A clock that advances by 400 ms from one reading to the next. *)
Definition slow (n : nat) : Z := (1700000000000 + 400 * Z.of_nat n)%Z.

Definition slow_world : Env :=
simulated [summary_of "23-0001"] serve_all chat_granted parse_granted slow.

End Demo.

(** * Properties *)

(** ** Reasoning in the monad *)

Ltac munfold :=
  unfold delay, update_result, fetch, response_json, lift, JSON_parse_M, now,
    randomUUID in *;
  unfold emit in *;
  unfold bind, ret, throw, try_catch, modify, get in *.

Ltac st_simpl :=
  unfold requested, set_decisions_tbl, set_sync_metadata_tbl, set_ticks, set_uuids,
    set_trace, set_result, set_decisionsProcessed in *;
  cbn [decisions_tbl sync_metadata_tbl ticks uuids trace result decisionsProcessed] in *.

(** ** The ceiling's default (C10) *)






Example maxDecisions_zero_syncs_all :
  synced (result (snd (syncDecisions 3 (Demo.world ["23-0001"; "23-0002"; "23-0003"])
                         (set_maxDecisions (Some (JsInt 0)) Demo.no_options) Demo.fresh)))
  = 3.
Proof. vm_compute. reflexivity. Qed.

(** ** Error conditions of the fetch client (C8) *)

Lemma searchDecisions_rejected env params s m :
  search_endpoint env (queryParams params) = Rejected m ->
  searchDecisions env params s
  = (Throw (BVAApiError ("Network error: " +:+ m) 0),
     requested (EvSearch (queryParams params)) s).
Proof.
  intros H. unfold searchDecisions. munfold. rewrite H. reflexivity.
Qed.

Lemma searchDecisions_not_ok env params s r :
  search_endpoint env (queryParams params) = Resolved r ->
  ok r = false ->
  searchDecisions env params s
  = (Throw (BVAApiError ("API error: " +:+ statusText r) (status r)),
     requested (EvSearch (queryParams params)) s).
Proof.
  intros H Hok. unfold searchDecisions. munfold. rewrite H. simpl.
  rewrite Hok. reflexivity.
Qed.

Lemma getDecision_rejected env c s m :
  decision_endpoint env c = Rejected m ->
  getDecision env c s
  = (Throw (BVAApiError ("Network error: " +:+ m) 0), requested (EvGetDecision c) s).
Proof.
  intros H. unfold getDecision. munfold. rewrite H. reflexivity.
Qed.

Lemma not_ok_404 {A} (r : Response A) : status r = 404%Z -> ok r = false.
Proof. intros H. unfold ok. rewrite H. reflexivity. Qed.

Lemma getDecision_404 env c s r :
  decision_endpoint env c = Resolved r ->
  status r = 404%Z ->
  getDecision env c s
  = (Throw (BVAApiError ("Decision not found: " +:+ c) 404), requested (EvGetDecision c) s).
Proof.
  intros H H404. unfold getDecision. munfold. rewrite H. simpl.
  rewrite (not_ok_404 r H404). simpl. rewrite H404. reflexivity.
Qed.

Lemma getDecision_not_ok env c s r :
  decision_endpoint env c = Resolved r ->
  ok r = false ->
  status r <> 404%Z ->
  getDecision env c s
  = (Throw (BVAApiError ("API error: " +:+ statusText r) (status r)),
     requested (EvGetDecision c) s).
Proof.
  intros H Hok Hne. unfold getDecision. munfold. rewrite H. simpl.
  rewrite Hok. simpl.
  destruct (Z.eqb_spec (status r) 404) as [E|_]; [contradiction|reflexivity].
Qed.

(** C8. What the fetch client raises, after the one request it makes: when
    the service cannot be reached, a [BVAApiError] of status 0 (from the
    search and from the detail request alike); from [getDecision] on a 404
    response, a [BVAApiError] of status 404 whose message says the decision
    was not found; on any other response that is not a success, a
    [BVAApiError] carrying the response's status. *)
Theorem client_error_conditions :
  forall env params c s,
    (forall m, search_endpoint env (queryParams params) = Rejected m ->
       searchDecisions env params s
       = (Throw (BVAApiError ("Network error: " +:+ m) 0),
          requested (EvSearch (queryParams params)) s))
    /\ (forall m, decision_endpoint env c = Rejected m ->
          getDecision env c s
          = (Throw (BVAApiError ("Network error: " +:+ m) 0),
             requested (EvGetDecision c) s))
    /\ (forall r, decision_endpoint env c = Resolved r -> status r = 404%Z ->
          getDecision env c s
          = (Throw (BVAApiError ("Decision not found: " +:+ c) 404),
             requested (EvGetDecision c) s))
    /\ (forall r, decision_endpoint env c = Resolved r ->
          ok r = false -> status r <> 404%Z ->
          getDecision env c s
          = (Throw (BVAApiError ("API error: " +:+ statusText r) (status r)),
             requested (EvGetDecision c) s))
    /\ (forall r, search_endpoint env (queryParams params) = Resolved r ->
          ok r = false ->
          searchDecisions env params s
          = (Throw (BVAApiError ("API error: " +:+ statusText r) (status r)),
             requested (EvSearch (queryParams params)) s)).
Proof.
  intros env params c s. repeat split.
  - intros m. apply searchDecisions_rejected.
  - intros m. apply getDecision_rejected.
  - intros r. apply getDecision_404.
  - intros r. apply getDecision_not_ok.
  - intros r. apply searchDecisions_not_ok.
Qed.

(** The three conditions of [getDecision] on concrete answers: no answer, a
    404 and a 503. *)
Lemma client_error_conditions_witness :
  getDecision (Demo.world_answering (Rejected "fetch failed")) "23-0001" Demo.fresh
  = (Throw (BVAApiError "Network error: fetch failed" 0),
     requested (EvGetDecision "23-0001") Demo.fresh)
  /\ getDecision (Demo.world_answering (Resolved (mkResponse 404%Z "Not Found" (inl "no body"))))
       "23-0001" Demo.fresh
     = (Throw (BVAApiError "Decision not found: 23-0001" 404),
        requested (EvGetDecision "23-0001") Demo.fresh)
  /\ getDecision
       (Demo.world_answering (Resolved (mkResponse 503%Z "Service Unavailable" (inl "no body"))))
       "23-0001" Demo.fresh
     = (Throw (BVAApiError "API error: Service Unavailable" 503),
        requested (EvGetDecision "23-0001") Demo.fresh).
Proof.
  pose proof (client_error_conditions
                (Demo.world_answering (Rejected "fetch failed"))
                (search_params Demo.no_options) "23-0001" Demo.fresh) as (_ & H0 & _).
  pose proof (client_error_conditions
                (Demo.world_answering (Resolved (mkResponse 404%Z "Not Found" (inl "no body"))))
                (search_params Demo.no_options) "23-0001" Demo.fresh) as (_ & _ & H404 & _).
  pose proof (client_error_conditions
                (Demo.world_answering
                   (Resolved (mkResponse 503%Z "Service Unavailable" (inl "no body"))))
                (search_params Demo.no_options) "23-0001" Demo.fresh) as (_ & _ & _ & H503 & _).
  split; [|split].
  - apply (H0 "fetch failed"). reflexivity.
  - apply (H404 (mkResponse 404%Z "Not Found" (inl "no body"))); reflexivity.
  - apply (H503 (mkResponse 503%Z "Service Unavailable" (inl "no body")));
      [reflexivity | reflexivity | discriminate].
Defined.

(** ** Section grouping (C3) *)

Lemma append_empty_r (a : string) : a +:+ "" = a.
Proof. induction a as [|c a IH]; [reflexivity|]. cbv [String.append]. fold String.append. now rewrite IH. Qed.

Lemma append_assoc (a b c : string) : (a +:+ b) +:+ c = a +:+ (b +:+ c).
Proof.
  induction a as [|x a IH]; [reflexivity|].
  cbv [String.append]. fold String.append. now rewrite IH.
Qed.

Lemma bucket_texts_cons k p ps :
  bucket_texts k (p :: ps)
  = if String.eqb (sectionName p) k then text p :: bucket_texts k ps
    else bucket_texts k ps.
Proof. unfold bucket_texts. simpl. now destruct (String.eqb (sectionName p) k). Qed.

Lemma fold_add_paragraph_lookup (paras : list Paragraph) :
  forall (acc : gmap string string) (k : string),
    fold_left add_paragraph paras acc !! k
    = if String.eqb k "__proto__" then acc !! k
      else match bucket_texts k paras with
           | [] => acc !! k
           | ts => Some (match acc !! k with
                         | Some own => own
                         | None => default "" (inherited k)
                         end +:+ blank_line_joined ts)
           end.
Proof.
  induction paras as [|p ps IH]; intros acc k.
  - cbn. now destruct (String.eqb k "__proto__").
  - simpl fold_left. rewrite IH, bucket_texts_cons. unfold add_paragraph.
    destruct (String.eqb_spec k "__proto__") as [Hk|Hk].
    + destruct (String.eqb_spec (sectionName p) "__proto__") as [Hp|Hp]; [reflexivity|].
      rewrite lookup_insert_ne by congruence. reflexivity.
    + destruct (String.eqb_spec (sectionName p) k) as [->|Hne].
      * destruct (String.eqb_spec k "__proto__") as [|_]; [contradiction|].
        rewrite lookup_insert_eq.
        destruct (bucket_texts k ps) as [|t ts].
        -- simpl. now rewrite append_empty_r.
        -- f_equal. rewrite !append_assoc. reflexivity.
      * destruct (String.eqb (sectionName p) "__proto__"); [reflexivity|].
        now rewrite lookup_insert_ne.
Qed.

(** What holds of the grouping as [parseBVADecision] does it: the bucket of
    a key is made of the paragraphs whose own label ([content] when they have
    none) is that key, their texts in paragraph order, a blank line after
    each, the whole trimmed - after the text of the method when the key names
    a method of [Object.prototype], and with no bucket at all under
    [__proto__]. *)
Lemma group_sections_lookup (paras : list Paragraph) (k : string) :
  group_sections paras !! k
  = if String.eqb k "__proto__" then None
    else match bucket_texts k paras with
         | [] => None
         | ts => Some (JsString.trim (default "" (inherited k) +:+ blank_line_joined ts))
         end.
Proof.
  unfold group_sections. rewrite lookup_fmap, fold_add_paragraph_lookup.
  rewrite lookup_empty. destruct (String.eqb k "__proto__"); [reflexivity|].
  now destruct (bucket_texts k paras).
Qed.

Lemma unlabelled_is_content (p : Paragraph) :
  section p = None -> sectionName p = "content".
Proof. unfold sectionName. now intros ->. Qed.

(** C3, on the labels of the example. [normalizeSectionName] sends both
    findings labels to [findings_of_fact], but [parseBVADecision] never
    calls it: the record it builds files each paragraph under its label as
    written, so the two findings paragraphs sit in two buckets and no
    [findings_of_fact] bucket exists - which [extractKeySections], looking for
    that key, cannot find either. *)
Theorem findings_labels_are_not_merged :
  forall env s,
    exists row s',
      parseBVADecision env findings_detail s = (Ok row, s')
      /\ normalizeSectionName "Findings of Fact" = "findings_of_fact"
      /\ normalizeSectionName "findings and facts" = "findings_of_fact"
      /\ Decision.sections row !! "findings_of_fact" = None
      /\ Decision.sections row !! "Findings of Fact"
         = Some "The Veteran served from 1968 to 1970."
      /\ Decision.sections row !! "findings and facts" = Some "Tinnitus began in service."
      /\ Decision.sections row !! "Analysis" = Some "The evidence is in equipoise."
      /\ extractKeySections (Decision.sections row) !! "findings_of_fact" = None.
Proof.
  intros env s. unfold parseBVADecision, findings_detail. cbn [paragraphs].
  munfold. eexists _, _. split; [reflexivity|].
  cbn [Decision.sections].
  repeat split; vm_compute; reflexivity.
Qed.

(** ** The stages of one item *)

Lemma findFirst_run c s :
  findFirst c s
  = (Ok (List.find (same_citation c) (decisions_tbl s)), requested (EvFindFirst c) s).
Proof. reflexivity. Qed.

(** [getDecision] makes one request; what it returns or throws depends on
    the endpoint alone. *)
Lemma getDecision_run env c :
  exists o, o <> OutOfFuel
            /\ forall s, getDecision env c s = (o, requested (EvGetDecision c) s).
Proof.
  unfold getDecision. munfold.
  destruct (decision_endpoint env c) as [m|r] eqn:E.
  - eexists. split; [|intros s; reflexivity]. discriminate.
  - simpl. destruct (ok r); simpl.
    + destruct (json r) as [m'|d]; eexists; (split; [|intros s; reflexivity]); discriminate.
    + destruct (status r =? 404)%Z; eexists; (split; [|intros s; reflexivity]); discriminate.
Qed.


Lemma parseBVADecision_run env detail s :
  parseBVADecision env detail s
  = match paragraphs detail with
    | None => (Throw (JsError "apiDecision.paragraphs is not iterable"), s)
    | Some paras =>
        (Ok (parsed_row detail paras (uuid (uuids s)) (clock env (ticks s))),
         set_ticks (S (ticks s)) (set_uuids (S (uuids s)) s))
    end.
Proof. unfold parseBVADecision. destruct (paragraphs detail); reflexivity. Qed.

(** [extractOutcome] on a decision that has a text: it never throws, and
    what it returns depends on the model's reply alone. *)
Lemma extractOutcome_run env detail raw :
  raw_text detail = Some raw ->
  exists oc, forall s,
    extractOutcome env detail s
    = (Ok oc, requested (EvGenerate (classify_request detail (JsString.slice0 4000 raw))) s).
Proof.
  intros Hraw. unfold extractOutcome, generate. rewrite Hraw. munfold.
  destruct (chat_completions_create env _) as [m|content].
  - eexists. intros s. reflexivity.
  - destruct (JSON_parse env (default "" content)) as [m|v].
    + eexists. intros s. reflexivity.
    + destruct (get_prop v "outcome") as [e|o].
      * eexists. intros s. reflexivity.
      * destruct (get_prop v "confidence") as [e|cf]; eexists; intros s; reflexivity.
Qed.

Lemma extractOutcome_no_text env detail s :
  raw_text detail = None ->
  extractOutcome env detail s
  = (Throw (JsError "Cannot read properties of undefined (reading 'slice')"), s).
Proof. intros H. unfold extractOutcome. rewrite H. reflexivity. Qed.


Lemma upsert_decision_run values lastUpdated s :
  upsert_decision values lastUpdated s
  = match constraint_failure values (decisions_tbl s) with
    | Some m => (Throw (JsError m), requested (EvUpsertDecision (Decision.citationNumber values)) s)
    | None =>
        (Ok tt,
         set_decisions_tbl (upserted values lastUpdated (decisions_tbl s))
           (requested (EvUpsertDecision (Decision.citationNumber values)) s))
    end.
Proof.
  unfold upsert_decision. munfold. simpl.
  destruct (constraint_failure values (decisions_tbl s)); reflexivity.
Qed.
Lemma find_existsb {A} (f : A -> bool) (l : list A) :
  List.existsb f l = false -> List.find f l = None.
Proof.
  induction l as [|x l IH]; simpl; [reflexivity|].
  destruct (f x); simpl; [discriminate|exact IH].
Qed.

Lemma existsb_find {A} (f : A -> bool) (l : list A) :
  List.existsb f l = true -> exists x, List.find f l = Some x /\ f x = true.
Proof.
  induction l as [|x l IH]; simpl; [discriminate|].
  destruct (f x) eqn:E; simpl; [intros _; eauto|exact IH].
Qed.

Lemma process_summary_skipped env options summary s :
  default false (skipExisting options) = true ->
  List.existsb (same_citation (citation_number summary)) (decisions_tbl s) = true ->
  process_summary env options summary s
  = (Ok tt, set_result (result_skipped (result s))
              (requested (EvFindFirst (citation_number summary)) s)).
Proof.
  intros Hskip Hex. unfold process_summary, sync_one. rewrite Hskip.
  munfold. unfold findFirst. munfold. simpl.
  destruct (existsb_find _ _ Hex) as [row [Hfind _]]. rewrite Hfind.
  reflexivity.
Qed.

(** The lookup of an item that is not skipped finds nothing. *)
Lemma lookup_not_skipped options summary s :
  not_skipped options summary s = true ->
  (if default false (skipExisting options)
   then findFirst (citation_number summary)
   else ret None) s
  = (Ok None, set_trace (trace s ++ lookup_events options (citation_number summary)) s).
Proof.
  unfold not_skipped, lookup_events. intros H.
  destruct (default false (skipExisting options)); simpl in *.
  - rewrite findFirst_run. apply negb_true_iff in H.
    rewrite (find_existsb _ _ H). reflexivity.
  - unfold ret. rewrite app_nil_r. now destruct s.
Qed.

Lemma not_skipped_or_skipped options summary s :
  not_skipped options summary s = true
  \/ (default false (skipExisting options) = true
      /\ List.existsb (same_citation (citation_number summary)) (decisions_tbl s) = true).
Proof.
  unfold not_skipped.
  destruct (default false (skipExisting options)); simpl; [|now left].
  destruct (List.existsb _ _); simpl; [right|left]; auto.
Qed.

Lemma not_skipped_counted options summary s r :
  not_skipped options summary (set_result r s) = not_skipped options summary s.
Proof. reflexivity. Qed.

(** The request an item makes to the model, if it makes one. *)
Lemma classify_step env options detail :
  (default true (extractOutcomes options) = true /\ raw_text detail = None
   /\ forall s, (if default true (extractOutcomes options)
                 then extractOutcome env detail
                 else ret (Val JNull, Val JNull)) s
                = (Throw (JsError "Cannot read properties of undefined (reading 'slice')"), s))
  \/ (exists oc, forall s,
        (if default true (extractOutcomes options)
         then extractOutcome env detail
         else ret (Val JNull, Val JNull)) s
        = (Ok oc,
           set_trace
             (trace s ++ classify_events options
                           (classify_request detail
                              (JsString.slice0 4000 (default "" (raw_text detail))))) s)).
Proof.
  unfold classify_events.
  destruct (default true (extractOutcomes options)).
  - destruct (raw_text detail) as [raw|] eqn:Hraw.
    + right. destruct (extractOutcome_run env detail raw Hraw) as [oc Hoc].
      exists oc. intros s. rewrite Hoc. reflexivity.
    + left. split; [reflexivity|]. split; [reflexivity|].
      intros s. now apply extractOutcome_no_text.
  - right. eexists. intros s. unfold ret. rewrite app_nil_r. now destruct s.
Qed.

(** The start of an item that is not skipped: the lookup, if any, and the
    detail request. *)
Lemma sync_one_start env options summary s o (k : BVADecisionDetail -> M Completion) :
  not_skipped options summary s = true ->
  (forall s0, getDecision env (citation_number summary) s0
              = (o, requested (EvGetDecision (citation_number summary)) s0)) ->
  (existing <- (if default false (skipExisting options)
                then findFirst (citation_number summary)
                else ret None) ;;
   match existing with
   | Some _ => update_result (fun r => set_skipped (S (skipped r)) r) ;;; ret Continue
   | None => detail <- getDecision env (citation_number summary) ;; k detail
   end) s
  = match o with
    | Ok detail => k detail (set_trace (trace s ++ fetch_events options summary) s)
    | Throw e => (Throw e, set_trace (trace s ++ fetch_events options summary) s)
    | OutOfFuel => (OutOfFuel, set_trace (trace s ++ fetch_events options summary) s)
    end.
Proof.
  intros Hns Hget. unfold bind at 1. rewrite lookup_not_skipped by exact Hns.
  cbv beta iota. unfold bind at 1. rewrite Hget.
  unfold fetch_events, requested. cbn [trace set_trace].
  rewrite <- app_assoc.
  destruct o; reflexivity.
Qed.

(** An item whose detail is fetched, parsed and classified reaches the
    store: the write is refused or made. *)
Lemma sync_one_reaches_store env options summary s detail paras oc :
  not_skipped options summary s = true ->
  (forall s0, getDecision env (citation_number summary) s0
              = (Ok detail, requested (EvGetDecision (citation_number summary)) s0)) ->
  paragraphs detail = Some paras ->
  (forall s0, (if default true (extractOutcomes options)
               then extractOutcome env detail
               else ret (Val JNull, Val JNull)) s0
              = (Ok oc, set_trace (trace s0 ++ classify_events options (request_for detail)) s0)) ->
  sync_one env options summary s
  = let values :=
      with_outcome (parsed_row detail paras (uuid (uuids s)) (clock env (ticks s)))
        oc.1 oc.2 in
    match constraint_failure values (decisions_tbl s) with
    | Some m =>
        (Throw (JsError m),
         mkSt (decisions_tbl s) (sync_metadata_tbl s) (S (S (ticks s))) (S (uuids s))
           (trace s ++ write_events options summary detail)
           (result s) (decisionsProcessed s))
    | None =>
        (Ok Normal,
         mkSt (upserted values (DateAt (clock env (S (ticks s)))) (decisions_tbl s))
           (sync_metadata_tbl s) (S (S (ticks s))) (S (uuids s))
           (trace s ++ write_events options summary detail)
           (set_synced (S (synced (result s))) (result s))
           (S (decisionsProcessed s)))
    end.
Proof.
  intros Hns Hget Hparas Hoc.
  unfold sync_one. rewrite (sync_one_start env options summary s (Ok detail)) by assumption.
  unfold bind at 1. rewrite parseBVADecision_run, Hparas. cbv beta iota.
  unfold bind at 1. rewrite Hoc. cbv beta iota.
  unfold bind at 1. unfold now at 1. cbv beta iota.
  unfold bind at 1. rewrite upsert_decision_run.
  st_simpl. cbv zeta.
  destruct (constraint_failure _ (decisions_tbl s)) as [m|] eqn:Hc.
  - unfold write_events, fetch_events, request_for.
    rewrite <- !app_assoc. reflexivity.
  - unfold update_result, modify, bind, ret. st_simpl.
    unfold write_events, fetch_events, request_for. rewrite <- !app_assoc. reflexivity.
Qed.

(** One item that is not skipped, from the lookup to the store: it fails
    before the store (at the request, in the parser or before the model
    call), or it reaches the store with a row built from the detail it
    fetched. *)
Lemma sync_one_not_skipped env options summary s :
  not_skipped options summary s = true ->
  (exists e t u,
      sync_one env options summary s
      = (Throw e,
         mkSt (decisions_tbl s) (sync_metadata_tbl s) t u
           (trace s ++ fetch_events options summary)
           (result s) (decisionsProcessed s)))
  \/ (exists detail paras oc,
        (forall s0, getDecision env (citation_number summary) s0
                    = (Ok detail, requested (EvGetDecision (citation_number summary)) s0))
        /\ paragraphs detail = Some paras
        /\ (forall s0, (if default true (extractOutcomes options)
                        then extractOutcome env detail
                        else ret (Val JNull, Val JNull)) s0
                       = (Ok oc, set_trace
                                   (trace s0 ++ classify_events options (request_for detail)) s0))
        /\ sync_one env options summary s
           = let values :=
               with_outcome (parsed_row detail paras (uuid (uuids s)) (clock env (ticks s)))
                 oc.1 oc.2 in
             match constraint_failure values (decisions_tbl s) with
             | Some m =>
                 (Throw (JsError m),
                  mkSt (decisions_tbl s) (sync_metadata_tbl s) (S (S (ticks s))) (S (uuids s))
                    (trace s ++ write_events options summary detail)
                    (result s) (decisionsProcessed s))
             | None =>
                 (Ok Normal,
                  mkSt (upserted values (DateAt (clock env (S (ticks s)))) (decisions_tbl s))
                    (sync_metadata_tbl s) (S (S (ticks s))) (S (uuids s))
                    (trace s ++ write_events options summary detail)
                    (set_synced (S (synced (result s))) (result s))
                    (S (decisionsProcessed s)))
             end).
Proof.
  intros Hns.
  destruct (getDecision_run env (citation_number summary)) as [o [Ho Hget]].
  destruct o as [detail|e|]; [| |congruence].
  2:{ left. exists e, (ticks s), (uuids s). unfold sync_one.
      rewrite (sync_one_start env options summary s (Throw e)) by assumption.
      reflexivity. }
  destruct (paragraphs detail) as [paras|] eqn:Hparas.
  2:{ left. eexists _, (ticks s), (uuids s). unfold sync_one.
      rewrite (sync_one_start env options summary s (Ok detail)) by assumption.
      unfold bind at 1. rewrite parseBVADecision_run, Hparas. reflexivity. }
  destruct (classify_step env options detail) as [(Hon & Hraw & Hthrow)|[oc Hoc]].
  { left. eexists _, (S (ticks s)), (S (uuids s)). unfold sync_one.
    rewrite (sync_one_start env options summary s (Ok detail)) by assumption.
    unfold bind at 1. rewrite parseBVADecision_run, Hparas. cbv beta iota.
    unfold bind at 1. rewrite Hthrow. reflexivity. }
  right. exists detail, paras, oc. split; [exact Hget|]. split; [exact Hparas|].
  split; [exact Hoc|].
  now apply sync_one_reaches_store.
Qed.

Lemma process_summary_of_sync_one env options summary s :
  process_summary env options summary s
  = match sync_one env options summary
            (set_result (set_total (S (total (result s))) (result s)) s) with
    | (Ok Continue, s') => (Ok tt, s')
    | (Ok Normal, s') => (Ok tt, requested (EvDelay 100) s')
    | (Throw e, s') =>
        (Ok tt,
         requested (EvDelay 100)
           (set_result (set_errors (errors (result s') ++ [sync_error summary e]) (result s'))
              s'))
    | (OutOfFuel, s') => (OutOfFuel, s')
    end.
Proof.
  unfold process_summary. munfold. simpl.
  destruct (sync_one env options summary _) as [[[]|e|] s']; reflexivity.
Qed.

(** One round of the item loop on an item that is not skipped: either the
    item fails - one entry more in the error list, nothing else in the tables
    or the counters but [total] - or its row is written and it is counted as
    synced. Either way the round ends normally, with its 100 ms delay. *)
Lemma process_summary_not_skipped env options summary s :
  not_skipped options summary s = true ->
  (exists e t u evs,
      process_summary env options summary s
      = (Ok tt,
         mkSt (decisions_tbl s) (sync_metadata_tbl s) t u
           (trace s ++ evs ++ [EvDelay 100])
           (result_failed (sync_error summary e) (result s)) (decisionsProcessed s))
      /\ (evs = fetch_events options summary
          \/ exists detail, evs = write_events options summary detail))
  \/ (exists detail paras oc,
        (forall s0, getDecision env (citation_number summary) s0
                    = (Ok detail, requested (EvGetDecision (citation_number summary)) s0))
        /\ paragraphs detail = Some paras
        /\ (forall s0, (if default true (extractOutcomes options)
                        then extractOutcome env detail
                        else ret (Val JNull, Val JNull)) s0
                       = (Ok oc, set_trace
                                   (trace s0 ++ classify_events options (request_for detail)) s0))
        /\ constraint_failure
             (with_outcome (parsed_row detail paras (uuid (uuids s)) (clock env (ticks s)))
                oc.1 oc.2) (decisions_tbl s) = None
        /\ process_summary env options summary s
           = (Ok tt,
              mkSt (upserted
                      (with_outcome
                         (parsed_row detail paras (uuid (uuids s)) (clock env (ticks s)))
                         oc.1 oc.2)
                      (DateAt (clock env (S (ticks s)))) (decisions_tbl s))
                (sync_metadata_tbl s) (S (S (ticks s))) (S (uuids s))
                (trace s ++ write_events options summary detail ++ [EvDelay 100])
                (result_synced (result s)) (S (decisionsProcessed s)))).
Proof.
  intros Hns.
  pose proof (sync_one_not_skipped env options summary
                (set_result (set_total (S (total (result s))) (result s)) s)) as H.
  rewrite not_skipped_counted in H. specialize (H Hns).
  destruct H as [(e & t & u & He)|(detail & paras & oc & Hget & Hparas & Hoc & Hrun)].
  - left. exists e, t, u, (fetch_events options summary).
    split; [|now left].
    rewrite process_summary_of_sync_one, He. st_simpl.
    rewrite <- app_assoc. reflexivity.
  - st_simpl. cbv zeta in Hrun.
    destruct (constraint_failure _ (decisions_tbl s)) as [m|] eqn:Hc.
    + left. exists (JsError m), (S (S (ticks s))), (S (uuids s)),
        (write_events options summary detail).
      split; [|right; now exists detail].
      rewrite process_summary_of_sync_one. st_simpl. rewrite Hrun. st_simpl.
      rewrite <- app_assoc. reflexivity.
    + right. exists detail, paras, oc.
      split; [exact Hget|]. split; [exact Hparas|]. split; [exact Hoc|].
      split; [exact Hc|].
      rewrite process_summary_of_sync_one. st_simpl. rewrite Hrun. st_simpl.
      rewrite <- app_assoc. reflexivity.
Qed.

(** ** Skipping what is stored (C7) *)



(** ** Failures stay with their item (C4) *)

Lemma sync_one_skipped env options summary s :
  default false (skipExisting options) = true ->
  List.existsb (same_citation (citation_number summary)) (decisions_tbl s) = true ->
  exists s', sync_one env options summary s = (Ok Continue, s').
Proof.
  intros Hskip Hex. unfold sync_one. rewrite Hskip.
  unfold bind at 1. rewrite findFirst_run.
  destruct (existsb_find _ _ Hex) as [row [Hfind _]]. rewrite Hfind.
  eexists. reflexivity.
Qed.

Lemma detail_requests_fetch_events options summary :
  detail_requests (fetch_events options summary) = 1.
Proof.
  unfold detail_requests, fetch_events, lookup_events.
  destruct (default false (skipExisting options)); reflexivity.
Qed.

Lemma detail_requests_write_events options summary detail :
  detail_requests (write_events options summary detail) = 1.
Proof.
  unfold detail_requests, write_events, lookup_events, classify_events.
  destruct (default false (skipExisting options)), (default true (extractOutcomes options));
    reflexivity.
Qed.

(** The [try] block of an item throws only after one detail request, and
    with both tables and the run's bookkeeping as they were. *)
Lemma sync_one_throw env options summary s e s1 :
  sync_one env options summary s = (Throw e, s1) ->
  s1 = mkSt (decisions_tbl s) (sync_metadata_tbl s) (ticks s1) (uuids s1) (trace s1)
         (result s) (decisionsProcessed s)
  /\ exists evs, trace s1 = trace s ++ evs /\ detail_requests evs = 1.
Proof.
  intros H.
  destruct (not_skipped_or_skipped options summary s) as [Hns|[Hskip Hex]].
  - destruct (sync_one_not_skipped env options summary s Hns)
      as [(e' & t & u & He)|(detail & paras & oc & _ & _ & _ & Hrun)].
    + rewrite He in H. injection H as <- <-. split; [reflexivity|].
      eexists. split; [reflexivity|]. apply detail_requests_fetch_events.
    + cbv zeta in Hrun. rewrite Hrun in H.
      destruct (constraint_failure _ _); [|discriminate].
      injection H as <- <-. split; [reflexivity|].
      eexists. split; [reflexivity|]. apply detail_requests_write_events.
  - destruct (sync_one_skipped env options summary s Hskip Hex) as [s' Hs'].
    rewrite Hs' in H. discriminate.
Qed.

(** No exception leaves a round of the item loop. *)
Lemma process_summary_returns env options summary s :
  exists s', process_summary env options summary s = (Ok tt, s').
Proof.
  destruct (not_skipped_or_skipped options summary s) as [Hns|[Hskip Hex]].
  - destruct (process_summary_not_skipped env options summary s Hns)
      as [(e & t & u & evs & H & _)|(detail & paras & oc & _ & _ & _ & _ & H)];
      rewrite H; eexists; reflexivity.
  - rewrite process_summary_skipped by assumption. eexists; reflexivity.
Qed.

(** C4. Whatever happens to an item, its round of the loop returns
    normally. When a stage of the item throws - the detail request, the
    parser, the classifier or the write - the round appends exactly one
    entry for the item to the error list, leaves [total] counting the item,
    the other counters and both tables as they were, and the loop goes on
    with the next item; the failed item was requested once. *)
Theorem failed_item_is_isolated :
  forall env options maxDecisions summary rest s,
    (exists s', process_summary env options summary s = (Ok tt, s'))
    /\ forall e s1,
         limit_reached maxDecisions s = false ->
         sync_one env options summary (counted s) = (Throw e, s1) ->
         let s' := mkSt (decisions_tbl s) (sync_metadata_tbl s) (ticks s1) (uuids s1)
                     (trace s1 ++ [EvDelay 100])
                     (result_failed (sync_error summary e) (result s))
                     (decisionsProcessed s) in
         process_summary env options summary s = (Ok tt, s')
         /\ for_summaries env options maxDecisions (summary :: rest) s
            = for_summaries env options maxDecisions rest s'
         /\ exists evs, trace s1 = trace s ++ evs /\ detail_requests evs = 1.
Proof.
  intros env options m summary rest s. split; [apply process_summary_returns|].
  intros e s1 Hlim Hthrow s'.
  destruct (sync_one_throw _ _ _ _ _ _ Hthrow) as [Hs1 Hevs].
  assert (Hp : process_summary env options summary s = (Ok tt, s')).
  { rewrite process_summary_of_sync_one. fold (counted s). rewrite Hthrow.
    rewrite Hs1. reflexivity. }
  split; [exact Hp|]. split; [|exact Hevs].
  cbn [for_summaries]. unfold bind at 1. unfold get at 1. cbv beta iota.
  rewrite Hlim. unfold bind at 1. rewrite Hp. reflexivity.
Qed.

(** The detail request of decision 23-0002 finds no service. *)
Lemma failed_item_witness :
  process_summary
    (Demo.world_with ["23-0001"; "23-0002"; "23-0003"]
       (Demo.serve "23-0002" (Rejected "fetch failed")))
    Demo.no_options (Demo.summary_of "23-0002") Demo.fresh
  = (Ok tt,
     mkSt [] [] 0 0 [EvGetDecision "23-0002"; EvDelay 100]
       (mkSyncResult 1 0 0
          [mkSyncError "bva-23-0002" "23-0002" "Network error: fetch failed"]
          0%Z None None) 0).
Proof.
  pose proof (failed_item_is_isolated
                (Demo.world_with ["23-0001"; "23-0002"; "23-0003"]
                   (Demo.serve "23-0002" (Rejected "fetch failed")))
                Demo.no_options 100%Z (Demo.summary_of "23-0002") [] Demo.fresh) as [_ H].
  specialize (H (BVAApiError "Network error: fetch failed" 0)
                (mkSt [] [] 0 0 [EvGetDecision "23-0002"]
                   (mkSyncResult 1 0 0 [] 0%Z None None) 0)
                eq_refl eq_refl).
  exact (proj1 H).
Defined.

(** The run of the example: three matches, the second of which cannot be
    fetched. *)
Example failed_fetch_run :
  fst (syncDecisions 3
         (Demo.world_with ["23-0001"; "23-0002"; "23-0003"]
            (Demo.serve "23-0002" (Rejected "fetch failed")))
         Demo.no_options Demo.fresh)
  = Ok (mkSyncResult 3 2 0
          [mkSyncError "bva-23-0002" "23-0002" "Network error: fetch failed"]
          1700000000000%Z (Some 1700000000007%Z) (Some 7%Z)).
Proof. vm_compute. reflexivity. Qed.

(** Each stage can be the one that throws. *)
Example parse_stage_throws :
  fst (sync_one (Demo.world_with ["23-0002"]
                   (Demo.serve "23-0002" (Demo.found (Demo.no_paragraphs "23-0002"))))
         Demo.no_options (Demo.summary_of "23-0002") (counted Demo.fresh))
  = Throw (JsError "apiDecision.paragraphs is not iterable").
Proof. vm_compute. reflexivity. Qed.

Example classify_stage_throws :
  fst (sync_one (Demo.world_with ["23-0002"]
                   (Demo.serve "23-0002" (Demo.found (Demo.no_text "23-0002"))))
         Demo.no_options (Demo.summary_of "23-0002") (counted Demo.fresh))
  = Throw (JsError "Cannot read properties of undefined (reading 'slice')").
Proof. vm_compute. reflexivity. Qed.

Example upsert_stage_throws :
  fst (sync_one (Demo.world_with ["23-0001"; "23-0002"]
                   (Demo.serve "23-0002" (Demo.found (Demo.with_id_of "23-0001" "23-0002"))))
         Demo.no_options (Demo.summary_of "23-0002") (counted Demo.stored))
  = Throw (JsError "UNIQUE constraint failed: decisions.bva_api_id").
Proof. vm_compute. reflexivity. Qed.

(** ** Degradation of the classifier (C2) *)





Example prose_reply_is_synced_as_unknown :
  let s := snd (syncDecisions 3 Demo.world_prose Demo.no_options Demo.fresh) in
  List.map (fun row => (Decision.citationNumber row, Decision.outcome row,
                        Decision.outcomeConfidence row)) (decisions_tbl s)
  = [("23-0001", Val (JStr "Unknown"), Val (JNum 0))]
  /\ synced (result s) = 1 /\ errors (result s) = [].
Proof. vm_compute. repeat split. Qed.


(** ** The status record (C9) *)

(** [updateSyncMetadata] as [syncDecisions] calls it, before [endTime] is
    set: the date written is a reading of the clock made by the call itself
    (the first of its two readings for a new row, the second for an
    overwrite). *)
Lemma updateSyncMetadata_run env r s :
  endTime r = None ->
  updateSyncMetadata env r s
  = (Ok tt,
     mkSt (decisions_tbl s)
       (status_written r (clock env (ticks s)) (clock env (S (ticks s)))
          (sync_metadata_tbl s))
       (S (S (ticks s))) (uuids s) (trace s ++ [EvUpsertMetadata "latest"])
       (result s) (decisionsProcessed s)).
Proof.
  intros Hend. unfold updateSyncMetadata, endTime_or_now, upsert_metadata.
  rewrite Hend. munfold. st_simpl. cbn [SyncMetadata.id].
  unfold status_written, status_row.
  f_equal. f_equal.
  destruct (List.existsb (same_key "latest") (sync_metadata_tbl s)) eqn:Hex;
    [|reflexivity].
  apply map_ext_in. intros row _.
  destruct (same_key "latest" row) eqn:Hrow; [|reflexivity].
  unfold same_key in Hrow. apply String.eqb_eq in Hrow.
  destruct row; cbn in *. now subst.
Qed.

(** The write keeps the table a singleton: one row of key [latest] after
    it, and as many rows as before when there was one. *)
Lemma status_written_latest r i u tbl :
  exists d,
    List.find (same_key "latest") (status_written r i u tbl) = Some (status_row r d)
    /\ (d = i \/ d = u).
Proof.
  unfold status_written.
  destruct (List.existsb (same_key "latest") tbl) eqn:Hex.
  - exists u. split; [|now right].
    induction tbl as [|row tbl IH]; [discriminate|].
    cbn [List.map List.find]. cbn [List.existsb] in Hex.
    destruct (same_key "latest" row) eqn:Hrow.
    + reflexivity.
    + rewrite Hrow. apply IH. exact Hex.
  - exists i. split; [|now left].
    induction tbl as [|row tbl IH]; [reflexivity|].
    cbn [List.existsb] in Hex. apply orb_false_iff in Hex as [Hrow Hex].
    cbn [app List.find]. rewrite Hrow. apply IH. exact Hex.
Qed.

Lemma status_written_overwrites r i u tbl :
  List.existsb (same_key "latest") tbl = true ->
  length (status_written r i u tbl) = length tbl.
Proof. intros H. unfold status_written. rewrite H. apply length_map. Qed.

Lemma sync_status_iff r :
  sync_status r = completed_with_errors <-> errors r <> [].
Proof.
  unfold sync_status. destruct (errors r); simpl; split; congruence.
Qed.

Lemma errorSummary_none r : errors r = [] <-> errorSummary r = None.
Proof.
  unfold errorSummary. destruct (errors r); simpl; split; congruence.
Qed.

Lemma errorSummary_some r :
  errors r <> [] ->
  errorSummary r
  = Some (JsString.of_nat (length (errors r)) +:+ " errors: "
          +:+ JsString.join ", " (List.map citationNumber (firstn 3 (errors r)))).
Proof.
  unfold errorSummary. destruct (errors r); simpl; [congruence|reflexivity].
Qed.

(** ** Pagination (C6) *)

Lemma parse_nat_of_nat n : parse_nat (JsString.of_nat n) = Some n.
Proof.
  unfold parse_nat, JsString.of_nat. rewrite NilEmpty.usu. simpl.
  now rewrite Unsigned.of_to.
Qed.

Lemma param_offset params o :
  param_nat "offset" 0 (queryParams (with_page params o)) = o.
Proof.
  unfold param_nat, queryParams, with_page, append_if_truthy.
  cbn [SearchParams.query SearchParams.decision_type SearchParams.start_year
         SearchParams.end_year SearchParams.sort SearchParams.offset SearchParams.limit].
  destruct (SearchParams.decision_type params), (SearchParams.start_year params) as [[|y1]|],
    (SearchParams.end_year params) as [[|y2]|], (SearchParams.sort params);
    simpl; rewrite parse_nat_of_nat; reflexivity.
Qed.

Lemma param_limit params o :
  param_nat "limit" 20 (queryParams (with_page params o)) = 100.
Proof.
  unfold param_nat, queryParams, with_page, append_if_truthy, page_limit.
  cbn [SearchParams.query SearchParams.decision_type SearchParams.start_year
         SearchParams.end_year SearchParams.sort SearchParams.offset SearchParams.limit].
  destruct (SearchParams.decision_type params), (SearchParams.start_year params) as [[|y1]|],
    (SearchParams.end_year params) as [[|y2]|], (SearchParams.sort params);
    vm_compute; reflexivity.
Qed.

Section Simulated.

Variable matches : list BVADecisionSummary.
Variable endpoint : string -> FetchOutcome BVADecisionDetail.
Variable chat : GenerateOptions -> string + option string.
Variable parse : string -> string + JValue.
Variable clk : nat -> Z.
Variable params : SearchParams.t.

Lemma searchDecisions_simulated o s :
  searchDecisions (simulated matches endpoint chat parse clk) (with_page params o) s
  = (Ok (simulated_page matches o 100),
     requested (EvSearch (queryParams (with_page params o))) s).
Proof.
  unfold searchDecisions. munfold. cbn [search_endpoint simulated].
  unfold simulated_search. rewrite param_offset, param_limit. reflexivity.
Qed.

Lemma page_nonempty o :
  o < length matches -> exists x rest, firstn 100 (skipn o matches) = x :: rest.
Proof.
  intros H. destruct (skipn o matches) as [|x rest] eqn:E.
  - apply (f_equal (@length _)) in E. rewrite length_skipn in E. simpl in E. lia.
  - simpl. eauto.
Qed.

Lemma page_empty o : length matches <= o -> firstn 100 (skipn o matches) = [].
Proof. intros H. rewrite skipn_all2 by exact H. reflexivity. Qed.

(** A request inside the matches yields its page at once. *)
Lemma loop_simulated_page fuel o s :
  o < length matches ->
  fetchAllDecisions_loop (S fuel) (simulated matches endpoint chat parse clk) params o s
  = (Ok (Some (firstn 100 (skipn o matches)),
         GenSuspended o (o + 100 <? length matches)),
     requested (EvSearch (queryParams (with_page params o))) s).
Proof.
  intros H. cbn [fetchAllDecisions_loop]. unfold bind at 1.
  rewrite searchDecisions_simulated. cbn [SearchResult.decisions simulated_page].
  destruct (page_nonempty o H) as (x & rest & ->). reflexivity.
Qed.

(** A request past the matches ends the iteration. *)
Lemma loop_simulated_end fuel o s :
  length matches <= o ->
  fetchAllDecisions_loop (S fuel) (simulated matches endpoint chat parse clk) params o s
  = (Ok (None, GenDone), requested (EvSearch (queryParams (with_page params o))) s).
Proof.
  intros H. cbn [fetchAllDecisions_loop]. unfold bind at 1.
  rewrite searchDecisions_simulated.
  cbn [SearchResult.decisions SearchResult.has_more simulated_page].
  rewrite (page_empty o H).
  destruct (Nat.ltb_spec (o + 100) (length matches)); [lia|reflexivity].
Qed.

(** The rest of the iteration, from the [yield] of page [k], when [n] pages
    remain after it. *)
Lemma collect_after_page n :
  forall k fuel s,
    100 * (k + n) < length matches <= 100 * (k + n + 1) ->
    n < fuel ->
    collect_batches fuel (simulated matches endpoint chat parse clk) params
      (GenSuspended (100 * k) (100 * k + 100 <? length matches)) s
    = (Ok (List.map (page matches) (seq (S k) n)),
       set_trace (trace s ++ flat_map (fun j => [EvDelay 500; page_request params j])
                               (seq (S k) n)) s).
Proof.
  induction n as [|n IH]; intros k fuel s Hk Hfuel.
  - destruct fuel as [|fuel]; [lia|].
    cbn [collect_batches fetchAllDecisions_next]. unfold bind at 1.
    destruct (Nat.ltb_spec (100 * k + 100) (length matches)); [lia|].
    cbn. rewrite app_nil_r. now destruct s.
  - destruct fuel as [|fuel]; [lia|].
    cbn [collect_batches fetchAllDecisions_next]. unfold bind at 1.
    destruct (Nat.ltb_spec (100 * k + 100) (length matches)); [|lia].
    unfold bind at 1. unfold delay, emit, modify. cbv beta iota.
    unfold page_limit. rewrite loop_simulated_page by (st_simpl; lia).
    cbv beta iota. unfold bind at 1.
    replace (100 * k + 100) with (100 * S k) by lia.
    rewrite (IH (S k) fuel) by lia.
    cbv beta iota. unfold ret. f_equal.
    cbn [seq List.map flat_map]. unfold page_request, page, requested. st_simpl.
    rewrite <- !app_assoc. reflexivity.
Qed.

End Simulated.

Lemma page_count_bounds n :
  0 < n -> 100 * (page_count n - 1) < n <= 100 * page_count n /\ 0 < page_count n.
Proof.
  intros Hn. unfold page_count.
  pose proof (Nat.div_mod_eq (n + 99) 100) as Hd.
  pose proof (Nat.mod_upper_bound (n + 99) 100 ltac:(lia)) as Hm.
  lia.
Qed.

Lemma has_more_page_count n k : (100 * k + 100 <? n) = (S k <? page_count n).
Proof.
  unfold page_count.
  pose proof (Nat.div_mod_eq (n + 99) 100) as Hd.
  pose proof (Nat.mod_upper_bound (n + 99) 100 ltac:(lia)) as Hm.
  destruct (Nat.ltb_spec (100 * k + 100) n), (Nat.ltb_spec (S k) ((n + 99) / 100));
    try reflexivity; lia.
Qed.

Lemma concat_pages_upto n :
  forall (l : list BVADecisionSummary),
    length l <= 100 * n -> concat (List.map (page l) (seq 0 n)) = l.
Proof.
  induction n as [|n IH]; intros l Hl.
  - destruct l; [reflexivity|simpl in Hl; lia].
  - cbn [seq List.map concat]. rewrite <- seq_shift, List.map_map.
    rewrite (map_ext (fun k => page l (S k)) (page (skipn 100 l))).
    + rewrite IH by (rewrite length_skipn; lia).
      unfold page. rewrite Nat.mul_0_r. cbn [skipn]. apply firstn_skipn.
    + intros k. unfold page. rewrite skipn_skipn. f_equal. f_equal. lia.
Qed.

Lemma concat_pages (l : list BVADecisionSummary) : concat (pages l) = l.
Proof.
  unfold pages. apply concat_pages_upto.
  destruct (length l) as [|n] eqn:E; [lia|].
  pose proof (page_count_bounds (S n) ltac:(lia)). lia.
Qed.

(** C6. Against a simulated upstream of N matches, the iteration run to its
    end returns (enough fuel given: one unit per page and one more) and
    yields the pages of the matches, (N + 99) / 100 of them; its calls are
    the request at offset 0 and then, for each further page, the 500 ms
    delay followed by the request 100 further - so a delay follows every
    batch but the last; and the page at which it stops is the first whose
    [has_more] is false. *)
Theorem pagination_yields_every_page :
  forall matches endpoint chat parse clk params fuel s,
    page_count (length matches) < fuel ->
    collect_batches fuel (simulated matches endpoint chat parse clk) params GenStart s
    = (Ok (pages matches),
       set_trace (trace s ++ pagination_trace params (length matches)) s)
    /\ length (pages matches) = page_count (length matches)
    /\ concat (pages matches) = matches
    /\ forall k, SearchResult.has_more (simulated_page matches (100 * k) 100)
                 = (S k <? page_count (length matches)).
Proof.
  intros matches endpoint chat parse clk params fuel s Hfuel.
  split; [|split; [|split]].
  - destruct fuel as [|fuel]; [lia|].
    cbn [collect_batches fetchAllDecisions_next]. unfold bind at 1.
    destruct (length matches) as [|n] eqn:HN.
    + rewrite loop_simulated_end by lia.
      unfold pages, pagination_trace. rewrite HN. reflexivity.
    + pose proof (page_count_bounds (S n) ltac:(lia)) as [Hb Hpos].
      rewrite loop_simulated_page by lia. cbv beta iota.
      unfold bind at 1.
      pose proof (collect_after_page matches endpoint chat parse clk params
                    (page_count (S n) - 1) 0 fuel) as Hc.
      rewrite HN in Hc. cbn [Nat.mul Nat.add] in Hc.
      change (100 * 0) with 0. rewrite HN. cbn [Nat.add].
      rewrite Hc by lia. cbv beta iota. unfold ret. f_equal.
      * f_equal. unfold pages. rewrite HN.
        replace (page_count (S n)) with (S (page_count (S n) - 1)) at 2 by lia.
        reflexivity.
      * unfold pagination_trace, page_request, requested. st_simpl.
        rewrite <- app_assoc. reflexivity.
  - unfold pages. now rewrite length_map, length_seq.
  - apply concat_pages.
  - intros k. cbn [SearchResult.has_more simulated_page]. apply has_more_page_count.
Qed.

(** 201 matches: three pages. *)
Lemma pagination_witness :
  collect_batches 4 (Demo.upstream_of 201) (search_params Demo.no_options) GenStart Demo.fresh
  = (Ok (pages (Demo.many 201)),
     set_trace (trace Demo.fresh
                ++ pagination_trace (search_params Demo.no_options) (length (Demo.many 201)))
       Demo.fresh).
Proof.
  refine (proj1 (pagination_yields_every_page (Demo.many 201) Demo.serve_all
                   Demo.chat_granted Demo.parse_granted Demo.ticking
                   (search_params Demo.no_options) 4 Demo.fresh _)).
  vm_compute. lia.
Defined.

Example pagination_of_201 :
  let run := collect_batches 4 (Demo.upstream_of 201) (search_params Demo.no_options)
               GenStart Demo.fresh in
  match fst run with
  | Ok batches => List.map (@length _) batches = [100; 100; 1]
  | _ => False
  end
  /\ List.map (fun ev => match ev with
                         | EvSearch qs => lookup_param "offset" qs
                         | EvDelay ms => Some (JsString.of_nat ms +:+ " ms")
                         | _ => None
                         end) (trace (snd run))
     = [Some "0"; Some "500 ms"; Some "100"; Some "500 ms"; Some "200"].
Proof. vm_compute. split; reflexivity. Qed.

(** ** Invariants of the two loops *)

Lemma set_trace_nil s : set_trace (trace s ++ []) s = s.
Proof. rewrite app_nil_r. now destruct s. Qed.

Lemma paged_refl s : paged s s.
Proof. exists []. split; [now rewrite set_trace_nil|reflexivity]. Qed.

Lemma paged_trans s1 s2 s3 : paged s1 s2 -> paged s2 s3 -> paged s1 s3.
Proof.
  intros (e1 & -> & H1) (e2 & -> & H2). exists (e1 ++ e2). split.
  - st_simpl. now rewrite app_assoc.
  - rewrite forallb_app, H1, H2. reflexivity.
Qed.

Lemma paged_event ev s : paging_event ev = true -> paged s (requested ev s).
Proof. intros H. exists [ev]. split; [reflexivity|]. simpl. now rewrite H. Qed.

(** [searchDecisions] makes one request and touches nothing else. *)
Lemma searchDecisions_run env params :
  exists o, o <> OutOfFuel
            /\ forall s, searchDecisions env params s
                         = (o, requested (EvSearch (queryParams params)) s).
Proof.
  unfold searchDecisions. munfold.
  destruct (search_endpoint env (queryParams params)) as [m|r].
  - eexists. split; [|intros s; reflexivity]. discriminate.
  - simpl. destruct (ok r); simpl.
    + destruct (json r) as [m'|d]; eexists; (split; [|intros s; reflexivity]); discriminate.
    + eexists. split; [|intros s; reflexivity]. discriminate.
Qed.

Lemma fetchAllDecisions_loop_paged env params fuel :
  forall offset s, paged s (snd (fetchAllDecisions_loop fuel env params offset s)).
Proof.
  induction fuel as [|fuel IH]; intros offset s; [apply paged_refl|].
  cbn [fetchAllDecisions_loop]. unfold bind at 1.
  destruct (searchDecisions_run env (with_page params offset)) as [o [_ Ho]].
  rewrite Ho.
  assert (H1 : paged s (requested (EvSearch (queryParams (with_page params offset))) s))
    by now apply paged_event.
  destruct o as [res|e|]; [|exact H1|exact H1].
  destruct (SearchResult.decisions res); [|exact H1].
  destruct (SearchResult.has_more res); [|exact H1].
  unfold bind at 1. unfold delay, emit, modify. cbv beta iota.
  eapply paged_trans; [exact H1|].
  eapply paged_trans; [|apply IH]. now apply paged_event.
Qed.

Lemma fetchAllDecisions_next_paged env params fuel g s :
  paged s (snd (fetchAllDecisions_next fuel env params g s)).
Proof.
  destruct g as [|offset hasMore|]; cbn [fetchAllDecisions_next].
  - apply fetchAllDecisions_loop_paged.
  - destruct hasMore; [|apply paged_refl].
    unfold bind at 1. unfold delay, emit, modify. cbv beta iota.
    eapply paged_trans; [|apply fetchAllDecisions_loop_paged]. now apply paged_event.
  - apply paged_refl.
Qed.

(** What every round of the item loop keeps, the loop keeps. *)
Lemma for_summaries_inv (P : St -> Prop) env options m :
  (forall summary s, limit_reached m s = false -> P s ->
                     P (snd (process_summary env options summary s))) ->
  forall batch s, P s -> P (snd (for_summaries env options m batch s)).
Proof.
  intros Hstep. induction batch as [|summary rest IH]; intros s HP; [exact HP|].
  cbn [for_summaries]. unfold bind at 1. unfold get at 1. cbv beta iota.
  destruct (limit_reached m s) eqn:Hlim; [exact HP|].
  unfold bind at 1.
  destruct (process_summary_returns env options summary s) as [s1 H1].
  specialize (Hstep summary s Hlim HP). rewrite H1 in *. apply IH. exact Hstep.
Qed.

Lemma for_summaries_returns env options m :
  forall batch s, exists s', for_summaries env options m batch s = (Ok tt, s').
Proof.
  induction batch as [|summary rest IH]; intros s; [eexists; reflexivity|].
  cbn [for_summaries]. unfold bind at 1. unfold get at 1. cbv beta iota.
  destruct (limit_reached m s); [eexists; reflexivity|].
  unfold bind at 1.
  destruct (process_summary_returns env options summary s) as [s1 ->]. apply IH.
Qed.

(** What the generator's calls keep while the ceiling is not reached, and
    every round of the item loop keeps, the page loop keeps. [E] is what is
    known of the state in which the generator is resumed. *)
Lemma for_await_batches_inv (P E : St -> Prop) env options m params :
  (forall s, limit_reached m s = false -> E s) ->
  (forall s s', E s -> paged s s' -> P s -> P s') ->
  (forall summary s, limit_reached m s = false -> P s ->
                     P (snd (process_summary env options summary s))) ->
  forall fuel g s, E s -> P s -> P (snd (for_await_batches fuel env options m params g s)).
Proof.
  intros HE Hpaged Hstep. induction fuel as [|fuel IH]; intros g s Es HP; [exact HP|].
  cbn [for_await_batches]. unfold bind at 1.
  pose proof (fetchAllDecisions_next_paged env params (S fuel) g s) as Hg.
  destruct (fetchAllDecisions_next (S fuel) env params g s) as [[[[batch|] g']|e|] s1];
    cbn [snd] in Hg; specialize (Hpaged s s1 Es Hg HP); try exact Hpaged.
  unfold bind at 1.
  pose proof (for_summaries_inv P env options m Hstep batch s1 Hpaged) as H2.
  destruct (for_summaries_returns env options m batch s1) as [s2 Hs2].
  rewrite Hs2 in *. cbn [snd] in H2.
  unfold bind at 1. unfold get at 1. cbv beta iota.
  destruct (limit_reached m s2) eqn:Hlim; [exact H2|].
  apply IH; [now apply HE|exact H2].
Qed.

(** ** The run as a whole *)

(** [updateSyncMetadata] returns, with one write on the trace; it touches the
    status table and the clock only. *)
Lemma updateSyncMetadata_returns env r s :
  exists tbl t,
    updateSyncMetadata env r s
    = (Ok tt,
       mkSt (decisions_tbl s) tbl t (uuids s) (trace s ++ [EvUpsertMetadata "latest"])
         (result s) (decisionsProcessed s)).
Proof.
  unfold updateSyncMetadata, endTime_or_now, upsert_metadata.
  destruct (endTime r); munfold; st_simpl; eexists _, _; reflexivity.
Qed.

(** [syncDecisions] in three steps: the page loop from the started state,
    the status write, the end time; a failure of the page loop is thrown
    again once the end time is set. *)
Lemma syncDecisions_run fuel env options s :
  syncDecisions fuel env options s
  = match for_await_batches fuel env options (effective_maxDecisions options)
            (search_params options) GenStart (started env s) with
    | (Ok _, s2) =>
        let s3 := snd (updateSyncMetadata env (result s2) s2) in
        (Ok (result (finished env s3)), finished env s3)
    | (Throw e, s2) => (Throw e, finished env s2)
    | (OutOfFuel, s2) => (OutOfFuel, s2)
    end.
Proof.
  unfold syncDecisions. unfold bind at 1. unfold now at 1. cbv beta iota.
  unfold bind at 1. unfold modify at 1. cbv beta iota.
  fold (started env s). unfold try_catch. unfold bind at 1.
  destruct (for_await_batches _ _ _ _ _ _ (started env s)) as [[[]|e|] s2].
  - unfold bind at 1. unfold get at 1. cbv beta iota. unfold bind at 1.
    destruct (updateSyncMetadata_returns env (result s2) s2) as (tbl & t & ->).
    cbv beta iota zeta. cbn [snd]. reflexivity.
  - reflexivity.
  - reflexivity.
Qed.

(** ** The ceiling (C5) *)

Lemma limit_not_reached m s :
  limit_reached m s = false <-> (Z.of_nat (decisionsProcessed s) < m)%Z.
Proof. unfold limit_reached. rewrite Z.leb_gt. reflexivity. Qed.

(** The ceiling is checked before each item: once it is reached the item
    loop does nothing. *)
Lemma for_summaries_at_ceiling env options m batch s :
  limit_reached m s = true -> for_summaries env options m batch s = (Ok tt, s).
Proof.
  intros H. destruct batch as [|summary rest]; [reflexivity|].
  cbn [for_summaries]. unfold bind at 1. unfold get at 1. cbv beta iota.
  now rewrite H.
Qed.

Lemma under_ceiling_paged m s0 s s' :
  limit_reached m s = false -> paged s s' -> under_ceiling m s0 s -> under_ceiling m s0 s'.
Proof.
  intros Hlim (evs & -> & _) (Hs & Hle & evs0 & Ht & _).
  apply limit_not_reached in Hlim.
  split; [exact Hs|]. split; [exact Hle|].
  exists (evs0 ++ evs). st_simpl. split; [now rewrite Ht, app_assoc|]. lia.
Qed.

Lemma under_ceiling_step env options m s0 summary s :
  limit_reached m s = false -> under_ceiling m s0 s ->
  under_ceiling m s0 (snd (process_summary env options summary s)).
Proof.
  intros Hlim (Hs & Hle & evs0 & Ht & _).
  apply limit_not_reached in Hlim.
  destruct (not_skipped_or_skipped options summary s) as [Hns|[Hskip Hex]].
  - destruct (process_summary_not_skipped env options summary s Hns)
      as [(e & t & u & evs & H & _)|(detail & paras & oc & _ & _ & _ & _ & H)];
      rewrite H; cbn [snd]; unfold under_ceiling; st_simpl.
    + split; [exact Hs|]. split; [exact Hle|].
      exists (evs0 ++ evs ++ [EvDelay 100]). split; [now rewrite Ht, <- app_assoc|]. lia.
    + split; [cbn; now rewrite Hs|]. split; [lia|].
      exists (evs0 ++ write_events options summary detail ++ [EvDelay 100]).
      split; [now rewrite Ht, <- app_assoc|].
      intros _. unfold write_events.
      exists (evs0 ++ lookup_events options (citation_number summary)
                   ++ [EvGetDecision (citation_number summary)]
                   ++ classify_events options (request_for detail)),
        (citation_number detail).
      rewrite <- !app_assoc. reflexivity.
  - rewrite process_summary_skipped by assumption. cbn [snd].
    unfold under_ceiling, requested; st_simpl.
    split; [exact Hs|]. split; [exact Hle|].
    exists (evs0 ++ [EvFindFirst (citation_number summary)]).
    split; [now rewrite Ht, <- app_assoc|]. lia.
Qed.

Lemma under_ceiling_started env m s : (0 < m)%Z -> under_ceiling m s (started env s).
Proof.
  intros Hm. unfold under_ceiling, started. st_simpl. cbn.
  split; [reflexivity|]. split; [lia|].
  exists []. split; [now rewrite app_nil_r|]. lia.
Qed.

(** On any upstream: a run that returns has synced at most [m] items, and
    when it has synced [m], nothing follows the [m]-th write but that
    item's delay and the status write. *)
Lemma syncDecisions_under_ceiling fuel env options s r s' :
  (0 < effective_maxDecisions options)%Z ->
  syncDecisions fuel env options s = (Ok r, s') ->
  (Z.of_nat (synced r) <= effective_maxDecisions options)%Z
  /\ (Z.of_nat (synced r) = effective_maxDecisions options ->
      exists pre c,
        trace s' = trace s ++ pre
                   ++ [EvUpsertDecision c; EvDelay 100; EvUpsertMetadata "latest"]).
Proof.
  intros Hm Hrun. rewrite syncDecisions_run in Hrun.
  set (m := effective_maxDecisions options) in *.
  pose proof (for_await_batches_inv (under_ceiling m s)
                (fun s1 => limit_reached m s1 = false) env options m (search_params options)
                (fun s1 H => H)
                (fun s1 s2 H => under_ceiling_paged m s s1 s2 H)
                (fun summary s1 => under_ceiling_step env options m s summary s1)
                fuel GenStart (started env s)) as Hinv.
  assert (Hstart : limit_reached m (started env s) = false).
  { apply limit_not_reached. cbn. lia. }
  specialize (Hinv Hstart (under_ceiling_started env m s Hm)).
  destruct (for_await_batches _ _ _ _ _ _ (started env s)) as [[[]|e|] s2];
    [|discriminate|discriminate].
  cbn [snd] in Hinv. destruct Hinv as (Hs & Hle & evs & Ht & Hlast).
  destruct (updateSyncMetadata_returns env (result s2) s2) as (tbl & t & Hu).
  rewrite Hu in Hrun. cbv zeta in Hrun. cbn [snd] in Hrun.
  injection Hrun as <- <-. unfold finished. st_simpl. cbn [synced set_end].
  rewrite Hs. split; [exact Hle|].
  intros Heq. destruct (Hlast Heq) as (pre & c & ->).
  exists pre, c. rewrite Ht. unfold started. st_simpl.
  rewrite <- !app_assoc. reflexivity.
Qed.

(** On the simulated upstream the page loop returns: from the [yield] of
    page [k], when [n] pages remain after it. *)
Lemma for_await_after_page matches endpoint chat parse clk options m params n :
  forall k fuel s,
    100 * (k + n) < length matches <= 100 * (k + n + 1) ->
    n < fuel ->
    exists s',
      for_await_batches fuel (simulated matches endpoint chat parse clk) options m params
        (GenSuspended (100 * k) (100 * k + 100 <? length matches)) s
      = (Ok tt, s').
Proof.
  induction n as [|n IH]; intros k fuel s Hk Hfuel.
  - destruct fuel as [|fuel]; [lia|].
    cbn [for_await_batches fetchAllDecisions_next]. unfold bind at 1.
    destruct (Nat.ltb_spec (100 * k + 100) (length matches)); [lia|].
    eexists. reflexivity.
  - destruct fuel as [|fuel]; [lia|].
    cbn [for_await_batches fetchAllDecisions_next]. unfold bind at 1.
    destruct (Nat.ltb_spec (100 * k + 100) (length matches)); [|lia].
    unfold bind at 1. unfold delay, emit, modify. cbv beta iota.
    unfold page_limit. rewrite loop_simulated_page by (st_simpl; lia).
    cbv beta iota. unfold bind at 1.
    destruct (for_summaries_returns (simulated matches endpoint chat parse clk) options m
                (firstn 100 (skipn (100 * k + 100) matches))
                (requested (EvSearch (queryParams (with_page params (100 * k + 100))))
                   (set_trace (trace s ++ [EvDelay 500]) s))) as [s2 ->].
    cbv beta iota. unfold bind at 1. unfold get at 1. cbv beta iota.
    destruct (limit_reached m s2); [eexists; reflexivity|].
    replace (100 * k + 100) with (100 * S k) by lia.
    apply IH; lia.
Qed.

Lemma for_await_simulated_returns matches endpoint chat parse clk options m params fuel s :
  page_count (length matches) < fuel ->
  exists s',
    for_await_batches fuel (simulated matches endpoint chat parse clk) options m params
      GenStart s
    = (Ok tt, s').
Proof.
  intros Hfuel. destruct fuel as [|fuel]; [lia|].
  cbn [for_await_batches fetchAllDecisions_next]. unfold bind at 1.
  destruct (length matches) as [|n] eqn:HN.
  - rewrite loop_simulated_end by lia. eexists. reflexivity.
  - pose proof (page_count_bounds (S n) ltac:(lia)) as [Hb Hpos].
    rewrite loop_simulated_page by lia. cbv beta iota. unfold bind at 1.
    destruct (for_summaries_returns (simulated matches endpoint chat parse clk) options m
                (firstn 100 (skipn 0 matches))
                (requested (EvSearch (queryParams (with_page params 0))) s)) as [s2 ->].
    cbv beta iota. unfold bind at 1. unfold get at 1. cbv beta iota.
    destruct (limit_reached m s2); [eexists; reflexivity|].
    pose proof (for_await_after_page matches endpoint chat parse clk options m params
                  (page_count (S n) - 1) 0 fuel s2) as Hc.
    rewrite HN in Hc. cbn [Nat.mul Nat.add] in Hc. change (100 * 0) with 0 in Hc.
    rewrite HN. apply Hc; lia.
Qed.

(** On the simulated upstream a run returns (one unit of fuel per page and
    one more). *)
Lemma syncDecisions_simulated_returns matches endpoint chat parse clk options fuel s :
  page_count (length matches) < fuel ->
  exists r s',
    syncDecisions fuel (simulated matches endpoint chat parse clk) options s = (Ok r, s').
Proof.
  intros Hfuel. rewrite syncDecisions_run.
  destruct (for_await_simulated_returns matches endpoint chat parse clk options
              (effective_maxDecisions options) (search_params options) fuel
              (started (simulated matches endpoint chat parse clk) s) Hfuel) as [s2 ->].
  eexists _, _. reflexivity.
Qed.

(** C5, as the code has it. Against a simulated upstream, a run with an
    effective ceiling [m] of at least 1 returns; it has synced at most [m]
    items - the ceiling counts the items written, not those skipped or
    failed - and when it has synced [m], the run made no call after the
    [m]-th write but that item's delay and the status write: no further
    item, no further page. The ceiling is checked before each item: where it
    is reached the item loop does nothing. *)
Theorem ceiling_bounds_synced_items :
  forall matches endpoint chat parse clk options fuel s,
    (0 < effective_maxDecisions options)%Z ->
    page_count (length matches) < fuel ->
    (exists r s',
        syncDecisions fuel (simulated matches endpoint chat parse clk) options s = (Ok r, s')
        /\ (Z.of_nat (synced r) <= effective_maxDecisions options)%Z
        /\ (Z.of_nat (synced r) = effective_maxDecisions options ->
            exists pre c,
              trace s' = trace s ++ pre
                         ++ [EvUpsertDecision c; EvDelay 100; EvUpsertMetadata "latest"]))
    /\ forall batch s0,
         limit_reached (effective_maxDecisions options) s0 = true ->
         for_summaries (simulated matches endpoint chat parse clk) options
           (effective_maxDecisions options) batch s0 = (Ok tt, s0).
Proof.
  intros matches endpoint chat parse clk options fuel s Hm Hfuel. split.
  - destruct (syncDecisions_simulated_returns matches endpoint chat parse clk options fuel s
                Hfuel) as (r & s' & Hrun).
    exists r, s'. split; [exact Hrun|].
    exact (syncDecisions_under_ceiling fuel _ options s r s' Hm Hrun).
  - intros batch s0. apply for_summaries_at_ceiling.
Qed.

(** [maxDecisions: 5] against ten matches. *)
Lemma ceiling_witness :
  exists r s',
    syncDecisions 2 (Demo.upstream_of 10)
      (set_maxDecisions (Some (JsInt 5)) Demo.no_options) Demo.fresh = (Ok r, s')
    /\ (Z.of_nat (synced r) <= 5)%Z
    /\ (Z.of_nat (synced r) = 5%Z ->
        exists pre c,
          trace s' = trace Demo.fresh ++ pre
                     ++ [EvUpsertDecision c; EvDelay 100; EvUpsertMetadata "latest"]).
Proof.
  refine (proj1 (ceiling_bounds_synced_items (Demo.many 10) Demo.serve_all Demo.chat_granted
                   Demo.parse_granted Demo.ticking
                   (set_maxDecisions (Some (JsInt 5)) Demo.no_options) 2 Demo.fresh _ _)).
  - reflexivity.
  - vm_compute. lia.
Defined.

Example ceiling_of_5_against_10 :
  let run := syncDecisions 2 (Demo.upstream_of 10)
               (set_maxDecisions (Some (JsInt 5)) Demo.no_options) Demo.fresh in
  match fst run with
  | Ok r => total r = 5 /\ synced r = 5 /\ errors r = []
  | _ => False
  end
  /\ List.map Decision.citationNumber (decisions_tbl (snd run)) = ["0"; "1"; "2"; "3"; "4"]
  /\ length (List.filter paging_event (trace (snd run))) = 1.
Proof. vm_compute. repeat split. Qed.

(** [maxDecisions: 1] against two matches, the first of which cannot be
    fetched: the failed item does not count against the ceiling, so both
    items are processed - two detail requests, [total = 2]. *)
Lemma ceiling_does_not_count_failed_items :
  let run := syncDecisions 2
               (Demo.world_with ["23-0001"; "23-0002"]
                  (Demo.serve "23-0001" (Rejected "fetch failed")))
               (set_maxDecisions (Some (JsInt 1)) Demo.no_options) Demo.fresh in
  fst run
  = Ok (mkSyncResult 2 1 0
          [mkSyncError "bva-23-0001" "23-0001" "Network error: fetch failed"]
          1700000000000%Z (Some 1700000000005%Z) (Some 5%Z))
  /\ detail_requests (trace (snd run)) = 2
  /\ List.map Decision.citationNumber (decisions_tbl (snd run)) = ["23-0002"].
Proof. vm_compute. repeat split. Qed.

(** ** Replaying writes (C1) *)

Lemma write_keys_present w v :
  List.existsb (same_citation (Decision.citationNumber w)) v = true ->
  List.map Decision.citationNumber (write w v) = List.map Decision.citationNumber v.
Proof.
  intros H. unfold write. rewrite H. rewrite List.map_map. apply map_ext.
  intros row. destruct (same_citation _ row) eqn:E; [|reflexivity].
  unfold same_citation in E. apply String.eqb_eq in E. now rewrite E.
Qed.

Lemma existsb_same_citation c v :
  List.existsb (same_citation c) v = true <-> In c (List.map Decision.citationNumber v).
Proof.
  rewrite existsb_exists, in_map_iff. unfold same_citation.
  split; intros (row & H1 & H2).
  - exists row. apply String.eqb_eq in H2. auto.
  - exists row. subst. split; [assumption|apply String.eqb_refl].
Qed.

Lemma write_keys_absent w v :
  List.existsb (same_citation (Decision.citationNumber w)) v = false ->
  List.map Decision.citationNumber (write w v)
  = List.map Decision.citationNumber v ++ [Decision.citationNumber w].
Proof. intros H. unfold write. rewrite H. now rewrite List.map_app. Qed.



Lemma write_has_key w v :
  In (Decision.citationNumber w) (List.map Decision.citationNumber (write w v)).
Proof.
  destruct (List.existsb (same_citation (Decision.citationNumber w)) v) eqn:E.
  - rewrite write_keys_present by exact E. now apply existsb_same_citation.
  - rewrite write_keys_absent by exact E. apply in_app_iff. right. now left.
Qed.




















(** ** The plan of an item *)

Lemma getDecision_served env c d s s' :
  getDecision env c s = (Ok d, s') -> served env c = Some d.
Proof.
  unfold getDecision, served. munfold.
  destruct (decision_endpoint env c) as [m|r]; [discriminate|].
  simpl. destruct (ok r); simpl.
  - destruct (json r) as [m|d']; [discriminate|]. congruence.
  - destruct (status r =? 404)%Z; discriminate.
Qed.


(** ** The store under a coherent upstream *)

















(** ** One record per citation number, and re-sync (C1) *)

Lemma upserted_citations values t tbl :
  List.map Decision.citationNumber (upserted values t tbl)
  = List.map Decision.citationNumber (write values tbl).
Proof.
  unfold upserted, write.
  destruct (List.existsb (same_citation (Decision.citationNumber values)) tbl);
    [|now rewrite !List.map_app].
  rewrite !List.map_map. apply map_ext. intros row.
  now destruct (same_citation (Decision.citationNumber values) row).
Qed.

















(** A re-sync whose classifier names no outcome keeps the outcome of the
    record it overwrites: the first run stores [Granted] with confidence
    0.9; the second, whose model answers [{}], hands over an [undefined]
    outcome and the confidence 0.5, and only the confidence is replaced. *)
Example resync_without_an_outcome_keeps_the_outcome :
  let s1 := snd (syncDecisions 3 (Demo.world ["23-0001"]) Demo.no_options Demo.fresh) in
  let s2 := snd (syncDecisions 3 Demo.world_empty_object Demo.no_options s1) in
  List.map (fun row => (Decision.citationNumber row, Decision.outcome row,
                        Decision.outcomeConfidence row)) (decisions_tbl s1)
  = [("23-0001", Val (JStr "Granted"), Val (JNum (9 # 10)))]
  /\ List.map (fun row => (Decision.citationNumber row, Decision.outcome row,
                           Decision.outcomeConfidence row)) (decisions_tbl s2)
     = [("23-0001", Val (JStr "Granted"), Val (JNum (1 # 2)))].
Proof. vm_compute. repeat split. Qed.

(** ** The status record of a run *)

Lemma process_summary_bookkeeping env options summary s :
  endTime (result (snd (process_summary env options summary s))) = endTime (result s)
  /\ sync_metadata_tbl (snd (process_summary env options summary s)) = sync_metadata_tbl s.
Proof.
  destruct (not_skipped_or_skipped options summary s) as [Hns|[Hskip Hex]].
  - destruct (process_summary_not_skipped env options summary s Hns)
      as [(e & t & u & evs & Hp & _)|(detail & paras & oc & _ & _ & _ & _ & Hp)];
      rewrite Hp; split; reflexivity.
  - rewrite process_summary_skipped by assumption. split; reflexivity.
Qed.

(** What a run that returns has written in the status table: the row of key
    [latest] - replaced where it stood, if it existed - carries the run's
    synced count, its status and its error summary, and a date read from the
    clock inside [updateSyncMetadata], one or two readings before the one
    that becomes the run's end time. *)
Lemma syncDecisions_status fuel env options s r s' :
  syncDecisions fuel env options s = (Ok r, s') ->
  exists k d,
    (d = clock env k \/ d = clock env (S k))
    /\ endTime r = Some (clock env (S (S k)))
    /\ List.find (same_key "latest") (sync_metadata_tbl s') = Some (status_row r d)
    /\ (List.existsb (same_key "latest") (sync_metadata_tbl s) = true ->
        length (sync_metadata_tbl s') = length (sync_metadata_tbl s)).
Proof.
  intros Hrun. rewrite syncDecisions_run in Hrun.
  assert (Hinv : endTime (result (snd (for_await_batches fuel env options
                                         (effective_maxDecisions options)
                                         (search_params options) GenStart
                                         (started env s)))) = None
                 /\ sync_metadata_tbl (snd (for_await_batches fuel env options
                                              (effective_maxDecisions options)
                                              (search_params options) GenStart
                                              (started env s)))
                    = sync_metadata_tbl s).
  { apply (for_await_batches_inv
             (fun s1 => endTime (result s1) = None
                        /\ sync_metadata_tbl s1 = sync_metadata_tbl s)
             (fun _ => True)); auto.
    - intros s1 s2 _ (evs & -> & _) HP. exact HP.
    - intros summary s1 _ [H1 H2].
      destruct (process_summary_bookkeeping env options summary s1) as [-> ->]. auto. }
  destruct (for_await_batches _ _ _ _ _ _ (started env s)) as [[[]|e|] s2];
    [|discriminate|discriminate].
  cbn [snd] in Hinv. destruct Hinv as [Hend Hmeta].
  rewrite (updateSyncMetadata_run env (result s2) s2 Hend) in Hrun.
  cbv zeta in Hrun. cbn [snd] in Hrun. injection Hrun as <- <-.
  unfold finished. st_simpl. rewrite Hmeta.
  destruct (status_written_latest (result s2) (clock env (ticks s2))
              (clock env (S (ticks s2))) (sync_metadata_tbl s)) as (d & Hfind & Hd).
  exists (ticks s2), d. split; [exact Hd|]. split; [reflexivity|].
  split; [exact Hfind|]. apply status_written_overwrites.
Qed.

(** ** The status record and the end time (C9) *)

(** The status table after a run that returns: it is written once, from the
    run's bookkeeping, with the two clock readings that precede the one that
    becomes the end time. *)
Lemma syncDecisions_status_write fuel env options s r s' :
  syncDecisions fuel env options s = (Ok r, s') ->
  exists k,
    endTime r = Some (clock env (S (S k)))
    /\ sync_metadata_tbl s'
       = status_written r (clock env k) (clock env (S k)) (sync_metadata_tbl s).
Proof.
  intros Hrun. rewrite syncDecisions_run in Hrun.
  assert (Hinv : endTime (result (snd (for_await_batches fuel env options
                                         (effective_maxDecisions options)
                                         (search_params options) GenStart
                                         (started env s)))) = None
                 /\ sync_metadata_tbl (snd (for_await_batches fuel env options
                                              (effective_maxDecisions options)
                                              (search_params options) GenStart
                                              (started env s)))
                    = sync_metadata_tbl s).
  { apply (for_await_batches_inv
             (fun s1 => endTime (result s1) = None
                        /\ sync_metadata_tbl s1 = sync_metadata_tbl s)
             (fun _ => True)); auto.
    - intros s1 s2 _ (evs & -> & _) HP. exact HP.
    - intros summary s1 _ [H1 H2].
      destruct (process_summary_bookkeeping env options summary s1) as [-> ->]. auto. }
  destruct (for_await_batches _ _ _ _ _ _ (started env s)) as [[[]|e|] s2];
    [|discriminate|discriminate].
  cbn [snd] in Hinv. destruct Hinv as [Hend Hmeta].
  rewrite (updateSyncMetadata_run env (result s2) s2 Hend) in Hrun.
  cbv zeta in Hrun. cbn [snd] in Hrun. injection Hrun as <- <-.
  exists (ticks s2). unfold finished. st_simpl. rewrite Hmeta.
  split; reflexivity.
Qed.

Lemma status_written_appends r i u tbl :
  List.existsb (same_key "latest") tbl = false ->
  status_written r i u tbl = tbl ++ [status_row r i].
Proof. intros H. unfold status_written. now rewrite H. Qed.

Lemma whole_seconds_between a b c :
  (a <= b <= c)%Z -> whole_seconds a = whole_seconds c -> whole_seconds b = whole_seconds c.
Proof.
  unfold whole_seconds. intros [H1 H2] H.
  pose proof (Z.div_le_mono a b 1000 ltac:(lia) H1).
  pose proof (Z.div_le_mono b c 1000 ltac:(lia) H2). lia.
Qed.

(** C9, as the code has it. After a run that returns, the status table
    holds one row more when it had none of key [latest], and as many rows as
    before when it had one, which is overwritten where it stood. The row of
    key [latest] then carries the synced count of the run, the status
    [completed_with_errors] if and only if the error list is not empty
    ([completed] otherwise), the error summary - none without errors, else
    the number of errors and the citation numbers of the first three - and a
    date that is not the run's end time: [updateSyncMetadata] is called while
    [result.endTime] is unset, so the date is read from the clock inside it,
    one or two readings before the reading that becomes the end time. The
    column keeps the whole seconds of that date; they are those of the end
    time when the clock does not go back and its readings around the write
    fall in one second. *)
Theorem status_row_is_dated_before_the_end_time :
  forall fuel env options s r s',
    syncDecisions fuel env options s = (Ok r, s') ->
    exists k d,
      (d = clock env k \/ d = clock env (S k))
      /\ endTime r = Some (clock env (S (S k)))
      /\ List.find (same_key "latest") (sync_metadata_tbl s')
         = Some (SyncMetadata.mk "latest" (DateAt d) (synced r) (sync_status r)
                   (errorSummary r))
      /\ ((clock env k <= clock env (S k) <= clock env (S (S k)))%Z ->
          whole_seconds (clock env k) = whole_seconds (clock env (S (S k))) ->
          whole_seconds d = whole_seconds (clock env (S (S k))))
      /\ (List.existsb (same_key "latest") (sync_metadata_tbl s) = true ->
          length (sync_metadata_tbl s') = length (sync_metadata_tbl s))
      /\ (List.existsb (same_key "latest") (sync_metadata_tbl s) = false ->
          sync_metadata_tbl s'
          = sync_metadata_tbl s
            ++ [SyncMetadata.mk "latest" (DateAt d) (synced r) (sync_status r)
                  (errorSummary r)])
      /\ (sync_status r = completed_with_errors <-> errors r <> [])
      /\ (sync_status r = completed <-> errors r = [])
      /\ (errors r = [] -> errorSummary r = None)
      /\ (errors r <> [] ->
          errorSummary r
          = Some (JsString.of_nat (length (errors r)) +:+ " errors: "
                  +:+ JsString.join ", " (List.map citationNumber (firstn 3 (errors r))))).
Proof.
  intros fuel env options s r s' Hrun.
  destruct (syncDecisions_status_write fuel env options s r s' Hrun) as (k & Hend & Htbl).
  assert (Hrest : (sync_status r = completed_with_errors <-> errors r <> [])
                  /\ (sync_status r = completed <-> errors r = [])
                  /\ (errors r = [] -> errorSummary r = None)
                  /\ (errors r <> [] ->
                      errorSummary r
                      = Some (JsString.of_nat (length (errors r)) +:+ " errors: "
                              +:+ JsString.join ", "
                                    (List.map citationNumber (firstn 3 (errors r)))))).
  { split; [apply sync_status_iff|]. split.
    - unfold sync_status. destruct (errors r); simpl; split; congruence.
    - split; [apply errorSummary_none|apply errorSummary_some]. }
  destruct (List.existsb (same_key "latest") (sync_metadata_tbl s)) eqn:Hex.
  - exists k, (clock env (S k)). split; [now right|]. split; [exact Hend|].
    destruct (status_written_latest r (clock env k) (clock env (S k)) (sync_metadata_tbl s))
      as (d & Hfind & Hd).
    split; [|split; [|split; [|split; [discriminate|exact Hrest]]]].
    + rewrite Htbl. unfold status_written. rewrite Hex.
      clear Hd Hfind d Htbl.
      induction (sync_metadata_tbl s) as [|row tbl IH]; [discriminate|].
      cbn [List.map List.find]. cbn [List.existsb] in Hex.
      destruct (same_key "latest" row) eqn:Hrow; [reflexivity|].
      rewrite Hrow. apply IH. exact Hex.
    + intros Hmono Hsec. apply (whole_seconds_between (clock env k)); [exact Hmono|exact Hsec].
    + intros _. rewrite Htbl. now apply status_written_overwrites.
  - exists k, (clock env k). split; [now left|]. split; [exact Hend|].
    rewrite Htbl, (status_written_appends _ _ _ _ Hex).
    split; [|split; [|split; [discriminate|split; [reflexivity|exact Hrest]]]].
    + clear Htbl. induction (sync_metadata_tbl s) as [|row tbl IH].
      * reflexivity.
      * cbn [List.existsb] in Hex. apply orb_false_iff in Hex as [Hrow Hex].
        cbn [app List.find]. rewrite Hrow. apply IH. exact Hex.
    + intros _ Hsec. exact Hsec.
Qed.

(** A run over one decision, from an empty store, by a clock that ticks once
    per reading. *)
Lemma status_row_is_dated_before_the_end_time_witness :
  let env := Demo.world ["23-0001"] in
  let run := syncDecisions 3 env Demo.no_options Demo.fresh in
  let r := result (snd run) in
  let s' := snd run in
  exists k d,
    (d = clock env k \/ d = clock env (S k))
    /\ endTime r = Some (clock env (S (S k)))
    /\ List.find (same_key "latest") (sync_metadata_tbl s')
       = Some (SyncMetadata.mk "latest" (DateAt d) (synced r) (sync_status r)
                 (errorSummary r))
    /\ ((clock env k <= clock env (S k) <= clock env (S (S k)))%Z ->
        whole_seconds (clock env k) = whole_seconds (clock env (S (S k))) ->
        whole_seconds d = whole_seconds (clock env (S (S k))))
    /\ (List.existsb (same_key "latest") (sync_metadata_tbl Demo.fresh) = true ->
        length (sync_metadata_tbl s') = length (sync_metadata_tbl Demo.fresh))
    /\ (List.existsb (same_key "latest") (sync_metadata_tbl Demo.fresh) = false ->
        sync_metadata_tbl s'
        = sync_metadata_tbl Demo.fresh
          ++ [SyncMetadata.mk "latest" (DateAt d) (synced r) (sync_status r)
                (errorSummary r)])
    /\ (sync_status r = completed_with_errors <-> errors r <> [])
    /\ (sync_status r = completed <-> errors r = [])
    /\ (errors r = [] -> errorSummary r = None)
    /\ (errors r <> [] ->
        errorSummary r
        = Some (JsString.of_nat (length (errors r)) +:+ " errors: "
                +:+ JsString.join ", " (List.map citationNumber (firstn 3 (errors r))))).
Proof.
  apply (status_row_is_dated_before_the_end_time 3 (Demo.world ["23-0001"]) Demo.no_options
           Demo.fresh
           (result (snd (syncDecisions 3 (Demo.world ["23-0001"]) Demo.no_options Demo.fresh)))
           (snd (syncDecisions 3 (Demo.world ["23-0001"]) Demo.no_options Demo.fresh))).
  vm_compute. reflexivity.
Defined.

(** The date of the status row is not the end time of the run, also in whole
    seconds. The store holds a status row of an earlier run; by a clock that
    advances 400 ms per reading, the run over one decision ends at
    1700000002000 ms, in second 1700000002. The date written over the status
    row was read 400 ms earlier, at 1700000001600 ms, and the column keeps
    second 1700000001. *)
Lemma status_date_is_not_the_end_time :
  let earlier := SyncMetadata.mk "latest" (DateAt 1600000000000%Z) 7 completed None in
  let run := syncDecisions 3 Demo.slow_world Demo.no_options
               (set_sync_metadata_tbl [earlier] Demo.fresh) in
  fst run = Ok (mkSyncResult 1 1 0 [] 1700000000000%Z (Some 1700000002000%Z) (Some 2000%Z))
  /\ sync_metadata_tbl (snd run)
     = [SyncMetadata.mk "latest" (DateAt 1700000001600%Z) 1 completed None]
  /\ List.map (fun row => stored_seconds (SyncMetadata.lastSyncDate row))
       (sync_metadata_tbl (snd run))
     = [Some 1700000001%Z]
  /\ option_map whole_seconds (endTime (result (snd run))) = Some 1700000002%Z.
Proof. vm_compute. repeat split. Qed.

(** ** What a request throws *)

Lemma searchDecisions_throws env params s e s' :
  searchDecisions env params s = (Throw e, s') -> exists m code, e = BVAApiError m code.
Proof.
  unfold searchDecisions. munfold.
  destruct (search_endpoint env (queryParams params)) as [m|r]; simpl.
  - intros [= <- _]. eauto.
  - destruct (ok r); simpl.
    + destruct (json r) as [m|d]; [|discriminate]. intros [= <- _]. eauto.
    + intros [= <- _]. eauto.
Qed.

(** ** The default confidence *)

(** A reply with an outcome and no confidence (or a confidence of 0) gets
    the confidence 0.5. *)
Lemma extractOutcome_default_confidence env detail raw text fields o s :
  raw_text detail = Some raw ->
  chat_completions_create env (request_for detail) = inr (Some text) ->
  JSON_parse env text = inr (JObj fields) ->
  assoc "outcome" fields = Some o ->
  truthy (match assoc "confidence" fields with Some x => Val x | None => Undefined end)
  = false ->
  extractOutcome env detail s
  = (Ok (Val o, Val (JNum (1 # 2))), requested (EvGenerate (request_for detail)) s).
Proof.
  intros Hraw Hchat Hparse Ho Hc. unfold extractOutcome, generate.
  unfold request_for in *. rewrite Hraw in *.
  change (default "" (Some raw)) with raw in *. munfold.
  rewrite Hchat. change (default "" (Some text)) with text.
  rewrite Hparse. cbn [get_prop]. rewrite Ho.
  unfold js_or. rewrite Hc. reflexivity.
Qed.

(** ** Section labels: [normalizeSectionName] *)

Lemma trimEnd_idempotent s : JsString.trimEnd (JsString.trimEnd s) = JsString.trimEnd s.
Proof.
  induction s as [|c r IH]; [reflexivity|].
  cbn [JsString.trimEnd].
  destruct (JsString.trimEnd r) as [|d r'] eqn:E.
  - destruct (JsString.is_whitespace c) eqn:W; [reflexivity|].
    cbn [JsString.trimEnd]. now rewrite W.
  - cbn [JsString.trimEnd]. cbn [JsString.trimEnd] in IH.
    rewrite IH. reflexivity.
Qed.

Lemma trimStart_head s :
  match JsString.trimStart s with
  | EmptyString => True
  | String c _ => JsString.is_whitespace c = false
  end.
Proof.
  induction s as [|c r IH]; [exact I|].
  cbn [JsString.trimStart]. destruct (JsString.is_whitespace c) eqn:W; [exact IH|exact W].
Qed.

Lemma trimEnd_head c r :
  JsString.is_whitespace c = false ->
  exists r', JsString.trimEnd (String c r) = String c r'.
Proof.
  intros W. cbn [JsString.trimEnd].
  destruct (JsString.trimEnd r); [rewrite W|]; eauto.
Qed.

Lemma trim_idempotent s : JsString.trim (JsString.trim s) = JsString.trim s.
Proof.
  unfold JsString.trim.
  pose proof (trimStart_head s) as H.
  destruct (JsString.trimStart s) as [|c r]; [reflexivity|].
  destruct (trimEnd_head c r H) as [r' E]. rewrite E.
  cbn [JsString.trimStart]. rewrite H, <- E. apply trimEnd_idempotent.
Qed.

Lemma startsWith_nil_r p : p <> EmptyString -> JsString.startsWith p EmptyString = false.
Proof. destruct p; [congruence|reflexivity]. Qed.

Lemma eqb_whitespace a c :
  JsString.is_whitespace a = false -> JsString.is_whitespace c = true -> Ascii.eqb a c = false.
Proof.
  intros Ha Hc. destruct (Ascii.eqb_spec a c) as [->|]; [congruence|reflexivity].
Qed.

Lemma startsWith_trimEnd x :
  forall p, solid p = true ->
    JsString.startsWith p (JsString.trimEnd x) = JsString.startsWith p x.
Proof.
  induction x as [|c r IH]; intros p Hp; [reflexivity|].
  destruct p as [|a p']; [reflexivity|].
  cbn [solid] in Hp. apply andb_true_iff in Hp as [Ha Hp'].
  apply negb_true_iff in Ha.
  specialize (IH p' Hp').
  cbn [JsString.trimEnd].
  destruct (JsString.trimEnd r) as [|d r'] eqn:E.
  - destruct (JsString.is_whitespace c) eqn:W.
    + cbn [JsString.startsWith]. now rewrite (eqb_whitespace a c Ha W).
    + cbn [JsString.startsWith]. destruct (Ascii.eqb a c); [exact IH|reflexivity].
  - cbn [JsString.startsWith]. destruct (Ascii.eqb a c); [exact IH|reflexivity].
Qed.

Lemma includes_nil p : p <> EmptyString -> JsString.includes EmptyString p = false.
Proof. intros H. cbn [JsString.includes]. now rewrite startsWith_nil_r. Qed.

Lemma includes_trimEnd x p :
  solid p = true -> p <> EmptyString ->
  JsString.includes (JsString.trimEnd x) p = JsString.includes x p.
Proof.
  intros Hs Hne. induction x as [|c r IH]; [reflexivity|].
  pose proof (startsWith_trimEnd (String c r) p Hs) as Hsw.
  cbn [JsString.includes]. rewrite <- Hsw, <- IH.
  cbn [JsString.trimEnd].
  destruct (JsString.trimEnd r) as [|d r'] eqn:E.
  - rewrite (includes_nil p Hne), orb_false_r.
    destruct (JsString.is_whitespace c).
    + cbn [JsString.includes]. now rewrite orb_false_r.
    + cbn [JsString.includes]. rewrite (startsWith_nil_r p Hne). now rewrite !orb_false_r.
  - reflexivity.
Qed.

Lemma includes_trimStart x p :
  solid p = true -> p <> EmptyString ->
  JsString.includes (JsString.trimStart x) p = JsString.includes x p.
Proof.
  intros Hs Hne. destruct p as [|a p']; [congruence|].
  cbn [solid] in Hs. apply andb_true_iff in Hs as [Ha _]. apply negb_true_iff in Ha.
  induction x as [|c r IH]; [reflexivity|].
  cbn [JsString.trimStart]. destruct (JsString.is_whitespace c) eqn:W; [|reflexivity].
  rewrite IH. cbn [JsString.includes JsString.startsWith].
  now rewrite (eqb_whitespace a c Ha W).
Qed.

Lemma includes_trim x p :
  solid p = true -> p <> EmptyString ->
  JsString.includes (JsString.trim x) p = JsString.includes x p.
Proof.
  intros Hs Hne. unfold JsString.trim.
  now rewrite includes_trimEnd, includes_trimStart.
Qed.

Lemma is_whitespace_lower c :
  JsString.is_whitespace (JsString.lower_char c) = JsString.is_whitespace c.
Proof. destruct c as [[] [] [] [] [] [] [] []]; reflexivity. Qed.

Lemma toLowerCase_trimStart s :
  JsString.toLowerCase (JsString.trimStart s) = JsString.trimStart (JsString.toLowerCase s).
Proof.
  induction s as [|c r IH]; [reflexivity|].
  cbn [JsString.trimStart JsString.toLowerCase]. rewrite is_whitespace_lower.
  destruct (JsString.is_whitespace c); [exact IH|reflexivity].
Qed.

Lemma toLowerCase_trimEnd s :
  JsString.toLowerCase (JsString.trimEnd s) = JsString.trimEnd (JsString.toLowerCase s).
Proof.
  induction s as [|c r IH]; [reflexivity|].
  cbn [JsString.trimEnd JsString.toLowerCase]. rewrite <- IH, is_whitespace_lower.
  destruct (JsString.trimEnd r); cbn [JsString.toLowerCase];
    [destruct (JsString.is_whitespace c)|]; reflexivity.
Qed.

Lemma toLowerCase_trim s :
  JsString.toLowerCase (JsString.trim s) = JsString.trim (JsString.toLowerCase s).
Proof. unfold JsString.trim. now rewrite toLowerCase_trimEnd, toLowerCase_trimStart. Qed.

(** The tests of [normalizeSectionName] never depend on the trimming, and the
    test for [introduction] is covered by the one for [intro]: the result is
    decided by plain substring tests on the lower-cased label, in the order of
    the source; a label that passes none is returned as written. *)
Theorem normalizeSectionName_precedence :
  forall label,
    let has := JsString.includes (JsString.toLowerCase label) in
    normalizeSectionName label
    = if has "intro" then "introduction"
      else if has "finding" || has "fact" then "findings_of_fact"
      else if has "analysis" || has "discussion" then "analysis"
      else if has "reason" && has "base" then "reasons_and_bases"
      else if has "conclusion" || has "order" then "conclusion"
      else if has "evidence" then "evidence"
      else if has "procedural" then "procedural_history"
      else label.
Proof.
  intros label has. unfold normalizeSectionName.
  rewrite !includes_trim by (reflexivity || discriminate).
  fold has.
  assert (Hintro : has "introduction" = true -> has "intro" = true).
  { subst has. generalize (JsString.toLowerCase label). intros x.
    induction x as [|c r IH]; [discriminate|].
    cbn [JsString.includes]. intros H. apply orb_true_iff in H as [H|H].
    - apply orb_true_iff. left.
      cbn [JsString.startsWith] in *.
      destruct (Ascii.eqb _ c); [|discriminate].
      destruct r as [|c1 r]; [discriminate|]. destruct (Ascii.eqb _ c1); [|discriminate].
      destruct r as [|c2 r]; [discriminate|]. destruct (Ascii.eqb _ c2); [|discriminate].
      destruct r as [|c3 r]; [discriminate|]. destruct (Ascii.eqb _ c3); [|discriminate].
      destruct r as [|c4 r]; [discriminate|]. destruct (Ascii.eqb _ c4); [|discriminate].
      reflexivity.
    - apply orb_true_iff. right. now apply IH. }
  destruct (has "introduction") eqn:E1.
  - now rewrite (Hintro eq_refl).
  - reflexivity.
Qed.

Lemma normalizeSectionName_cases label :
  normalizeSectionName label = label
  \/ In (normalizeSectionName label)
       ["introduction"; "findings_of_fact"; "analysis"; "reasons_and_bases";
        "conclusion"; "evidence"; "procedural_history"].
Proof.
  unfold normalizeSectionName.
  repeat match goal with
         | |- context [if ?c then _ else _] => destruct c
         end; simpl; tauto.
Qed.

(** Normalising twice is normalising once: each of the seven standard names
    is sent to itself, and a label that passes no test is returned as it
    is. *)
Theorem normalizeSectionName_idempotent :
  forall label,
    normalizeSectionName (normalizeSectionName label) = normalizeSectionName label.
Proof.
  intros label. destruct (normalizeSectionName_cases label) as [H|H].
  - now rewrite H.
  - simpl in H. repeat destruct H as [H|H]; try contradiction; rewrite <- H; reflexivity.
Qed.

(** Letter case and surrounding white space never decide the standard name:
    two labels that agree once trimmed and lower-cased get the same standard
    name, or pass no test and are both returned as written (neither trimmed
    nor lower-cased). *)
Theorem normalizeSectionName_ignores_case_and_padding :
  forall a b,
    JsString.toLowerCase (JsString.trim a) = JsString.toLowerCase (JsString.trim b) ->
    normalizeSectionName a = normalizeSectionName b
    \/ (normalizeSectionName a = a /\ normalizeSectionName b = b).
Proof.
  intros a b H. rewrite !toLowerCase_trim in H.
  unfold normalizeSectionName. rewrite H.
  repeat match goal with
         | |- context [if ?c then _ else _] => destruct c
         end; auto.
Qed.

Lemma normalizeSectionName_ignores_case_and_padding_witness :
  normalizeSectionName "  FINDINGS of Fact " = normalizeSectionName "findings of fact"
  \/ (normalizeSectionName "  FINDINGS of Fact " = "  FINDINGS of Fact "
      /\ normalizeSectionName "findings of fact" = "findings of fact").
Proof.
  apply (normalizeSectionName_ignores_case_and_padding "  FINDINGS of Fact " "findings of fact").
  reflexivity.
Defined.

(** ** The sections kept for embedding: [extractKeySections] *)

Lemma keySections_lookup (sections : gmap string string) (l : list string) :
  forall (acc : gmap string string) (k : string),
    fold_left
      (fun acc section =>
         match sections !! section with
         | Some v => if String.eqb v "" then acc else <[section := v]> acc
         | None => acc
         end) l acc !! k
    = if List.existsb (String.eqb k) l
      then match present sections k with Some v => Some v | None => acc !! k end
      else acc !! k.
Proof.
  induction l as [|p l IH]; intros acc k; [reflexivity|].
  cbn [fold_left List.existsb]. rewrite IH. unfold present.
  destruct (String.eqb_spec k p) as [->|Hne]; cbn [orb].
  - destruct (sections !! p) as [v|] eqn:Hp.
    + destruct (String.eqb v ""); [now destruct (List.existsb _ l)|].
      rewrite lookup_insert_eq. now destruct (List.existsb _ l).
    + now destruct (List.existsb _ l).
  - assert (Hacc : match sections !! p with
                   | Some v => if String.eqb v "" then acc else <[p := v]> acc
                   | None => acc
                   end !! k = acc !! k).
    { destruct (sections !! p) as [v|]; [|reflexivity].
      destruct (String.eqb v ""); [reflexivity|]. now rewrite lookup_insert_ne. }
    rewrite Hacc. reflexivity.
Qed.

Lemma extractKeySections_lookup (sections : gmap string string) (k : string) :
  extractKeySections sections !! k
  = if List.existsb (fun p => bool_decide (is_Some (present sections p))) prioritySections
    then (if is_priority k then present sections k else None)
    else sections !! k.
Proof.
  unfold extractKeySections.
  set (ks := fold_left _ prioritySections ∅).
  assert (Hks : forall j, ks !! j = if is_priority j then present sections j else None).
  { intros j. subst ks. rewrite keySections_lookup, lookup_empty. fold (is_priority j).
    destruct (is_priority j); [|reflexivity]. now destruct (present sections j). }
  destruct (List.existsb _ prioritySections) eqn:Hex.
  - apply existsb_exists in Hex as (p & Hin & Hp). apply bool_decide_eq_true in Hp.
    assert (Hpk : ks !! p = present sections p).
    { rewrite Hks. unfold is_priority.
      replace (List.existsb (String.eqb p) prioritySections) with true; [reflexivity|].
      symmetry. apply existsb_exists. exists p. split; [exact Hin|apply String.eqb_refl]. }
    destruct (Nat.eqb_spec (size ks) 0) as [Hsz|Hsz].
    + apply map_size_empty_iff in Hsz. rewrite Hsz, lookup_empty in Hpk.
      rewrite <- Hpk in Hp. destruct Hp as [? Hp]. discriminate.
    + apply Hks.
  - destruct (Nat.eqb_spec (size ks) 0) as [Hsz|Hsz]; [reflexivity|].
    exfalso. apply Hsz. apply map_size_empty_iff. apply map_eq. intros j.
    rewrite lookup_empty, Hks. unfold is_priority.
    destruct (List.existsb (String.eqb j) prioritySections) eqn:Hj; [|reflexivity].
    apply existsb_exists in Hj as (p & Hin & Hp). apply String.eqb_eq in Hp. subst p.
    destruct (present sections j) eqn:Hpres; [|reflexivity].
    assert (Hcontra : List.existsb (fun p => bool_decide (is_Some (present sections p)))
                        prioritySections = true).
    { apply existsb_exists. exists j. split; [exact Hin|].
      apply bool_decide_eq_true. rewrite Hpres. eauto. }
    congruence.
Qed.

Lemma present_lookup (sections : gmap string string) k v :
  present sections k = Some v -> sections !! k = Some v.
Proof.
  unfold present. destruct (sections !! k) as [w|]; [|discriminate].
  destruct (String.eqb w ""); [discriminate|]. auto.
Qed.

Lemma no_priority_present (sections : gmap string string) :
  List.existsb (fun p => bool_decide (is_Some (present sections p))) prioritySections = false
  <-> forall p, In p prioritySections -> present sections p = None.
Proof.
  split.
  - intros H p Hin. destruct (present sections p) eqn:E; [|reflexivity].
    assert (List.existsb (fun p => bool_decide (is_Some (present sections p)))
              prioritySections = true); [|congruence].
    apply existsb_exists. exists p. split; [exact Hin|].
    apply bool_decide_eq_true. rewrite E. eauto.
  - intros H. destruct (List.existsb _ prioritySections) eqn:E; [|reflexivity].
    apply existsb_exists in E as (p & Hin & Hp). apply bool_decide_eq_true in Hp.
    rewrite (H p Hin) in Hp. destruct Hp. discriminate.
Qed.

(** [extractKeySections] returns entries of the mapping it is given, never
    an entry of its own. When none of the four priority keys holds a
    non-empty text it returns the whole mapping; when one does, it returns
    the priority keys that hold a non-empty text, with their texts, and
    nothing else. *)
Theorem extractKeySections_selects :
  forall sections : gmap string string,
    extractKeySections sections ⊆ sections
    /\ ((forall p, In p prioritySections -> present sections p = None) ->
        extractKeySections sections = sections)
    /\ (forall p, In p prioritySections -> present sections p <> None ->
        forall k, extractKeySections sections !! k
                  = if is_priority k then present sections k else None).
Proof.
  intros sections. split; [|split].
  - apply map_subseteq_spec. intros k v. rewrite extractKeySections_lookup.
    destruct (List.existsb _ prioritySections); [|auto].
    destruct (is_priority k); [apply present_lookup|discriminate].
  - intros H. apply map_eq. intros k. rewrite extractKeySections_lookup.
    apply no_priority_present in H. now rewrite H.
  - intros p Hin Hp k. rewrite extractKeySections_lookup.
    destruct (List.existsb _ prioritySections) eqn:E; [reflexivity|].
    rewrite no_priority_present in E. now rewrite (E p Hin) in Hp.
Qed.

(** Selecting twice is selecting once. *)
Theorem extractKeySections_idempotent :
  forall sections : gmap string string,
    extractKeySections (extractKeySections sections) = extractKeySections sections.
Proof.
  intros sections. apply map_eq. intros k.
  rewrite (extractKeySections_lookup (extractKeySections sections)).
  assert (Hpres : forall j, is_priority j = true ->
                            present (extractKeySections sections) j = present sections j).
  { intros j Hj. unfold present at 1. rewrite extractKeySections_lookup.
    destruct (List.existsb _ prioritySections); [rewrite Hj|reflexivity].
    unfold present. destruct (sections !! j) as [v|]; [|reflexivity].
    destruct (String.eqb v "") eqn:Ev; [reflexivity|now rewrite Ev]. }
  assert (Hsame : List.existsb (fun p => bool_decide (is_Some (present (extractKeySections
                                                                           sections) p)))
                    prioritySections
                  = List.existsb (fun p => bool_decide (is_Some (present sections p)))
                      prioritySections).
  { unfold prioritySections. cbn [List.existsb].
    rewrite !Hpres by reflexivity. reflexivity. }
  rewrite Hsame, (extractKeySections_lookup sections k).
  destruct (List.existsb (fun p => bool_decide (is_Some (present sections p)))
              prioritySections); [|reflexivity].
  destruct (is_priority k) eqn:Hk; [now apply Hpres|reflexivity].
Qed.

(** ** The record built by [parseBVADecision] *)

Lemma parseBVADecision_ok env detail s row s' :
  parseBVADecision env detail s = (Ok row, s') ->
  paragraphs detail = Some (Decision.paragraphs row)
  /\ Decision.sections row = group_sections (Decision.paragraphs row)
  /\ row = parsed_row detail (Decision.paragraphs row) (uuid (uuids s)) (clock env (ticks s))
  /\ s' = set_ticks (S (ticks s)) (set_uuids (S (uuids s)) s).
Proof.
  rewrite parseBVADecision_run. destruct (paragraphs detail) as [paras|]; [|discriminate].
  intros [= <- <-]. repeat split; reflexivity.
Qed.

Lemma bucket_texts_nil k paras :
  bucket_texts k paras = [] <-> forall p, In p paras -> sectionName p <> k.
Proof.
  unfold bucket_texts. split.
  - intros H p Hin Hk. apply map_eq_nil in H.
    assert (Hf : In p (List.filter (fun p => String.eqb (sectionName p) k) paras)).
    { apply filter_In. split; [exact Hin|]. now apply String.eqb_eq. }
    rewrite H in Hf. destruct Hf.
  - intros H. induction paras as [|p ps IH]; [reflexivity|].
    cbn [List.filter]. destruct (String.eqb_spec (sectionName p) k) as [E|E].
    + exfalso. apply (H p); [now left|exact E].
    + apply IH. intros q Hq. apply H. now right.
Qed.

Lemma classic_bucket k (paras : list Paragraph) :
  (exists p, In p paras /\ sectionName p = k) \/ (forall p, In p paras -> sectionName p <> k).
Proof.
  induction paras as [|p ps [(q & Hq & Hk)|IH]].
  - right. intros p [].
  - left. exists q. split; [now right|exact Hk].
  - destruct (String.eqb_spec (sectionName p) k) as [E|E].
    + left. exists p. split; [now left|exact E].
    + right. intros q [<-|Hq]; [exact E|now apply IH].
Qed.

Lemma group_sections_is_Some paras k :
  is_Some (group_sections paras !! k)
  <-> k <> "__proto__" /\ exists p, In p paras /\ sectionName p = k.
Proof.
  rewrite group_sections_lookup.
  destruct (String.eqb_spec k "__proto__") as [Hk|Hk].
  - split; [intros [? H]; discriminate|tauto].
  - split.
    + intros H. split; [exact Hk|].
      destruct (bucket_texts k paras) as [|t ts] eqn:E.
      * destruct H. discriminate.
      * destruct (classic_bucket k paras) as [Hex|Hno]; [exact Hex|].
        apply bucket_texts_nil in Hno. congruence.
    + intros (_ & p & Hin & Hp). destruct (bucket_texts k paras) as [|t ts] eqn:E; [|eauto].
      exfalso. rewrite bucket_texts_nil in E. exact (E p Hin Hp).
Qed.

Lemma existsb_eqb_In (s : string) (l : list string) :
  List.existsb (String.eqb s) l = true <-> In s l.
Proof.
  rewrite existsb_exists. split.
  - intros (x & Hin & Hx). apply String.eqb_eq in Hx. now subst.
  - intros H. exists s. split; [exact H|apply String.eqb_refl].
Qed.

Lemma identify_fold (paras : list Paragraph) :
  forall acc,
    let out := fold_left
                 (fun sections para =>
                    match section para with
                    | Some s =>
                        if String.eqb s "" then sections
                        else if List.existsb (String.eqb s) sections then sections
                        else sections ++ [s]
                    | None => sections
                    end) paras acc in
    (List.NoDup acc -> List.NoDup out)
    /\ (forall l, In l out
                  <-> In l acc \/ (l <> "" /\ exists p, In p paras /\ section p = Some l))
    /\ exists ext, out = acc ++ ext /\ sublist ext (omap section paras).
Proof.
  induction paras as [|p ps IH]; intros acc; cbv zeta.
  - cbn [fold_left]. split; [auto|]. split.
    + intros l. split; [auto|]. intros [H|(_ & q & [] & _)]. exact H.
    + exists []. split; [now rewrite app_nil_r|constructor].
  - cbn [fold_left omap list_omap].
    destruct (section p) as [lab|] eqn:Hsec.
    + destruct (String.eqb_spec lab "") as [Hlab|Hlab].
      * destruct (IH acc) as (H1 & H2 & ext & H3 & H4). split; [exact H1|]. split.
        -- intros l. rewrite H2. split.
           ++ intros [H|(Hl & q & Hq & Hs)]; [now left|].
              right. split; [exact Hl|]. exists q. split; [now right|exact Hs].
           ++ intros [H|(Hl & q & [<-|Hq] & Hs)]; [now left| |].
              ** congruence.
              ** right. split; [exact Hl|]. now exists q.
        -- exists ext. split; [exact H3|]. now constructor.
      * destruct (List.existsb (String.eqb lab) acc) eqn:Hex.
        -- apply existsb_eqb_In in Hex.
           destruct (IH acc) as (H1 & H2 & ext & H3 & H4). split; [exact H1|]. split.
           ++ intros l. rewrite H2. split.
              ** intros [H|(Hl & q & Hq & Hs)]; [now left|].
                 right. split; [exact Hl|]. exists q. split; [now right|exact Hs].
              ** intros [H|(Hl & q & [<-|Hq] & Hs)]; [now left| |].
                 --- left. congruence.
                 --- right. split; [exact Hl|]. now exists q.
           ++ exists ext. split; [exact H3|]. now constructor.
        -- assert (Hnin : ~ In lab acc).
           { intros H. apply existsb_eqb_In in H. congruence. }
           destruct (IH (acc ++ [lab])) as (H1 & H2 & ext & H3 & H4). split; [|split].
           ++ intros Hnd. apply H1.
              apply List.NoDup_app; [exact Hnd|repeat constructor; intros []|].
              intros x Hx [<-|[]]. exact (Hnin Hx).
           ++ intros l. rewrite H2, in_app_iff. cbn [In]. split.
              ** intros [[H|[<-|[]]]|(Hl & q & Hq & Hs)].
                 --- now left.
                 --- right. split; [exact Hlab|]. exists p. split; [now left|exact Hsec].
                 --- right. split; [exact Hl|]. exists q. split; [now right|exact Hs].
              ** intros [H|(Hl & q & [<-|Hq] & Hs)].
                 --- left. now left.
                 --- left. right. left. congruence.
                 --- right. split; [exact Hl|]. now exists q.
           ++ exists (lab :: ext). split; [now rewrite H3, <- app_assoc|].
              now constructor.
    + destruct (IH acc) as (H1 & H2 & ext & H3 & H4). split; [exact H1|]. split.
      * intros l. rewrite H2. split.
        -- intros [H|(Hl & q & Hq & Hs)]; [now left|].
           right. split; [exact Hl|]. exists q. split; [now right|exact Hs].
        -- intros [H|(Hl & q & [<-|Hq] & Hs)]; [now left| |].
           ++ congruence.
           ++ right. split; [exact Hl|]. now exists q.
      * exists ext. split; [exact H3|exact H4].
Qed.

Lemma identifySectionTypes_In paras l :
  In l (identifySectionTypes paras)
  <-> l <> "" /\ exists p, In p paras /\ section p = Some l.
Proof.
  destruct (identify_fold paras []) as (_ & H2 & _).
  fold (identifySectionTypes paras) in *. rewrite H2. cbn [In]. tauto.
Qed.

(** [identifySectionTypes] lists each label once: its result has no
    duplicate, holds exactly the non-empty labels that some paragraph
    carries, and keeps them in the order of the paragraphs. Paragraphs
    without a label (or with the empty one) contribute nothing. *)
Theorem identifySectionTypes_lists_each_label_once :
  forall paras,
    List.NoDup (identifySectionTypes paras)
    /\ (forall l, In l (identifySectionTypes paras)
                  <-> l <> "" /\ exists p, In p paras /\ section p = Some l)
    /\ sublist (identifySectionTypes paras) (omap section paras).
Proof.
  intros paras. destruct (identify_fold paras []) as (H1 & _ & ext & H3 & H4).
  fold (identifySectionTypes paras) in *. split; [apply H1; constructor|]. split.
  - intros l. apply identifySectionTypes_In.
  - rewrite H3. exact H4.
Qed.

(** The sections of a parsed decision are grouped by the label as written:
    the text under a key is made of the paragraphs whose own label is that
    key ([content] for a paragraph with no label or an empty one), in
    paragraph order, a blank line after each, the whole then trimmed; a key
    that no paragraph carries is absent. The mapping being a plain object,
    two kinds of label fare differently: under the name of a method of
    [Object.prototype] the text starts with the text of that method, and
    under [__proto__] nothing is stored. *)
Theorem parseBVADecision_groups_by_label :
  forall env detail s row s',
    parseBVADecision env detail s = (Ok row, s') ->
    paragraphs detail = Some (Decision.paragraphs row)
    /\ forall k,
         Decision.sections row !! k
         = if String.eqb k "__proto__" then None
           else match bucket_texts k (Decision.paragraphs row) with
                | [] => None
                | ts => Some (JsString.trim
                                (default "" (inherited k) +:+ blank_line_joined ts))
                end.
Proof.
  intros env detail s row s' H.
  destruct (parseBVADecision_ok _ _ _ _ _ H) as (Hp & Hs & _).
  split; [exact Hp|]. intros k. rewrite Hs. apply group_sections_lookup.
Qed.

Lemma parseBVADecision_groups_by_label_witness :
  paragraphs Demo.odd_labels = Some (Decision.paragraphs Demo.parsed_odd_labels)
  /\ forall k,
       Decision.sections Demo.parsed_odd_labels !! k
       = if String.eqb k "__proto__" then None
         else match bucket_texts k (Decision.paragraphs Demo.parsed_odd_labels) with
              | [] => None
              | ts => Some (JsString.trim
                              (default "" (inherited k) +:+ blank_line_joined ts))
              end.
Proof.
  apply (parseBVADecision_groups_by_label (Demo.world []) Demo.odd_labels Demo.fresh
           Demo.parsed_odd_labels Demo.after_parse).
  reflexivity.
Defined.

(** The decision of the example has paragraphs under [Order], under no
    label, under [constructor] and under [__proto__]. *)
Example sections_of_odd_labels :
  Decision.sections Demo.parsed_odd_labels !! "Order"
  = Some ("Service connection is granted." +:+ JsString.LF +:+ JsString.LF
          +:+ "The claim is allowed.")
  /\ Decision.sections Demo.parsed_odd_labels !! "content" = Some "The appeal is allowed."
  /\ Decision.sections Demo.parsed_odd_labels !! "constructor"
     = Some "function Object() { [native code] }T"
  /\ Decision.sections Demo.parsed_odd_labels !! "__proto__" = None
  /\ size (Decision.sections Demo.parsed_odd_labels) = 3.
Proof. vm_compute. repeat split. Qed.

(** The keys of the sections of a parsed decision are the labels that
    [identifySectionTypes] lists, and [content] besides when a paragraph has
    no label (or the empty one) - but for [__proto__], which
    [identifySectionTypes] lists and under which nothing is stored. *)
Theorem section_keys_are_the_labels :
  forall env detail s row s',
    parseBVADecision env detail s = (Ok row, s') ->
    forall k,
      is_Some (Decision.sections row !! k)
      <-> k <> "__proto__"
          /\ (In k (identifySectionTypes (Decision.paragraphs row))
              \/ (k = "content"
                  /\ exists p, In p (Decision.paragraphs row)
                               /\ (section p = None \/ section p = Some ""))).
Proof.
  intros env detail s row s' H k.
  destruct (parseBVADecision_ok _ _ _ _ _ H) as (_ & Hs & _).
  rewrite Hs, group_sections_is_Some.
  rewrite identifySectionTypes_In. unfold sectionName.
  split; intros [Hk Hex]; (split; [exact Hk|]).
  - destruct Hex as (p & Hp & Hpk). destruct (section p) as [l|] eqn:Hsec.
    + destruct (String.eqb_spec l "") as [->|Hl].
      * right. split; [now symmetry|]. exists p. auto.
      * left. subst k. split; [exact Hl|]. exists p. auto.
    + right. split; [now symmetry|]. exists p. auto.
  - destruct Hex as [(Hne & p & Hp & Hsec)|(-> & p & Hp & [Hsec|Hsec])];
      exists p; (split; [exact Hp|]); rewrite Hsec; [|reflexivity|reflexivity].
    destruct (String.eqb_spec k ""); [contradiction|reflexivity].
Qed.

Lemma section_keys_are_the_labels_witness :
  (is_Some (Decision.sections Demo.parsed_odd_labels !! "constructor")
   <-> "constructor" <> "__proto__"
       /\ (In "constructor" (identifySectionTypes (Decision.paragraphs Demo.parsed_odd_labels))
           \/ ("constructor" = "content"
               /\ exists p, In p (Decision.paragraphs Demo.parsed_odd_labels)
                            /\ (section p = None \/ section p = Some ""))))
  /\ (is_Some (Decision.sections Demo.parsed_odd_labels !! "__proto__")
      <-> "__proto__" <> "__proto__"
          /\ (In "__proto__"
                 (identifySectionTypes (Decision.paragraphs Demo.parsed_odd_labels))
              \/ ("__proto__" = "content"
                  /\ exists p, In p (Decision.paragraphs Demo.parsed_odd_labels)
                               /\ (section p = None \/ section p = Some ""))))
  /\ (is_Some (Decision.sections Demo.parsed_odd_labels !! "content")
      <-> "content" <> "__proto__"
          /\ (In "content" (identifySectionTypes (Decision.paragraphs Demo.parsed_odd_labels))
              \/ ("content" = "content"
                  /\ exists p, In p (Decision.paragraphs Demo.parsed_odd_labels)
                               /\ (section p = None \/ section p = Some "")))).
Proof.
  repeat split;
    apply (section_keys_are_the_labels (Demo.world []) Demo.odd_labels Demo.fresh
             Demo.parsed_odd_labels Demo.after_parse);
    reflexivity || assumption.
Defined.

(** The stored section texts are trimmed - trimming them again changes
    nothing - and no section is filed under the empty key. *)
Theorem parsed_sections_are_trimmed :
  forall env detail s row s',
    parseBVADecision env detail s = (Ok row, s') ->
    JsString.trim <$> Decision.sections row = Decision.sections row
    /\ Decision.sections row !! "" = None.
Proof.
  intros env detail s row s' H.
  destruct (parseBVADecision_ok _ _ _ _ _ H) as (_ & Hs & _). rewrite Hs. split.
  - apply map_eq. intros k. unfold group_sections. rewrite !lookup_fmap.
    destruct (fold_left add_paragraph (Decision.paragraphs row) ∅ !! k); [|reflexivity].
    cbn. now rewrite trim_idempotent.
  - destruct (group_sections (Decision.paragraphs row) !! "") eqn:E; [|reflexivity].
    assert (Hs' : is_Some (group_sections (Decision.paragraphs row) !! "")) by eauto.
    apply group_sections_is_Some in Hs' as (_ & p & _ & Hp). unfold sectionName in Hp.
    destruct (section p) as [l|]; [|discriminate].
    destruct (String.eqb_spec l ""); [discriminate|congruence].
Qed.

Lemma parsed_sections_are_trimmed_witness :
  JsString.trim <$> Decision.sections Demo.parsed_findings
  = Decision.sections Demo.parsed_findings
  /\ Decision.sections Demo.parsed_findings !! "" = None.
Proof.
  apply (parsed_sections_are_trimmed (Demo.world []) findings_detail Demo.fresh
           Demo.parsed_findings Demo.after_parse).
  reflexivity.
Defined.

(** [extractKeySections] looks the sections up by the standard names, the
    parser files them under the labels as written: unless a paragraph is
    labelled with one of the four priority names itself, nothing is selected
    and the whole mapping comes back. *)
Theorem raw_labels_are_never_key_sections :
  forall env detail s row s',
    parseBVADecision env detail s = (Ok row, s') ->
    Forall (fun p => is_priority (sectionName p) = false) (Decision.paragraphs row) ->
    extractKeySections (Decision.sections row) = Decision.sections row.
Proof.
  intros env detail s row s' H Hall.
  destruct (parseBVADecision_ok _ _ _ _ _ H) as (_ & Hs & _). rewrite Hs.
  apply map_eq. intros j. rewrite extractKeySections_lookup.
  replace (List.existsb _ prioritySections) with false; [reflexivity|].
  symmetry. apply no_priority_present. intros k Hk.
  unfold present. destruct (group_sections (Decision.paragraphs row) !! k) eqn:E;
    [|reflexivity].
  assert (Hs' : is_Some (group_sections (Decision.paragraphs row) !! k)) by eauto.
  apply group_sections_is_Some in Hs' as (_ & p & Hp & Hpk).
  rewrite List.Forall_forall in Hall. specialize (Hall p Hp). rewrite Hpk in Hall.
  apply existsb_eqb_In in Hk. unfold is_priority in Hall. congruence.
Qed.

Lemma raw_labels_are_never_key_sections_witness :
  extractKeySections (Decision.sections Demo.parsed_findings)
  = Decision.sections Demo.parsed_findings.
Proof.
  apply (raw_labels_are_never_key_sections (Demo.world []) findings_detail Demo.fresh
           Demo.parsed_findings Demo.after_parse).
  - reflexivity.
  - repeat constructor.
Defined.

(** ** The batch generator against any upstream *)

Lemma searchDecisions_page env params k res s :
  page_response env params k = Some res ->
  searchDecisions env (with_page params (100 * k)) s
  = (Ok res, requested (EvSearch (queryParams (with_page params (100 * k)))) s).
Proof.
  unfold page_response, searchDecisions. munfold.
  destruct (search_endpoint env _) as [m|r]; [discriminate|].
  simpl. destruct (ok r); [|discriminate]. simpl.
  destruct (json r) as [m|d]; [discriminate|]. now intros [= ->].
Qed.

Lemma bind_bind {A B C} (m : M A) (f : A -> M B) (g : B -> M C) s :
  bind (bind m f) g s = bind m (fun x => bind (f x) g) s.
Proof. unfold bind. destruct (m s) as [[a|e|] s1]; reflexivity. Qed.

Lemma bind_returns {A B} (m : M A) (k : A -> M B) s a s1 :
  m s = (Ok a, s1) -> bind m k s = k a s1.
Proof. intros H. unfold bind. now rewrite H. Qed.

Lemma bind_delay {B} ms (k : M B) s :
  bind (delay ms) (fun _ => k) s = k (requested (EvDelay ms) s).
Proof. reflexivity. Qed.

Lemma collect_from_page env params (res : nat -> SearchResult.t) :
  forall m k f1 f2 s,
    (forall j, k <= j <= k + m -> page_response env params j = Some (res j)) ->
    (forall j, k <= j < k + m -> SearchResult.has_more (res j) = true) ->
    SearchResult.has_more (res (k + m)) = false ->
    m < f1 -> m < f2 ->
    bind (fetchAllDecisions_loop f1 env params (100 * k))
      (fun step =>
         match step with
         | (None, _) => ret []
         | (Some batch, g') =>
             rest <- collect_batches f2 env params g' ;;
             ret (batch :: rest)
         end) s
    = (Ok (non_empty (List.map (fun j => SearchResult.decisions (res j)) (seq k (S m)))),
       set_trace (trace s ++ page_request params k :: further_requests params (S k) m) s).
Proof.
  induction m as [|m IH]; intros k f1 f2 s Hres Hmore Hlast Hf1 Hf2.
  - destruct f1 as [|f1]; [lia|]. destruct f2 as [|f2]; [lia|].
    cbn [fetchAllDecisions_loop]. rewrite bind_bind.
    rewrite (bind_returns _ _ _ _ _ (searchDecisions_page env params k (res k) s
                                       ltac:(apply Hres; lia))).
    replace (k + 0) with k in Hlast by lia.
    cbn [seq List.map non_empty List.filter further_requests flat_map].
    destruct (SearchResult.decisions (res k)) as [|x b] eqn:Hb.
    + rewrite Hlast. reflexivity.
    + unfold bind at 1. cbn [ret]. cbv beta iota.
      cbn [collect_batches fetchAllDecisions_next]. rewrite Hlast. reflexivity.
  - destruct f1 as [|f1]; [lia|]. destruct f2 as [|f2]; [lia|].
    cbn [fetchAllDecisions_loop]. rewrite bind_bind.
    rewrite (bind_returns _ _ _ _ _ (searchDecisions_page env params k (res k) s
                                       ltac:(apply Hres; lia))).
    assert (Hk : SearchResult.has_more (res k) = true) by (apply Hmore; lia).
    assert (Hnext : forall g1 g2 s1,
               g1 > m -> g2 > m ->
               bind (fetchAllDecisions_loop g1 env params (100 * k + page_limit))
                 (fun step =>
                    match step with
                    | (None, _) => ret []
                    | (Some batch, g') =>
                        rest <- collect_batches g2 env params g' ;;
                        ret (batch :: rest)
                    end) s1
               = (Ok (non_empty (List.map (fun j => SearchResult.decisions (res j))
                                   (seq (S k) (S m)))),
                  set_trace (trace s1 ++ page_request params (S k)
                                         :: further_requests params (S (S k)) m) s1)).
    { intros g1 g2 s1 Hg1 Hg2. unfold page_limit.
      replace (100 * k + 100) with (100 * S k) by lia.
      apply IH; try lia.
      - intros j Hj. apply Hres. lia.
      - intros j Hj. apply Hmore. lia.
      - replace (S k + m) with (k + S m) by lia. exact Hlast. }
    change (seq k (S (S m))) with (k :: seq (S k) (S m)).
    cbn [List.map non_empty List.filter].
    change (further_requests params (S k) (S m))
      with ([EvDelay 500; page_request params (S k)] ++ further_requests params (S (S k)) m).
    fold (non_empty (List.map (fun j => SearchResult.decisions (res j)) (seq (S k) (S m)))).
    destruct (SearchResult.decisions (res k)) as [|x b] eqn:Hb.
    + rewrite Hk, bind_bind, bind_delay, Hnext by lia.
      unfold page_request, requested. st_simpl. rewrite <- !app_assoc. reflexivity.
    + unfold bind at 1. cbn [ret]. cbv beta iota.
      cbn [collect_batches fetchAllDecisions_next]. rewrite Hk.
      erewrite bind_returns; [|rewrite bind_bind, bind_delay; apply Hnext; lia].
      unfold ret, page_request, requested. st_simpl. rewrite <- !app_assoc. reflexivity.
Qed.

(** Against any upstream: when the pages 0 to [n] are served, each but the
    last reporting more, the iteration run to its end returns (given one unit
    of fuel per page and one more). It has asked for the pages in order -
    offsets 0, 100, ..., limit 100, whatever offset, limit and count the
    answers carry - with the 500 ms delay before each request but the first;
    and it has yielded the decisions of the pages that had some, in order:
    an empty page is not yielded and does not stop the iteration. *)
Theorem iteration_over_any_upstream :
  forall env params (res : nat -> SearchResult.t) n fuel s,
    (forall k, k <= n -> page_response env params k = Some (res k)) ->
    (forall k, k < n -> SearchResult.has_more (res k) = true) ->
    SearchResult.has_more (res n) = false ->
    n + 1 < fuel ->
    collect_batches fuel env params GenStart s
    = (Ok (non_empty (List.map (fun k => SearchResult.decisions (res k)) (seq 0 (S n)))),
       set_trace (trace s ++ page_request params 0 :: further_requests params 1 n) s).
Proof.
  intros env params res n fuel s Hres Hmore Hlast Hfuel.
  destruct fuel as [|fuel]; [lia|].
  cbn [collect_batches fetchAllDecisions_next].
  change 0 with (100 * 0) at 1.
  apply (collect_from_page env params res n 0 (S fuel) fuel s); try lia.
  - intros j Hj. apply Hres. lia.
  - intros j Hj. apply Hmore. lia.
  - exact Hlast.
Qed.

Lemma iteration_over_any_upstream_witness :
  collect_batches 4 Demo.gappy (search_params Demo.no_options) GenStart Demo.fresh
  = (Ok [[Demo.summary_of "23-0001"]; [Demo.summary_of "23-0002"]],
     set_trace (trace Demo.fresh
                ++ page_request (search_params Demo.no_options) 0
                   :: further_requests (search_params Demo.no_options) 1 2) Demo.fresh).
Proof.
  apply (iteration_over_any_upstream Demo.gappy (search_params Demo.no_options)
           Demo.gappy_page 2 4 Demo.fresh).
  - intros [|[|[|k]]] Hk; try lia; vm_compute; reflexivity.
  - intros [|[|k]] Hk; try lia; reflexivity.
  - reflexivity.
  - lia.
Defined.

Lemma bind_out_of_fuel {A B} (m : M A) (k : A -> M B) s :
  fst (m s) = OutOfFuel -> fst (bind m k s) = OutOfFuel.
Proof. unfold bind. destruct (m s) as [[a|e|] s1]; simpl; congruence. Qed.

Lemma loop_never_ends env params :
  (forall k, exists res, page_response env params k = Some res
                         /\ SearchResult.has_more res = true) ->
  forall f2 f1 k s,
    fst (bind (fetchAllDecisions_loop f1 env params (100 * k))
           (fun step =>
              match step with
              | (None, _) => ret []
              | (Some batch, g') =>
                  rest <- collect_batches f2 env params g' ;;
                  ret (batch :: rest)
              end) s) = OutOfFuel.
Proof.
  intros Hres. induction f2 as [|f2 IH2]; induction f1 as [|f1 IH1]; intros k s;
    try reflexivity.
  - destruct (Hres k) as (res & Hk & Hmore).
    cbn [fetchAllDecisions_loop]. rewrite bind_bind.
    rewrite (bind_returns _ _ _ _ _ (searchDecisions_page env params k res s Hk)).
    destruct (SearchResult.decisions res) as [|x b].
    + rewrite Hmore, bind_bind, bind_delay. unfold page_limit.
      replace (100 * k + 100) with (100 * S k) by lia. apply IH1.
    + reflexivity.
  - destruct (Hres k) as (res & Hk & Hmore).
    cbn [fetchAllDecisions_loop]. rewrite bind_bind.
    rewrite (bind_returns _ _ _ _ _ (searchDecisions_page env params k res s Hk)).
    destruct (SearchResult.decisions res) as [|x b].
    + rewrite Hmore, bind_bind, bind_delay. unfold page_limit.
      replace (100 * k + 100) with (100 * S k) by lia. apply IH1.
    + unfold bind at 1. cbn [ret]. cbv beta iota.
      cbn [collect_batches fetchAllDecisions_next]. rewrite Hmore.
      apply bind_out_of_fuel. rewrite bind_bind, bind_delay. unfold page_limit.
      replace (100 * k + 100) with (100 * S k) by lia. apply IH2.
Qed.

(** The generator has no bound of its own: against an upstream that reports
    more matches on every page it never finishes - whatever the fuel, the
    model of the iteration runs out of it, neither returning nor throwing. *)
Theorem iteration_ends_only_when_upstream_says :
  forall env params,
    (forall k, exists res, page_response env params k = Some res
                           /\ SearchResult.has_more res = true) ->
    forall fuel s, fst (collect_batches fuel env params GenStart s) = OutOfFuel.
Proof.
  intros env params Hres fuel s. destruct fuel as [|fuel]; [reflexivity|].
  cbn [collect_batches fetchAllDecisions_next]. change 0 with (100 * 0) at 1.
  now apply loop_never_ends.
Qed.

Lemma iteration_ends_only_when_upstream_says_witness :
  fst (collect_batches 50 Demo.endless (search_params Demo.no_options) GenStart Demo.fresh)
  = OutOfFuel.
Proof.
  apply (iteration_ends_only_when_upstream_says Demo.endless (search_params Demo.no_options)).
  intros k. eexists. split; reflexivity.
Defined.

(** ** The calls of a run and its bookkeeping *)

Lemma calls_app kind evs1 evs2 : calls kind (evs1 ++ evs2) = calls kind evs1 + calls kind evs2.
Proof. unfold calls. now rewrite List.filter_app, length_app. Qed.

Lemma calls_paging kind evs :
  (forall ev, paging_event ev = true -> kind ev = false) ->
  forallb paging_event evs = true -> calls kind evs = 0.
Proof.
  intros Hk. induction evs as [|ev evs IH]; [reflexivity|].
  cbn [forallb]. intros H. apply andb_true_iff in H as [H1 H2].
  unfold calls in *. cbn [List.filter]. rewrite (Hk ev H1). now apply IH.
Qed.

Lemma paging_is_no_item_call ev :
  paging_event ev = true ->
  is_lookup ev = false /\ is_detail_request ev = false /\ is_model_call ev = false
  /\ is_store_write ev = false /\ is_item_delay ev = false.
Proof.
  destruct ev as [qs|c|ms|c|o|c|k]; try discriminate; [repeat split; reflexivity|].
  cbn [paging_event]. intros H. repeat split; try reflexivity.
  do 101 (destruct ms as [|ms]; [try reflexivity; try discriminate|]).
  reflexivity.
Qed.

Lemma accounted_paged options evs evs' s :
  forallb paging_event evs' = true ->
  accounted options evs s ->
  accounted options (evs ++ evs') (set_trace (trace s ++ evs') s).
Proof.
  intros Hp. unfold accounted. st_simpl. rewrite !calls_app.
  rewrite (calls_paging is_detail_request evs'), (calls_paging is_item_delay evs'),
    (calls_paging is_store_write evs'), (calls_paging is_model_call evs'),
    (calls_paging is_lookup evs'); try exact Hp;
    try (intros ev Hev; apply paging_is_no_item_call in Hev; tauto).
  rewrite !Nat.add_0_r. auto.
Qed.

Lemma accounted_step env options summary evs s :
  accounted options evs s ->
  exists evs',
    trace (snd (process_summary env options summary s)) = trace s ++ evs'
    /\ accounted options (evs ++ evs') (snd (process_summary env options summary s)).
Proof.
  unfold accounted. cbv zeta.
  intros (Ht & Hd & Hg & Hw & Hu & Hm & Hl).
  destruct (not_skipped_or_skipped options summary s) as [Hns|[Hskip Hex]].
  - destruct (process_summary_not_skipped env options summary s Hns)
      as [(e & t & u & ev & Hp & Hev)|(detail & paras & oc & _ & _ & _ & _ & Hp)];
      rewrite Hp; cbn [snd].
    + exists (ev ++ [EvDelay 100]). split; [reflexivity|].
      unfold result_failed. st_simpl. cbn [total synced skipped errors set_errors set_total].
      rewrite length_app. cbn [length]. rewrite !calls_app.
      destruct Hev as [->|[detail ->]]; unfold fetch_events, write_events, lookup_events,
        classify_events; rewrite ?calls_app;
        destruct (default false (skipExisting options)),
          (default true (extractOutcomes options)); cbn; lia.
    + exists (write_events options summary detail ++ [EvDelay 100]). split; [reflexivity|].
      unfold result_synced. st_simpl. cbn [total synced skipped errors set_synced set_total].
      rewrite !calls_app. unfold write_events, lookup_events, classify_events.
      rewrite ?calls_app.
      destruct (default false (skipExisting options)),
        (default true (extractOutcomes options)); cbn; lia.
  - rewrite process_summary_skipped by assumption. cbn [snd].
    exists [EvFindFirst (citation_number summary)]. split; [reflexivity|].
    unfold result_skipped, requested. st_simpl.
    cbn [total synced skipped errors set_skipped set_total].
    rewrite !calls_app. rewrite Hskip in *.
    destruct (default true (extractOutcomes options)); cbn; lia.
Qed.

Lemma accounted_finished env options evs ev s tbl t :
  is_lookup ev = false -> is_detail_request ev = false -> is_model_call ev = false ->
  is_store_write ev = false -> is_item_delay ev = false ->
  accounted options evs s ->
  accounted options (evs ++ [ev])
    (finished env (mkSt (decisions_tbl s) tbl t (uuids s) (trace s ++ [ev]) (result s)
                     (decisionsProcessed s))).
Proof.
  intros H1 H2 H3 H4 H5. unfold accounted, finished. st_simpl.
  cbn [total synced skipped errors set_end]. rewrite !calls_app.
  unfold calls. cbn [List.filter]. rewrite H1, H2, H3, H4, H5. cbn [length].
  rewrite !Nat.add_0_r. auto.
Qed.

Lemma accounted_ended env options evs s :
  accounted options evs s -> accounted options evs (finished env s).
Proof. unfold accounted, finished. st_simpl. cbn [total synced skipped errors set_end]. auto. Qed.

(** The calls a run has made, however it ends, agree with its bookkeeping. *)
Lemma syncDecisions_accounted fuel env options s :
  exists evs,
    trace (snd (syncDecisions fuel env options s)) = trace s ++ evs
    /\ accounted options evs (snd (syncDecisions fuel env options s)).
Proof.
  rewrite syncDecisions_run.
  assert (Hinv : exists evs,
             trace (snd (for_await_batches fuel env options (effective_maxDecisions options)
                           (search_params options) GenStart (started env s)))
             = trace s ++ evs
             /\ accounted options evs
                  (snd (for_await_batches fuel env options (effective_maxDecisions options)
                          (search_params options) GenStart (started env s)))).
  { apply (for_await_batches_inv
             (fun s1 => exists evs, trace s1 = trace s ++ evs /\ accounted options evs s1)
             (fun _ => True)); auto.
    - intros s1 s2 _ (evs' & -> & Hp) (evs & Ht & Ha).
      exists (evs ++ evs'). split.
      + st_simpl. now rewrite Ht, app_assoc.
      + now apply accounted_paged.
    - intros summary s1 _ (evs & Ht & Ha).
      destruct (accounted_step env options summary evs s1 Ha) as (evs' & Ht' & Ha').
      exists (evs ++ evs'). split; [now rewrite Ht', Ht, app_assoc|exact Ha'].
    - exists []. split; [unfold started; st_simpl; now rewrite app_nil_r|].
      unfold accounted, started, calls. st_simpl. cbn.
      destruct (default true (extractOutcomes options)),
        (default false (skipExisting options)); repeat split; lia. }
  destruct Hinv as (evs & Ht & Ha).
  destruct (for_await_batches _ _ _ _ _ _ (started env s)) as [[[]|e|] s2]; cbn [snd] in *.
  - destruct (updateSyncMetadata_returns env (result s2) s2) as (tbl & t & ->).
    cbv zeta. cbn [snd]. exists (evs ++ [EvUpsertMetadata "latest"]). split.
    + unfold finished. st_simpl. now rewrite Ht, app_assoc.
    + now apply accounted_finished.
  - exists evs. split; [unfold finished; st_simpl; exact Ht|now apply accounted_ended].
  - exists evs. auto.
Qed.

(** Every item a run counts in [total] is counted once more, as synced,
    skipped or failed: however the run ends, [total] is the sum of [synced],
    [skipped] and the length of the error list - and the result a run
    returns is that bookkeeping. *)
Theorem every_item_is_synced_skipped_or_failed :
  forall fuel env options s,
    let run := syncDecisions fuel env options s in
    let r := result (snd run) in
    total r = synced r + skipped r + length (errors r)
    /\ match fst run with
       | Ok returned => returned = r
       | _ => True
       end.
Proof.
  intros fuel env options s run r. split.
  - destruct (syncDecisions_accounted fuel env options s) as (evs & _ & Ha).
    apply Ha.
  - subst r run. rewrite syncDecisions_run.
    destruct (for_await_batches _ _ _ _ _ _ (started env s)) as [[[]|e|] s2]; cbn; auto.
Qed.

(** What a run costs, read off its result: it has made one detail request
    for each item that was synced or failed - none for a skipped one, no
    second one for a failed one - and as many 100 ms delays; one model call
    for each attempt to write a record when [extractOutcomes] is not off,
    none at all when it is off; one store lookup per item when
    [skipExisting] is on, none when it is off. The write attempts are at
    least the synced items and at most the synced and failed ones. *)
Theorem calls_of_a_run :
  forall fuel env options s,
    let s' := snd (syncDecisions fuel env options s) in
    let r := result s' in
    exists evs,
      trace s' = trace s ++ evs
      /\ calls is_detail_request evs = synced r + length (errors r)
      /\ calls is_item_delay evs = synced r + length (errors r)
      /\ synced r <= calls is_store_write evs <= synced r + length (errors r)
      /\ calls is_model_call evs
         = (if default true (extractOutcomes options) then calls is_store_write evs else 0)
      /\ calls is_lookup evs = (if default false (skipExisting options) then total r else 0).
Proof.
  intros fuel env options s s' r.
  destruct (syncDecisions_accounted fuel env options s) as (evs & Ht & Ha).
  exists evs. split; [exact Ht|]. apply Ha.
Qed.

(** ** The store only grows *)

Lemma upserted_grows values t tbl :
  exists added,
    List.map Decision.citationNumber (upserted values t tbl)
    = List.map Decision.citationNumber tbl ++ added
    /\ length added <= 1.
Proof.
  rewrite upserted_citations.
  destruct (List.existsb (same_citation (Decision.citationNumber values)) tbl) eqn:E.
  - exists []. rewrite write_keys_present by exact E. now rewrite app_nil_r; auto.
  - exists [Decision.citationNumber values]. rewrite write_keys_absent by exact E. auto.
Qed.

Lemma process_summary_grows env options summary s base added :
  List.map Decision.citationNumber (decisions_tbl s) = base ++ added ->
  length added <= synced (result s) ->
  exists added',
    List.map Decision.citationNumber
      (decisions_tbl (snd (process_summary env options summary s))) = base ++ added'
    /\ length added' <= synced (result (snd (process_summary env options summary s))).
Proof.
  intros Hb Hl.
  destruct (not_skipped_or_skipped options summary s) as [Hns|[Hskip Hex]].
  - destruct (process_summary_not_skipped env options summary s Hns)
      as [(e & t & u & ev & Hp & Hev)|(detail & paras & oc & _ & _ & _ & _ & Hp)];
      rewrite Hp; cbn [snd decisions_tbl result].
    + exists added. split; [exact Hb|]. unfold result_failed. cbn. exact Hl.
    + destruct (upserted_grows
                  (with_outcome (parsed_row detail paras (uuid (uuids s)) (clock env (ticks s)))
                     oc.1 oc.2)
                  (DateAt (clock env (S (ticks s)))) (decisions_tbl s)) as (a & Ha & Hla).
      exists (added ++ a). split; [now rewrite Ha, Hb, app_assoc|].
      rewrite length_app. unfold result_synced. cbn. lia.
  - rewrite process_summary_skipped by assumption. cbn [snd].
    exists added. split; [exact Hb|]. unfold result_skipped, requested. st_simpl. cbn. exact Hl.
Qed.

(** A run removes no record and reorders none: the citation numbers of the
    store after the run - however it ends - are those of the store before, in
    the same order, followed by the ones the run added, which are no more
    than the items it counts as synced. *)
Theorem run_only_adds_records :
  forall fuel env options s,
    let s' := snd (syncDecisions fuel env options s) in
    exists added,
      List.map Decision.citationNumber (decisions_tbl s')
      = List.map Decision.citationNumber (decisions_tbl s) ++ added
      /\ length added <= synced (result s').
Proof.
  intros fuel env options s s'. subst s'. rewrite syncDecisions_run.
  assert (Hinv : exists added,
             List.map Decision.citationNumber
               (decisions_tbl (snd (for_await_batches fuel env options
                                      (effective_maxDecisions options)
                                      (search_params options) GenStart (started env s))))
             = List.map Decision.citationNumber (decisions_tbl s) ++ added
             /\ length added
                <= synced (result (snd (for_await_batches fuel env options
                                          (effective_maxDecisions options)
                                          (search_params options) GenStart
                                          (started env s))))).
  { apply (for_await_batches_inv
             (fun s1 => exists added,
                  List.map Decision.citationNumber (decisions_tbl s1)
                  = List.map Decision.citationNumber (decisions_tbl s) ++ added
                  /\ length added <= synced (result s1))
             (fun _ => True)); auto.
    - intros s1 s2 _ (evs' & -> & _) HP. exact HP.
    - intros summary s1 _ (added & Hb & Hl).
      exact (process_summary_grows env options summary s1 _ added Hb Hl).
    - exists []. split; [now rewrite app_nil_r|]. cbn. lia. }
  destruct Hinv as (added & Hb & Hl).
  destruct (for_await_batches _ _ _ _ _ _ (started env s)) as [[[]|e|] s2]; cbn [snd] in *.
  - destruct (updateSyncMetadata_returns env (result s2) s2) as (tbl & t & ->).
    cbv zeta. cbn [snd]. exists added. split; [exact Hb|].
    unfold finished. st_simpl. cbn. exact Hl.
  - exists added. split; [exact Hb|]. unfold finished. st_simpl. cbn. exact Hl.
  - exists added. auto.
Qed.

(** ** Running without the classifier *)




Example resync_without_extraction_erases_the_outcome :
  List.map Decision.outcome (decisions_tbl Demo.stored) = [Val (JStr "Granted")]
  /\ List.map Decision.outcome
       (decisions_tbl (snd (syncDecisions 3 (Demo.world ["23-0001"]) Demo.not_extracting
                              Demo.stored)))
     = [Val JNull].
Proof. vm_compute. split; reflexivity. Qed.

(** ** A run that fails *)

(** When a run throws, it throws the error of its page loop, as it is,
    once the end time and the duration of its result are set (the duration
    being the end time less the start time); and the status row is not
    written: the status table is as it was. *)
Theorem failed_run_sets_its_end_and_writes_no_status :
  forall fuel env options s e s',
    syncDecisions fuel env options s = (Throw e, s') ->
    (exists s2,
        for_await_batches fuel env options (effective_maxDecisions options)
          (search_params options) GenStart (started env s) = (Throw e, s2))
    /\ (exists t, endTime (result s') = Some t
                  /\ duration (result s') = Some (t - startTime (result s'))%Z)
    /\ sync_metadata_tbl s' = sync_metadata_tbl s.
Proof.
  intros fuel env options s e s' Hrun.
  assert (Hmeta : sync_metadata_tbl
                    (snd (for_await_batches fuel env options (effective_maxDecisions options)
                            (search_params options) GenStart (started env s)))
                  = sync_metadata_tbl s).
  { apply (for_await_batches_inv
             (fun s1 => sync_metadata_tbl s1 = sync_metadata_tbl s) (fun _ => True)); auto.
    - intros s1 s2 _ (evs' & -> & _) HP. exact HP.
    - intros summary s1 _ HP.
      destruct (process_summary_bookkeeping env options summary s1) as [_ ->]. exact HP. }
  rewrite syncDecisions_run in Hrun.
  destruct (for_await_batches _ _ _ _ _ _ (started env s)) as [[[]|e0|] s2];
    try discriminate.
  injection Hrun as <- <-. cbn [snd] in Hmeta. split; [|split].
  - exists s2. reflexivity.
  - eexists. unfold finished. st_simpl. cbn. split; reflexivity.
  - exact Hmeta.
Qed.

Lemma failed_run_sets_its_end_and_writes_no_status_witness :
  let s' := snd (syncDecisions 3 Demo.unreachable Demo.no_options Demo.fresh) in
  (exists s2,
      for_await_batches 3 Demo.unreachable Demo.no_options
        (effective_maxDecisions Demo.no_options) (search_params Demo.no_options) GenStart
        (started Demo.unreachable Demo.fresh)
      = (Throw (BVAApiError "Network error: fetch failed" 0), s2))
  /\ (exists t, endTime (result s') = Some t
                /\ duration (result s') = Some (t - startTime (result s'))%Z)
  /\ sync_metadata_tbl s' = sync_metadata_tbl Demo.fresh.
Proof.
  apply (failed_run_sets_its_end_and_writes_no_status 3 Demo.unreachable Demo.no_options
           Demo.fresh (BVAApiError "Network error: fetch failed" 0)
           (snd (syncDecisions 3 Demo.unreachable Demo.no_options Demo.fresh))).
  reflexivity.
Defined.

(** ** A negative ceiling *)

(** A negative [maxDecisions] is not falsy, so it is the ceiling, and the
    ceiling is reached before the first item: against a simulated upstream
    the run asks for the first page, processes no item of it, asks for no
    other page and writes the status row of a run without items. *)
Theorem negative_ceiling_processes_nothing :
  forall matches endpoint chat parse clk options fuel s z,
    maxDecisions options = Some (JsInt z) -> (z < 0)%Z -> 0 < fuel ->
    exists r s',
      syncDecisions fuel (simulated matches endpoint chat parse clk) options s = (Ok r, s')
      /\ total r = 0 /\ synced r = 0 /\ skipped r = 0 /\ errors r = []
      /\ decisions_tbl s' = decisions_tbl s
      /\ trace s' = trace s ++ [page_request (search_params options) 0;
                                EvUpsertMetadata "latest"].
Proof.
  intros matches endpoint chat parse clk options fuel s z Hmax Hz Hfuel.
  set (env := simulated matches endpoint chat parse clk).
  assert (Hm : effective_maxDecisions options = z).
  { unfold effective_maxDecisions. rewrite Hmax.
    destruct (Z.eqb_spec z 0); [lia|reflexivity]. }
  assert (Hloop : for_await_batches fuel env options z (search_params options) GenStart
                    (started env s)
                  = (Ok tt, requested (page_request (search_params options) 0)
                              (started env s))).
  { destruct fuel as [|fuel]; [lia|].
    cbn [for_await_batches fetchAllDecisions_next]. unfold bind at 1.
    destruct (le_lt_dec (length matches) 0) as [Hlen|Hlen].
    - unfold env. rewrite loop_simulated_end by exact Hlen. reflexivity.
    - unfold env. rewrite loop_simulated_page by exact Hlen. cbv beta iota.
      unfold bind at 1. rewrite for_summaries_at_ceiling.
      + cbv beta iota. unfold bind at 1. unfold get at 1. cbv beta iota.
        replace (limit_reached z _) with true; [reflexivity|].
        symmetry. unfold limit_reached, started. st_simpl. apply Z.leb_le. lia.
      + unfold limit_reached, started. st_simpl. apply Z.leb_le. lia. }
  rewrite syncDecisions_run, Hm, Hloop.
  destruct (updateSyncMetadata_returns env
              (result (requested (page_request (search_params options) 0) (started env s)))
              (requested (page_request (search_params options) 0) (started env s)))
    as (tbl & t & ->).
  cbv zeta. cbn [snd]. eexists _, _. split; [reflexivity|].
  unfold finished, started, requested. st_simpl.
  cbn [total synced skipped errors set_end].
  repeat split. now rewrite <- app_assoc.
Qed.

Lemma negative_ceiling_processes_nothing_witness :
  exists r s',
    syncDecisions 1 (simulated (Demo.many 10) Demo.serve_all Demo.chat_granted
                       Demo.parse_granted Demo.ticking)
      (set_maxDecisions (Some (JsInt (-1))) Demo.no_options) Demo.fresh = (Ok r, s')
    /\ total r = 0 /\ synced r = 0 /\ skipped r = 0 /\ errors r = []
    /\ decisions_tbl s' = decisions_tbl Demo.fresh
    /\ trace s' = trace Demo.fresh
                  ++ [page_request (search_params (set_maxDecisions (Some (JsInt (-1)))
                                                     Demo.no_options)) 0;
                      EvUpsertMetadata "latest"].
Proof.
  apply (negative_ceiling_processes_nothing (Demo.many 10) Demo.serve_all Demo.chat_granted
           Demo.parse_granted Demo.ticking
           (set_maxDecisions (Some (JsInt (-1))) Demo.no_options) 1 Demo.fresh (-1)%Z).
  - reflexivity.
  - lia.
  - lia.
Defined.

(** ** A pass over decisions that are all stored *)








(** A run over one decision, from an empty store. *)
Lemma syncDecisions_status_witness :
  let run := syncDecisions 3 (Demo.world ["23-0001"]) Demo.no_options Demo.fresh in
  let r := result (snd run) in
  exists k d,
    (d = clock (Demo.world ["23-0001"]) k \/ d = clock (Demo.world ["23-0001"]) (S k))
    /\ endTime r = Some (clock (Demo.world ["23-0001"]) (S (S k)))
    /\ List.find (same_key "latest") (sync_metadata_tbl (snd run)) = Some (status_row r d)
    /\ (List.existsb (same_key "latest") (sync_metadata_tbl Demo.fresh) = true ->
        length (sync_metadata_tbl (snd run)) = length (sync_metadata_tbl Demo.fresh)).
Proof.
  apply (syncDecisions_status 3 (Demo.world ["23-0001"]) Demo.no_options Demo.fresh
           (result (snd (syncDecisions 3 (Demo.world ["23-0001"]) Demo.no_options Demo.fresh)))
           (snd (syncDecisions 3 (Demo.world ["23-0001"]) Demo.no_options Demo.fresh))).
  vm_compute. reflexivity.
Defined.

(** A reply that names an outcome and no confidence. *)
Lemma extractOutcome_default_confidence_witness :
  extractOutcome Demo.world_outcome_only (Demo.detail_of "23-0001") Demo.fresh
  = (Ok (Val (JStr "Denied"), Val (JNum (1 # 2))),
     requested (EvGenerate (request_for (Demo.detail_of "23-0001"))) Demo.fresh).
Proof.
  apply (extractOutcome_default_confidence Demo.world_outcome_only (Demo.detail_of "23-0001")
           "ORDER Service connection is granted." Demo.outcome_only_json
           [("outcome", JStr "Denied")] (JStr "Denied") Demo.fresh); reflexivity.
Defined.

(** ** What the classifier is sent *)






(** ** Written, then found *)

(** The lookup of [skipExisting] goes by the citation number of the summary,
    the write by the citation number of the detail. Where the upstream
    serves the detail under the citation number it was asked for, an item
    that has been synced is in the store for the next lookup: with
    [skipExisting] on, the same item coming again - later in the run or in
    another run - is skipped. *)
Theorem synced_decision_is_found_again :
  forall env options summary s s',
    process_summary env options summary s = (Ok tt, s') ->
    synced (result s') = S (synced (result s)) ->
    (forall detail, served env (citation_number summary) = Some detail ->
                    citation_number detail = citation_number summary) ->
    is_stored s' summary = true
    /\ (skipExisting options = Some true ->
        process_summary env options summary s'
        = (Ok tt,
           set_result (result_skipped (result s'))
             (requested (EvFindFirst (citation_number summary)) s'))).
Proof.
  intros env options summary s s' Hp Hsynced Hsame.
  assert (Hstored : is_stored s' summary = true).
  { destruct (not_skipped_or_skipped options summary s) as [Hns|[Hskip Hex]].
    - destruct (process_summary_not_skipped env options summary s Hns)
        as [(e & t & u & ev & Hp' & _)|(detail & paras & oc & Hget & _ & _ & _ & Hp')];
        rewrite Hp' in Hp; injection Hp as <-.
      + cbn in Hsynced. lia.
      + pose proof (getDecision_served env _ detail s _ (Hget s)) as Hserved.
        specialize (Hsame detail Hserved).
        unfold is_stored. cbn [decisions_tbl]. apply existsb_same_citation.
        rewrite upserted_citations, <- Hsame.
        apply (write_has_key
                 (with_outcome (parsed_row detail paras (uuid (uuids s)) (clock env (ticks s)))
                    oc.1 oc.2)).
    - rewrite process_summary_skipped in Hp by assumption. injection Hp as <-.
      cbn in Hsynced. lia. }
  split; [exact Hstored|]. intros Hskip.
  apply process_summary_skipped; [now rewrite Hskip|exact Hstored].
Qed.

Lemma synced_decision_is_found_again_witness :
  let env := Demo.world ["23-0001"] in
  let s' := snd (process_summary env Demo.skipping (Demo.summary_of "23-0001") Demo.fresh) in
  is_stored s' (Demo.summary_of "23-0001") = true
  /\ (skipExisting Demo.skipping = Some true ->
      process_summary env Demo.skipping (Demo.summary_of "23-0001") s'
      = (Ok tt,
         set_result (result_skipped (result s'))
           (requested (EvFindFirst (citation_number (Demo.summary_of "23-0001"))) s'))).
Proof.
  apply (synced_decision_is_found_again (Demo.world ["23-0001"]) Demo.skipping
           (Demo.summary_of "23-0001") Demo.fresh).
  - vm_compute. reflexivity.
  - vm_compute. reflexivity.
  - intros detail H. vm_compute in H. injection H as <-. reflexivity.
Defined.

(** ** The address of a decision *)

Lemma decode_head_encode_unit c r :
  decode_head (JsUri.encode_unit c +:+ r) = Some (c, r).
Proof. destruct c as [[] [] [] [] [] [] [] []]; reflexivity. Qed.

Lemma encode_unit_safe c :
  forallb (fun u => JsUri.unreserved u || Ascii.eqb u JsUri.percent)
    (units (JsUri.encode_unit c)) = true.
Proof. destruct c as [[] [] [] [] [] [] [] []]; reflexivity. Qed.

Lemma units_app a b : units (a +:+ b) = units a ++ units b.
Proof.
  induction a as [|c a IH]; [reflexivity|].
  change (units (String c (a +:+ b)) = c :: units a ++ units b). cbn [units]. now rewrite IH.
Qed.

Lemma encodeURIComponent_injective a :
  forall b, JsUri.encodeURIComponent a = JsUri.encodeURIComponent b -> a = b.
Proof.
  induction a as [|c r IH]; intros [|c' r'] H; cbn [JsUri.encodeURIComponent] in H.
  - reflexivity.
  - apply (f_equal decode_head) in H. rewrite decode_head_encode_unit in H. discriminate.
  - apply (f_equal decode_head) in H. rewrite decode_head_encode_unit in H. discriminate.
  - apply (f_equal decode_head) in H. rewrite !decode_head_encode_unit in H.
    injection H as -> H. f_equal. now apply IH.
Qed.

Lemma append_cancel_l p a b : p +:+ a = p +:+ b -> a = b.
Proof.
  induction p as [|c p IH]; [auto|].
  intros H. change (String c (p +:+ a) = String c (p +:+ b)) in H.
  injection H as H. now apply IH.
Qed.

Lemma toLowerCase_app a b :
  JsString.toLowerCase (a +:+ b) = JsString.toLowerCase a +:+ JsString.toLowerCase b.
Proof.
  induction a as [|c a IH]; [reflexivity|].
  change (JsString.toLowerCase (String c (a +:+ b))
          = String (JsString.lower_char c) (JsString.toLowerCase a +:+ JsString.toLowerCase b)).
  cbn [JsString.toLowerCase]. now rewrite IH.
Qed.

Lemma toLowerCase_nil s : JsString.toLowerCase s = EmptyString -> s = EmptyString.
Proof. destruct s; [reflexivity|discriminate]. Qed.

Lemma encodeURIComponent_nil a : JsUri.encodeURIComponent a = EmptyString -> a = EmptyString.
Proof. intros H. now apply (encodeURIComponent_injective a EmptyString). Qed.

(** The encoding of a code unit starts with a dot only when the unit is a
    dot, and never with the escape of a dot. *)
Lemma encode_unit_dot c rest :
  match JsString.toLowerCase (JsUri.encode_unit c) +:+ rest with
  | String "." tail => c = "."%char /\ tail = rest
  | String "%" (String "2" (String "e" _)) => False
  | _ => True
  end.
Proof.
  destruct c as [[] [] [] [] [] [] [] []]; vm_compute; try exact I; split; reflexivity.
Qed.

Lemma lower_encode_cons c r :
  JsString.toLowerCase (JsUri.encodeURIComponent (String c r))
  = JsString.toLowerCase (JsUri.encode_unit c)
    +:+ JsString.toLowerCase (JsUri.encodeURIComponent r).
Proof. cbn [JsUri.encodeURIComponent]. apply toLowerCase_app. Qed.

Lemma encoded_dots a :
  is_dot_segment (JsUri.encodeURIComponent a) = true <-> a = "." \/ a = "..".
Proof.
  split; [|intros [->| ->]; reflexivity].
  unfold is_dot_segment. intros H. apply existsb_exists in H as (t & Hin & Ht).
  apply String.eqb_eq in Ht.
  destruct a as [|c r]; [cbn in Ht; subst t; cbn in Hin; intuition discriminate|].
  rewrite lower_encode_cons in Ht.
  pose proof (encode_unit_dot c (JsString.toLowerCase (JsUri.encodeURIComponent r))) as Hc.
  rewrite Ht in Hc.
  cbn in Hin. destruct Hin as [<-|[<-|[<-|[<-|[<-|[<-|[]]]]]]]; try contradiction;
    destruct Hc as [-> Hr]; symmetry in Hr.
  - apply toLowerCase_nil, encodeURIComponent_nil in Hr. subst r. now left.
  - destruct r as [|c2 r2]; [discriminate|].
    rewrite lower_encode_cons in Hr.
    pose proof (encode_unit_dot c2 (JsString.toLowerCase (JsUri.encodeURIComponent r2)))
      as Hc2.
    rewrite Hr in Hc2. destruct Hc2 as [-> Hr2]. symmetry in Hr2.
    apply toLowerCase_nil, encodeURIComponent_nil in Hr2. subst r2. now right.
  - destruct r as [|c2 r2]; [discriminate|].
    rewrite lower_encode_cons in Hr.
    pose proof (encode_unit_dot c2 (JsString.toLowerCase (JsUri.encodeURIComponent r2)))
      as Hc2.
    rewrite Hr in Hc2. contradiction.
Qed.

(** The address that [getDecision] builds is a different string for each
    citation number. In it the citation number is made of unreserved
    characters and percent signs only - no slash, question mark, hash or
    space - and it is a dot segment, which a URL parser removes from a path,
    only for the citation numbers [.] and [..]. *)
Theorem decision_url_is_one_string_per_citation :
  forall baseUrl a b,
    (decision_url baseUrl a = decision_url baseUrl b -> a = b)
    /\ forallb (fun u => JsUri.unreserved u || Ascii.eqb u JsUri.percent)
         (units (JsUri.encodeURIComponent a)) = true
    /\ (is_dot_segment (JsUri.encodeURIComponent a) = true <-> a = "." \/ a = "..").
Proof.
  intros baseUrl a b. split; [|split].
  - unfold decision_url. intros H.
    apply append_cancel_l, append_cancel_l in H. now apply encodeURIComponent_injective.
  - induction a as [|c r IH]; [reflexivity|].
    cbn [JsUri.encodeURIComponent]. rewrite units_app, forallb_app, encode_unit_safe.
    exact IH.
  - apply encoded_dots.
Qed.

Example decision_address_of_a_citation_with_a_slash :
  decision_url "https://bva.test" "23-0001/../health"
  = "https://bva.test/api/v1/decisions/23-0001%2F..%2Fhealth".
Proof. reflexivity. Qed.

(** ** The completion stream *)

Lemma for_await_chunks_text stream :
  fold_right String.append EmptyString (fst (for_await_chunks stream)) = stream_text stream
  /\ List.Forall (fun piece => piece <> EmptyString) (fst (for_await_chunks stream))
  /\ snd (for_await_chunks stream) = streaming_failed <$> stream_error stream.
Proof.
  induction stream as [|e|delta rest (IH1 & IH2 & IH3)];
    [repeat split; constructor|repeat split; constructor|].
  cbn [for_await_chunks stream_text stream_error].
  destruct (for_await_chunks rest) as [pieces thrown]. cbn [fst snd] in *.
  destruct (String.eqb_spec (default "" delta) "") as [E|E]; cbn [fst snd].
  - rewrite E. split; [exact IH1|]. split; [exact IH2|exact IH3].
  - split; [cbn [fold_right]; now rewrite IH1|]. split; [now constructor|exact IH3].
Qed.

(** [generateStream] drops the chunks without content and loses no text:
    no piece it yields is empty, and the pieces put together are the contents
    of the chunks put together. It throws only what the completion call or
    the stream threw, as an error whose message starts with
    [Streaming failed:], after it has yielded the pieces that came before. *)
Theorem generateStream_loses_no_text :
  forall create,
    let out := generateStream create in
    List.Forall (fun piece => piece <> EmptyString) (fst out)
    /\ fold_right String.append EmptyString (fst out)
       = match create with inr stream => stream_text stream | inl _ => EmptyString end
    /\ snd out
       = streaming_failed
         <$> match create with inr stream => stream_error stream | inl error => Some error end.
Proof.
  intros [error|stream]; cbv zeta; cbn [generateStream].
  - repeat split. constructor.
  - destruct (for_await_chunks_text stream) as (H1 & H2 & H3). auto.
Qed.

(** ** What the fetch client returns *)

(** Both request methods return a body only from a success response whose
    body is JSON, and return it as it is. A success response whose body is
    not JSON is reported as a network error of status 0 - as an unreachable
    service is - with the message of the parse error. Whatever the answer,
    the one request is the only thing done. *)
Theorem client_returns_only_json_of_a_success :
  forall env params c s,
    (forall r m, search_endpoint env (queryParams params) = Resolved r ->
       ok r = true -> json r = inl m ->
       searchDecisions env params s
       = (Throw (BVAApiError ("Network error: " +:+ m) 0),
          requested (EvSearch (queryParams params)) s))
    /\ (forall r m, decision_endpoint env c = Resolved r ->
          ok r = true -> json r = inl m ->
          getDecision env c s
          = (Throw (BVAApiError ("Network error: " +:+ m) 0),
             requested (EvGetDecision c) s))
    /\ (forall res s', searchDecisions env params s = (Ok res, s') ->
          s' = requested (EvSearch (queryParams params)) s
          /\ exists r, search_endpoint env (queryParams params) = Resolved r
                       /\ (200 <= status r <= 299)%Z /\ json r = inr res)
    /\ (forall detail s', getDecision env c s = (Ok detail, s') ->
          s' = requested (EvGetDecision c) s
          /\ exists r, decision_endpoint env c = Resolved r
                       /\ (200 <= status r <= 299)%Z /\ json r = inr detail).
Proof.
  intros env params c s. split; [|split; [|split]].
  - intros r m H Hok Hj. unfold searchDecisions. munfold. rewrite H. simpl.
    rewrite Hok. simpl. rewrite Hj. reflexivity.
  - intros r m H Hok Hj. unfold getDecision. munfold. rewrite H. simpl.
    rewrite Hok. simpl. rewrite Hj. reflexivity.
  - intros res s'. unfold searchDecisions. munfold.
    destruct (search_endpoint env (queryParams params)) as [m|r]; [discriminate|].
    simpl. destruct (ok r) eqn:Hok; simpl; [|discriminate].
    destruct (json r) as [m|d] eqn:Hj; [discriminate|].
    intros [= <- <-]. split; [reflexivity|]. exists r. split; [reflexivity|].
    split; [|exact Hj]. unfold ok in Hok. lia.
  - intros detail s'. unfold getDecision. munfold.
    destruct (decision_endpoint env c) as [m|r]; [discriminate|].
    simpl. destruct (ok r) eqn:Hok; simpl.
    + destruct (json r) as [m|d] eqn:Hj; [discriminate|].
      intros [= <- <-]. split; [reflexivity|]. exists r. split; [reflexivity|].
      split; [|exact Hj]. unfold ok in Hok. lia.
    + destruct (status r =? 404)%Z; discriminate.
Qed.

(** ** The order of the items *)

Lemma items_started_app options evs1 evs2 :
  items_started options (evs1 ++ evs2)
  = items_started options evs1 ++ items_started options evs2.
Proof.
  unfold items_started. induction evs1 as [|ev evs1 IH]; [reflexivity|].
  cbn [app omap list_omap]. fold (omap (item_start options) (evs1 ++ evs2)).
  fold (omap (item_start options) evs1). rewrite IH.
  now destruct (item_start options ev).
Qed.

Lemma process_summary_starts_one env options summary s :
  exists evs s',
    process_summary env options summary s = (Ok tt, s')
    /\ trace s' = trace s ++ evs
    /\ items_started options evs = [citation_number summary]
    /\ total (result s') = S (total (result s)).
Proof.
  destruct (not_skipped_or_skipped options summary s) as [Hns|[Hskip Hex]].
  - destruct (process_summary_not_skipped env options summary s Hns)
      as [(e & t & u & ev & Hp & Hev)|(detail & paras & oc & _ & _ & _ & _ & Hp)];
      rewrite Hp; eexists _, _; (split; [reflexivity|]); cbn [trace result];
        (split; [reflexivity|]); (split; [|reflexivity]).
    + destruct Hev as [->|[detail ->]];
        unfold fetch_events, write_events, lookup_events, classify_events, items_started;
        destruct (default false (skipExisting options)) eqn:E,
          (default true (extractOutcomes options));
        cbn; rewrite ?E; reflexivity.
    + unfold write_events, lookup_events, classify_events, items_started.
      destruct (default false (skipExisting options)) eqn:E,
        (default true (extractOutcomes options));
        cbn; rewrite ?E; reflexivity.
  - rewrite process_summary_skipped by assumption.
    exists [EvFindFirst (citation_number summary)]. eexists. split; [reflexivity|].
    split; [reflexivity|]. split; [|reflexivity].
    unfold items_started. cbn. now rewrite Hskip.
Qed.

Lemma for_summaries_in_order env options m :
  forall batch s,
    exists j evs s',
      for_summaries env options m batch s = (Ok tt, s')
      /\ trace s' = trace s ++ evs
      /\ items_started options evs = List.map citation_number (firstn j batch)
      /\ total (result s') = total (result s) + j
      /\ j <= length batch
      /\ (j < length batch -> limit_reached m s' = true).
Proof.
  induction batch as [|summary rest IH]; intros s.
  - exists 0, [], s. cbn. rewrite app_nil_r. repeat split; auto; lia.
  - cbn [for_summaries]. unfold bind at 1. unfold get at 1. cbv beta iota.
    destruct (limit_reached m s) eqn:Hlim.
    + exists 0, [], s. cbn. rewrite app_nil_r. repeat split; auto; lia.
    + destruct (process_summary_starts_one env options summary s)
        as (evs1 & s1 & Hp & Ht1 & Hi1 & Htot1).
      unfold bind at 1. rewrite Hp.
      destruct (IH s1) as (j & evs2 & s2 & Hf & Ht2 & Hi2 & Htot2 & Hj & Hcut).
      exists (S j), (evs1 ++ evs2), s2. split; [exact Hf|].
      split; [now rewrite Ht2, Ht1, app_assoc|].
      split; [rewrite items_started_app, Hi1, Hi2; reflexivity|].
      split; [lia|]. split; [cbn; lia|]. intros H. apply Hcut. cbn in H. lia.
Qed.

Lemma firstn_page {A} (l : list A) j a :
  j <= 100 -> firstn j (firstn 100 (skipn a l)) = firstn j (skipn a l).
Proof. intros H. rewrite firstn_firstn. now rewrite Nat.min_l. Qed.

Lemma firstn_next_page {A} (l : list A) t a :
  firstn (length (firstn 100 (skipn a l)) + t) (skipn a l)
  = firstn 100 (skipn a l) ++ firstn t (skipn (a + 100) l).
Proof.
  rewrite <- (firstn_skipn 100 (skipn a l)) at 2.
  rewrite firstn_app_2, skipn_skipn. now replace (100 + a) with (a + 100) by lia.
Qed.

Lemma firstn_length_page {A} (l : list A) :
  firstn (length (firstn 100 l)) l = firstn 100 l.
Proof.
  rewrite length_firstn. destruct (le_lt_dec 100 (length l)) as [H|H].
  - now rewrite Nat.min_l.
  - rewrite Nat.min_r by lia. now rewrite firstn_all, firstn_all2 by lia.
Qed.

(** The items after page [k], when [n] pages remain after it: they are
    taken from the matches past page [k], in order. *)
Lemma for_await_in_order matches endpoint chat parse clk options m params n :
  forall k fuel s,
    100 * (k + n) < length matches <= 100 * (k + n + 1) ->
    n < fuel ->
    exists t evs s',
      for_await_batches fuel (simulated matches endpoint chat parse clk) options m params
        (GenSuspended (100 * k) (100 * k + 100 <? length matches)) s
      = (Ok tt, s')
      /\ trace s' = trace s ++ evs
      /\ items_started options evs
         = List.map citation_number (firstn t (skipn (100 * k + 100) matches))
      /\ total (result s') = total (result s) + t.
Proof.
  induction n as [|n IH]; intros k fuel s Hk Hfuel.
  - destruct fuel as [|fuel]; [lia|].
    cbn [for_await_batches fetchAllDecisions_next]. unfold bind at 1.
    destruct (Nat.ltb_spec (100 * k + 100) (length matches)); [lia|].
    exists 0, [], s. cbn. rewrite app_nil_r. repeat split; auto.
  - destruct fuel as [|fuel]; [lia|].
    cbn [for_await_batches fetchAllDecisions_next]. unfold bind at 1.
    destruct (Nat.ltb_spec (100 * k + 100) (length matches)); [|lia].
    unfold bind at 1. unfold delay, emit, modify. cbv beta iota.
    unfold page_limit. rewrite loop_simulated_page by (st_simpl; lia).
    cbv beta iota. unfold bind at 1.
    destruct (for_summaries_in_order (simulated matches endpoint chat parse clk) options m
                (firstn 100 (skipn (100 * k + 100) matches))
                (requested (EvSearch (queryParams (with_page params (100 * k + 100))))
                   (set_trace (trace s ++ [EvDelay 500]) s)))
      as (j & evs1 & s2 & Hf & Ht & Hi & Htot & Hj & Hcut).
    rewrite Hf. cbv beta iota. unfold bind at 1. unfold get at 1. cbv beta iota.
    assert (Hj100 : j <= 100).
    { rewrite length_firstn in Hj. lia. }
    assert (Htrace : trace s2
                     = trace s ++ ([EvDelay 500;
                                    EvSearch (queryParams (with_page params (100 * k + 100)))]
                                   ++ evs1)).
    { rewrite Ht. unfold requested. st_simpl. now rewrite <- !app_assoc. }
    assert (Hitems : items_started options
                       ([EvDelay 500; EvSearch (queryParams (with_page params (100 * k + 100)))]
                        ++ evs1)
                     = List.map citation_number (firstn j (skipn (100 * k + 100) matches))).
    { rewrite items_started_app, Hi, firstn_page by exact Hj100. reflexivity. }
    assert (Htotal : total (result s2) = total (result s) + j).
    { rewrite Htot. unfold requested. st_simpl. reflexivity. }
    destruct (limit_reached m s2) eqn:Hlim.
    + exists j, ([EvDelay 500; EvSearch (queryParams (with_page params (100 * k + 100)))]
                 ++ evs1), s2.
      split; [reflexivity|]. split; [exact Htrace|]. split; [exact Hitems|exact Htotal].
    + assert (Hfull : j = length (firstn 100 (skipn (100 * k + 100) matches))).
      { destruct (le_lt_dec (length (firstn 100 (skipn (100 * k + 100) matches))) j) as [H1|H1].
        - lia.
        - specialize (Hcut H1). congruence. }
      replace (100 * k + 100) with (100 * S k) in * by lia.
      destruct (IH (S k) fuel s2 ltac:(lia) ltac:(lia))
        as (t & evs2 & s3 & Hf3 & Ht3 & Hi3 & Htot3).
      exists (j + t),
        (([EvDelay 500; EvSearch (queryParams (with_page params (100 * S k)))] ++ evs1) ++ evs2),
        s3.
      split; [exact Hf3|]. split; [now rewrite Ht3, Htrace, <- !app_assoc|].
      split; [|lia].
      rewrite items_started_app, Hitems, Hi3, Hfull, firstn_next_page, List.map_app.
      now rewrite firstn_length_page.
Qed.

Lemma for_await_in_order_from_start matches endpoint chat parse clk options m params fuel s :
  page_count (length matches) < fuel ->
  exists t evs s',
    for_await_batches fuel (simulated matches endpoint chat parse clk) options m params
      GenStart s
    = (Ok tt, s')
    /\ trace s' = trace s ++ evs
    /\ items_started options evs = List.map citation_number (firstn t matches)
    /\ total (result s') = total (result s) + t.
Proof.
  intros Hfuel. destruct fuel as [|fuel]; [lia|].
  cbn [for_await_batches fetchAllDecisions_next]. unfold bind at 1.
  destruct (length matches) as [|n] eqn:HN.
  - rewrite loop_simulated_end by lia.
    exists 0, [EvSearch (queryParams (with_page params 0))]. eexists.
    split; [reflexivity|]. split; [reflexivity|]. split; [reflexivity|].
    unfold requested. st_simpl. lia.
  - pose proof (page_count_bounds (S n) ltac:(lia)) as [Hb Hpos].
    rewrite loop_simulated_page by lia. cbv beta iota. unfold bind at 1.
    destruct (for_summaries_in_order (simulated matches endpoint chat parse clk) options m
                (firstn 100 (skipn 0 matches))
                (requested (EvSearch (queryParams (with_page params 0))) s))
      as (j & evs1 & s2 & Hf & Ht & Hi & Htot & Hj & Hcut).
    rewrite Hf. cbv beta iota. unfold bind at 1. unfold get at 1. cbv beta iota.
    assert (Hj100 : j <= 100).
    { rewrite length_firstn in Hj. lia. }
    assert (Htrace : trace s2
                     = trace s ++ ([EvSearch (queryParams (with_page params 0))] ++ evs1)).
    { rewrite Ht. unfold requested. st_simpl. now rewrite <- !app_assoc. }
    assert (Hitems : items_started options
                       ([EvSearch (queryParams (with_page params 0))] ++ evs1)
                     = List.map citation_number (firstn j matches)).
    { rewrite items_started_app, Hi, firstn_page by exact Hj100. reflexivity. }
    assert (Htotal : total (result s2) = total (result s) + j).
    { rewrite Htot. unfold requested. st_simpl. reflexivity. }
    destruct (limit_reached m s2) eqn:Hlim.
    + exists j, ([EvSearch (queryParams (with_page params 0))] ++ evs1), s2.
      split; [reflexivity|]. split; [exact Htrace|]. split; [exact Hitems|exact Htotal].
    + assert (Hfull : j = length (firstn 100 (skipn 0 matches))).
      { destruct (le_lt_dec (length (firstn 100 (skipn 0 matches))) j) as [H1|H1].
        - lia.
        - specialize (Hcut H1). congruence. }
      pose proof (for_await_in_order matches endpoint chat parse clk options m params
                    (page_count (S n) - 1) 0 fuel s2) as Hc.
      rewrite HN in Hc. cbn [Nat.mul Nat.add] in Hc. change (100 * 0) with 0 in Hc.
      rewrite HN.
      destruct Hc as (t & evs2 & s3 & Hf3 & Ht3 & Hi3 & Htot3); [lia|lia|].
      exists (j + t), (([EvSearch (queryParams (with_page params 0))] ++ evs1) ++ evs2), s3.
      split; [exact Hf3|]. split; [now rewrite Ht3, Htrace, <- !app_assoc|].
      split; [|lia].
      rewrite items_started_app, Hitems, Hi3, Hfull.
      pose proof (firstn_next_page matches t 0) as Hnext.
      change (skipn 0 matches) with matches in *. change (0 + 100) with 100 in Hnext.
      rewrite Hnext, List.map_app. now rewrite firstn_length_page.
Qed.

(** The items of a run are the matches of the listing, taken in order from
    the first: against a simulated upstream the run returns, and the items it
    started - each with its lookup when [skipExisting] is on, with its
    detail request otherwise - are the first [total] matches, one after the
    other and each once. *)
Theorem items_are_taken_in_listing_order :
  forall matches endpoint chat parse clk options fuel s,
    page_count (length matches) < fuel ->
    exists r s' evs,
      syncDecisions fuel (simulated matches endpoint chat parse clk) options s = (Ok r, s')
      /\ trace s' = trace s ++ evs
      /\ items_started options evs = List.map citation_number (firstn (total r) matches).
Proof.
  intros matches endpoint chat parse clk options fuel s Hfuel.
  rewrite syncDecisions_run.
  destruct (for_await_in_order_from_start matches endpoint chat parse clk options
              (effective_maxDecisions options) (search_params options) fuel
              (started (simulated matches endpoint chat parse clk) s) Hfuel)
    as (t & evs & s2 & -> & Ht & Hi & Htot).
  destruct (updateSyncMetadata_returns (simulated matches endpoint chat parse clk)
              (result s2) s2) as (tbl & u & ->).
  cbv zeta. cbn [snd].
  eexists _, _, (evs ++ [EvUpsertMetadata "latest"]). split; [reflexivity|].
  unfold finished. st_simpl. cbn [total set_end]. split.
  - rewrite Ht. unfold started. st_simpl. now rewrite app_assoc.
  - rewrite items_started_app, Hi, Htot. unfold started. st_simpl. cbn [total Nat.add].
    cbn. now rewrite app_nil_r.
Qed.

Lemma items_are_taken_in_listing_order_witness :
  exists r s' evs,
    syncDecisions 2 (simulated (Demo.many 3) Demo.serve_all Demo.chat_granted
                       Demo.parse_granted Demo.ticking)
      (set_maxDecisions (Some (JsInt 2)) Demo.no_options) Demo.fresh = (Ok r, s')
    /\ trace s' = trace Demo.fresh ++ evs
    /\ items_started (set_maxDecisions (Some (JsInt 2)) Demo.no_options) evs
       = List.map citation_number (firstn (total r) (Demo.many 3)).
Proof.
  apply (items_are_taken_in_listing_order (Demo.many 3) Demo.serve_all Demo.chat_granted
           Demo.parse_granted Demo.ticking (set_maxDecisions (Some (JsInt 2)) Demo.no_options)
           2 Demo.fresh).
  vm_compute. lia.
Defined.

(** ** The times of a run *)

Lemma process_summary_startTime env options summary s :
  startTime (result (snd (process_summary env options summary s))) = startTime (result s).
Proof.
  destruct (not_skipped_or_skipped options summary s) as [Hns|[Hskip Hex]].
  - destruct (process_summary_not_skipped env options summary s Hns)
      as [(e & t & u & evs & Hp & _)|(detail & paras & oc & _ & _ & _ & _ & Hp)];
      rewrite Hp; reflexivity.
  - rewrite process_summary_skipped by assumption. reflexivity.
Qed.

(** The result a run returns is timed: its start time is the clock reading
    with which the run began, its end time is set, and its duration is the
    end time less the start time. *)
Theorem returned_result_is_timed :
  forall fuel env options s r s',
    syncDecisions fuel env options s = (Ok r, s') ->
    startTime r = clock env (ticks s)
    /\ exists e, endTime r = Some e /\ duration r = Some (e - startTime r)%Z.
Proof.
  intros fuel env options s r s' Hrun. rewrite syncDecisions_run in Hrun.
  assert (Hinv : startTime (result (snd (for_await_batches fuel env options
                                           (effective_maxDecisions options)
                                           (search_params options) GenStart
                                           (started env s))))
                 = clock env (ticks s)).
  { apply (for_await_batches_inv
             (fun s1 => startTime (result s1) = clock env (ticks s)) (fun _ => True)); auto.
    - intros s1 s2 _ (evs & -> & _) HP. exact HP.
    - intros summary s1 _ HP. now rewrite process_summary_startTime. }
  destruct (for_await_batches _ _ _ _ _ _ (started env s)) as [[[]|e|] s2];
    [|discriminate|discriminate].
  cbn [snd] in Hinv.
  destruct (updateSyncMetadata_returns env (result s2) s2) as (tbl & t & Hu).
  rewrite Hu in Hrun. cbv zeta in Hrun. cbn [snd] in Hrun. injection Hrun as <- _.
  unfold finished. st_simpl. cbn [startTime endTime duration set_end].
  split; [exact Hinv|]. eexists. split; reflexivity.
Qed.

Lemma returned_result_is_timed_witness :
  let run := syncDecisions 3 (Demo.world ["23-0001"]) Demo.no_options Demo.fresh in
  let r := result (snd run) in
  startTime r = clock (Demo.world ["23-0001"]) (ticks Demo.fresh)
  /\ exists e, endTime r = Some e /\ duration r = Some (e - startTime r)%Z.
Proof.
  apply (returned_result_is_timed 3 (Demo.world ["23-0001"]) Demo.no_options Demo.fresh
           (result (snd (syncDecisions 3 (Demo.world ["23-0001"]) Demo.no_options Demo.fresh)))
           (snd (syncDecisions 3 (Demo.world ["23-0001"]) Demo.no_options Demo.fresh))).
  vm_compute. reflexivity.
Defined.

(** ** The status date, when the end time is known *)

(** Given a result whose end time is set, [updateSyncMetadata] records that
    time as the date of the status row - in a new row and in an overwritten
    one alike - and does not read the clock. (In [syncDecisions] it is called
    before the end time is set.) *)
Theorem updateSyncMetadata_records_a_known_end_time :
  forall env r e s,
    endTime r = Some e ->
    updateSyncMetadata env r s
    = (Ok tt,
       mkSt (decisions_tbl s) (status_written r e e (sync_metadata_tbl s)) (ticks s) (uuids s)
         (trace s ++ [EvUpsertMetadata "latest"]) (result s) (decisionsProcessed s))
    /\ List.find (same_key "latest") (status_written r e e (sync_metadata_tbl s))
       = Some (status_row r e).
Proof.
  intros env r e s Hend. split.
  - unfold updateSyncMetadata, endTime_or_now, upsert_metadata.
    rewrite Hend. munfold. st_simpl. cbn [SyncMetadata.id].
    unfold status_written, status_row. f_equal. f_equal.
    destruct (List.existsb (same_key "latest") (sync_metadata_tbl s)) eqn:Hex;
      [|reflexivity].
    apply map_ext_in. intros row _.
    destruct (same_key "latest" row) eqn:Hrow; [|reflexivity].
    unfold same_key in Hrow. apply String.eqb_eq in Hrow.
    destruct row; cbn in *. now subst.
  - destruct (status_written_latest r e e (sync_metadata_tbl s)) as (d & Hfind & [->| ->]);
      exact Hfind.
Qed.

Lemma updateSyncMetadata_records_a_known_end_time_witness :
  let r := mkSyncResult 1 1 0 [] 1700000000000%Z (Some 1700000000005%Z) (Some 5%Z) in
  updateSyncMetadata (Demo.world []) r Demo.fresh
  = (Ok tt,
     mkSt (decisions_tbl Demo.fresh)
       (status_written r 1700000000005%Z 1700000000005%Z (sync_metadata_tbl Demo.fresh))
       (ticks Demo.fresh) (uuids Demo.fresh)
       (trace Demo.fresh ++ [EvUpsertMetadata "latest"]) (result Demo.fresh)
       (decisionsProcessed Demo.fresh))
  /\ List.find (same_key "latest")
       (status_written r 1700000000005%Z 1700000000005%Z (sync_metadata_tbl Demo.fresh))
     = Some (status_row r 1700000000005%Z).
Proof.
  apply (updateSyncMetadata_records_a_known_end_time (Demo.world [])
           (mkSyncResult 1 1 0 [] 1700000000000%Z (Some 1700000000005%Z) (Some 5%Z))
           1700000000005%Z Demo.fresh).
  reflexivity.
Defined.
